(** * TinyEMU SDL display driver (sdl.c, sdl2-keymap.c): a shallow embedding

    The driver adapts a virtual machine's framebuffer, keyboard, mouse and
    PC-speaker devices to SDL2.  This development embeds the scancode table,
    the input dispatcher, the framebuffer-surface management, the refresh
    entry point, start-up and the tone generator, and proves properties of
    them.

    Conventions.
    - A C [int] is a [Z]; where the code multiplies, the two's-complement
      wrap-around is written out ([wrap_int]).
    - C arrays are lists; a read or a write outside the array is the
      outcome [Undef], as is a division by zero and a NULL dereference.
    - The driver's globals, the SDL library state it talks to (pending
      events, live objects) and the calls it makes on the guest and on SDL
      (a chronological trace) are one record, [world], threaded through a
      state monad whose outcomes are a normal return, [exit(n)] or [Undef].
    - A [double] is a binary64 number (the primitive floats, with their
      round-to-nearest arithmetic); libm's [sin], which is no part of the
      driver, is a parameter of the tone generator. *)

From Stdlib Require Import ZArith List Sorted Lia Floats String.
From stdpp Require Import base list.
Import ListNotations.
Local Open Scope Z_scope.

(** ** C integers *)

Definition INT_MIN : Z := - 2 ^ 31.
Definition INT_MAX : Z := 2 ^ 31 - 1.

(** Reduction of a mathematical integer to a 32-bit two's-complement [int]. *)
Definition wrap_int (z : Z) : Z := (z + 2 ^ 31) mod 2 ^ 32 - 2 ^ 31.

(** [a * b] on [int]. *)
Definition int_mul (a b : Z) : Z := wrap_int (a * b).

(** [a / b] on [int]: truncation toward zero; no result for a zero divisor
    or for INT_MIN / -1. *)
Definition int_div (a b : Z) : option Z :=
  if b =? 0 then None
  else if (a =? INT_MIN) && (b =? -1) then None
  else Some (a ÷ b).

(** ** SDL2 constants (SDL_scancode.h, SDL_mouse.h) *)

Definition SDL_SCANCODE_UNKNOWN : Z := 0.
Definition SDL_SCANCODE_A : Z := 4.
Definition SDL_SCANCODE_B : Z := 5.
Definition SDL_SCANCODE_C : Z := 6.
Definition SDL_SCANCODE_D : Z := 7.
Definition SDL_SCANCODE_E : Z := 8.
Definition SDL_SCANCODE_F : Z := 9.
Definition SDL_SCANCODE_G : Z := 10.
Definition SDL_SCANCODE_H : Z := 11.
Definition SDL_SCANCODE_I : Z := 12.
Definition SDL_SCANCODE_J : Z := 13.
Definition SDL_SCANCODE_K : Z := 14.
Definition SDL_SCANCODE_L : Z := 15.
Definition SDL_SCANCODE_M : Z := 16.
Definition SDL_SCANCODE_N : Z := 17.
Definition SDL_SCANCODE_O : Z := 18.
Definition SDL_SCANCODE_P : Z := 19.
Definition SDL_SCANCODE_Q : Z := 20.
Definition SDL_SCANCODE_R : Z := 21.
Definition SDL_SCANCODE_S : Z := 22.
Definition SDL_SCANCODE_T : Z := 23.
Definition SDL_SCANCODE_U : Z := 24.
Definition SDL_SCANCODE_V : Z := 25.
Definition SDL_SCANCODE_W : Z := 26.
Definition SDL_SCANCODE_X : Z := 27.
Definition SDL_SCANCODE_Y : Z := 28.
Definition SDL_SCANCODE_Z : Z := 29.
Definition SDL_SCANCODE_1 : Z := 30.
Definition SDL_SCANCODE_2 : Z := 31.
Definition SDL_SCANCODE_3 : Z := 32.
Definition SDL_SCANCODE_4 : Z := 33.
Definition SDL_SCANCODE_5 : Z := 34.
Definition SDL_SCANCODE_6 : Z := 35.
Definition SDL_SCANCODE_7 : Z := 36.
Definition SDL_SCANCODE_8 : Z := 37.
Definition SDL_SCANCODE_9 : Z := 38.
Definition SDL_SCANCODE_0 : Z := 39.
Definition SDL_SCANCODE_RETURN : Z := 40.
Definition SDL_SCANCODE_ESCAPE : Z := 41.
Definition SDL_SCANCODE_BACKSPACE : Z := 42.
Definition SDL_SCANCODE_TAB : Z := 43.
Definition SDL_SCANCODE_SPACE : Z := 44.
Definition SDL_SCANCODE_MINUS : Z := 45.
Definition SDL_SCANCODE_EQUALS : Z := 46.
Definition SDL_SCANCODE_LEFTBRACKET : Z := 47.
Definition SDL_SCANCODE_RIGHTBRACKET : Z := 48.
Definition SDL_SCANCODE_BACKSLASH : Z := 49.
Definition SDL_SCANCODE_NONUSHASH : Z := 50.
Definition SDL_SCANCODE_SEMICOLON : Z := 51.
Definition SDL_SCANCODE_APOSTROPHE : Z := 52.
Definition SDL_SCANCODE_GRAVE : Z := 53.
Definition SDL_SCANCODE_COMMA : Z := 54.
Definition SDL_SCANCODE_PERIOD : Z := 55.
Definition SDL_SCANCODE_SLASH : Z := 56.
Definition SDL_SCANCODE_CAPSLOCK : Z := 57.
Definition SDL_SCANCODE_F1 : Z := 58.
Definition SDL_SCANCODE_F2 : Z := 59.
Definition SDL_SCANCODE_F3 : Z := 60.
Definition SDL_SCANCODE_F4 : Z := 61.
Definition SDL_SCANCODE_F5 : Z := 62.
Definition SDL_SCANCODE_F6 : Z := 63.
Definition SDL_SCANCODE_F7 : Z := 64.
Definition SDL_SCANCODE_F8 : Z := 65.
Definition SDL_SCANCODE_F9 : Z := 66.
Definition SDL_SCANCODE_F10 : Z := 67.
Definition SDL_SCANCODE_F11 : Z := 68.
Definition SDL_SCANCODE_F12 : Z := 69.
Definition SDL_SCANCODE_PRINTSCREEN : Z := 70.
Definition SDL_SCANCODE_SCROLLLOCK : Z := 71.
Definition SDL_SCANCODE_PAUSE : Z := 72.
Definition SDL_SCANCODE_INSERT : Z := 73.
Definition SDL_SCANCODE_HOME : Z := 74.
Definition SDL_SCANCODE_PAGEUP : Z := 75.
Definition SDL_SCANCODE_DELETE : Z := 76.
Definition SDL_SCANCODE_END : Z := 77.
Definition SDL_SCANCODE_PAGEDOWN : Z := 78.
Definition SDL_SCANCODE_RIGHT : Z := 79.
Definition SDL_SCANCODE_LEFT : Z := 80.
Definition SDL_SCANCODE_DOWN : Z := 81.
Definition SDL_SCANCODE_UP : Z := 82.
Definition SDL_SCANCODE_NUMLOCKCLEAR : Z := 83.
Definition SDL_SCANCODE_KP_DIVIDE : Z := 84.
Definition SDL_SCANCODE_KP_MULTIPLY : Z := 85.
Definition SDL_SCANCODE_KP_MINUS : Z := 86.
Definition SDL_SCANCODE_KP_PLUS : Z := 87.
Definition SDL_SCANCODE_KP_ENTER : Z := 88.
Definition SDL_SCANCODE_KP_1 : Z := 89.
Definition SDL_SCANCODE_KP_2 : Z := 90.
Definition SDL_SCANCODE_KP_3 : Z := 91.
Definition SDL_SCANCODE_KP_4 : Z := 92.
Definition SDL_SCANCODE_KP_5 : Z := 93.
Definition SDL_SCANCODE_KP_6 : Z := 94.
Definition SDL_SCANCODE_KP_7 : Z := 95.
Definition SDL_SCANCODE_KP_8 : Z := 96.
Definition SDL_SCANCODE_KP_9 : Z := 97.
Definition SDL_SCANCODE_KP_0 : Z := 98.
Definition SDL_SCANCODE_KP_PERIOD : Z := 99.
Definition SDL_SCANCODE_NONUSBACKSLASH : Z := 100.
Definition SDL_SCANCODE_POWER : Z := 102.
Definition SDL_SCANCODE_KP_EQUALS : Z := 103.
Definition SDL_SCANCODE_F13 : Z := 104.
Definition SDL_SCANCODE_F14 : Z := 105.
Definition SDL_SCANCODE_F15 : Z := 106.
Definition SDL_SCANCODE_F16 : Z := 107.
Definition SDL_SCANCODE_F17 : Z := 108.
Definition SDL_SCANCODE_F18 : Z := 109.
Definition SDL_SCANCODE_F19 : Z := 110.
Definition SDL_SCANCODE_F20 : Z := 111.
Definition SDL_SCANCODE_F21 : Z := 112.
Definition SDL_SCANCODE_F22 : Z := 113.
Definition SDL_SCANCODE_F23 : Z := 114.
Definition SDL_SCANCODE_F24 : Z := 115.
Definition SDL_SCANCODE_HELP : Z := 117.
Definition SDL_SCANCODE_MENU : Z := 118.
Definition SDL_SCANCODE_SELECT : Z := 119.
Definition SDL_SCANCODE_STOP : Z := 120.
Definition SDL_SCANCODE_AGAIN : Z := 121.
Definition SDL_SCANCODE_UNDO : Z := 122.
Definition SDL_SCANCODE_CUT : Z := 123.
Definition SDL_SCANCODE_COPY : Z := 124.
Definition SDL_SCANCODE_PASTE : Z := 125.
Definition SDL_SCANCODE_FIND : Z := 126.
Definition SDL_SCANCODE_MUTE : Z := 127.
Definition SDL_SCANCODE_VOLUMEUP : Z := 128.
Definition SDL_SCANCODE_VOLUMEDOWN : Z := 129.
Definition SDL_SCANCODE_KP_COMMA : Z := 133.
Definition SDL_SCANCODE_KP_EQUALSAS400 : Z := 134.
Definition SDL_SCANCODE_ALTERASE : Z := 153.
Definition SDL_SCANCODE_SYSREQ : Z := 154.
Definition SDL_SCANCODE_CANCEL : Z := 155.
Definition SDL_SCANCODE_CLEAR : Z := 156.
Definition SDL_SCANCODE_RETURN2 : Z := 158.
Definition SDL_SCANCODE_LCTRL : Z := 224.
Definition SDL_SCANCODE_LSHIFT : Z := 225.
Definition SDL_SCANCODE_LALT : Z := 226.
Definition SDL_SCANCODE_LGUI : Z := 227.
Definition SDL_SCANCODE_RCTRL : Z := 228.
Definition SDL_SCANCODE_RSHIFT : Z := 229.
Definition SDL_SCANCODE_RALT : Z := 230.

Definition SDL_BUTTON_LEFT : Z := 1.
Definition SDL_BUTTON_MIDDLE : Z := 2.
Definition SDL_BUTTON_RIGHT : Z := 3.

(** The macro [SDL_BUTTON(X)] is [1 << (X - 1)]. *)
Definition SDL_BUTTON (X : Z) : Z := Z.shiftl 1 (X - 1).

(** ** Guest keycodes (linux-event-codes.h) *)

Definition KEY_RESERVED : Z := 0.
Definition KEY_ESC : Z := 1.
Definition KEY_1 : Z := 2.
Definition KEY_2 : Z := 3.
Definition KEY_3 : Z := 4.
Definition KEY_4 : Z := 5.
Definition KEY_5 : Z := 6.
Definition KEY_6 : Z := 7.
Definition KEY_7 : Z := 8.
Definition KEY_8 : Z := 9.
Definition KEY_9 : Z := 10.
Definition KEY_0 : Z := 11.
Definition KEY_MINUS : Z := 12.
Definition KEY_EQUAL : Z := 13.
Definition KEY_BACKSPACE : Z := 14.
Definition KEY_TAB : Z := 15.
Definition KEY_Q : Z := 16.
Definition KEY_W : Z := 17.
Definition KEY_E : Z := 18.
Definition KEY_R : Z := 19.
Definition KEY_T : Z := 20.
Definition KEY_Y : Z := 21.
Definition KEY_U : Z := 22.
Definition KEY_I : Z := 23.
Definition KEY_O : Z := 24.
Definition KEY_P : Z := 25.
Definition KEY_LEFTBRACE : Z := 26.
Definition KEY_RIGHTBRACE : Z := 27.
Definition KEY_ENTER : Z := 28.
Definition KEY_LEFTCTRL : Z := 29.
Definition KEY_A : Z := 30.
Definition KEY_S : Z := 31.
Definition KEY_D : Z := 32.
Definition KEY_F : Z := 33.
Definition KEY_G : Z := 34.
Definition KEY_H : Z := 35.
Definition KEY_J : Z := 36.
Definition KEY_K : Z := 37.
Definition KEY_L : Z := 38.
Definition KEY_SEMICOLON : Z := 39.
Definition KEY_APOSTROPHE : Z := 40.
Definition KEY_GRAVE : Z := 41.
Definition KEY_LEFTSHIFT : Z := 42.
Definition KEY_BACKSLASH : Z := 43.
Definition KEY_Z : Z := 44.
Definition KEY_X : Z := 45.
Definition KEY_C : Z := 46.
Definition KEY_V : Z := 47.
Definition KEY_B : Z := 48.
Definition KEY_N : Z := 49.
Definition KEY_M : Z := 50.
Definition KEY_COMMA : Z := 51.
Definition KEY_DOT : Z := 52.
Definition KEY_SLASH : Z := 53.
Definition KEY_RIGHTSHIFT : Z := 54.
Definition KEY_KPASTERISK : Z := 55.
Definition KEY_LEFTALT : Z := 56.
Definition KEY_SPACE : Z := 57.
Definition KEY_CAPSLOCK : Z := 58.
Definition KEY_F1 : Z := 59.
Definition KEY_F2 : Z := 60.
Definition KEY_F3 : Z := 61.
Definition KEY_F4 : Z := 62.
Definition KEY_F5 : Z := 63.
Definition KEY_F6 : Z := 64.
Definition KEY_F7 : Z := 65.
Definition KEY_F8 : Z := 66.
Definition KEY_F9 : Z := 67.
Definition KEY_F10 : Z := 68.
Definition KEY_NUMLOCK : Z := 69.
Definition KEY_SCROLLLOCK : Z := 70.
Definition KEY_KP7 : Z := 71.
Definition KEY_KP8 : Z := 72.
Definition KEY_KP9 : Z := 73.
Definition KEY_KPMINUS : Z := 74.
Definition KEY_KP4 : Z := 75.
Definition KEY_KP5 : Z := 76.
Definition KEY_KP6 : Z := 77.
Definition KEY_KPPLUS : Z := 78.
Definition KEY_KP1 : Z := 79.
Definition KEY_KP2 : Z := 80.
Definition KEY_KP3 : Z := 81.
Definition KEY_KP0 : Z := 82.
Definition KEY_KPDOT : Z := 83.
Definition KEY_F11 : Z := 87.
Definition KEY_F12 : Z := 88.
Definition KEY_KPENTER : Z := 96.
Definition KEY_RIGHTCTRL : Z := 97.
Definition KEY_KPSLASH : Z := 98.
Definition KEY_SYSRQ : Z := 99.
Definition KEY_RIGHTALT : Z := 100.
Definition KEY_HOME : Z := 102.
Definition KEY_UP : Z := 103.
Definition KEY_PAGEUP : Z := 104.
Definition KEY_LEFT : Z := 105.
Definition KEY_RIGHT : Z := 106.
Definition KEY_END : Z := 107.
Definition KEY_DOWN : Z := 108.
Definition KEY_PAGEDOWN : Z := 109.
Definition KEY_INSERT : Z := 110.
Definition KEY_DELETE : Z := 111.
Definition KEY_MUTE : Z := 113.
Definition KEY_VOLUMEDOWN : Z := 114.
Definition KEY_VOLUMEUP : Z := 115.
Definition KEY_POWER : Z := 116.
Definition KEY_KPEQUAL : Z := 117.
Definition KEY_PAUSE : Z := 119.
Definition KEY_KPCOMMA : Z := 121.
Definition KEY_LEFTMETA : Z := 125.
Definition KEY_STOP : Z := 128.
Definition KEY_AGAIN : Z := 129.
Definition KEY_UNDO : Z := 131.
Definition KEY_COPY : Z := 133.
Definition KEY_PASTE : Z := 135.
Definition KEY_FIND : Z := 136.
Definition KEY_CUT : Z := 137.
Definition KEY_HELP : Z := 138.
Definition KEY_MENU : Z := 139.
Definition KEY_F13 : Z := 183.
Definition KEY_F14 : Z := 184.
Definition KEY_F15 : Z := 185.
Definition KEY_F16 : Z := 186.
Definition KEY_F17 : Z := 187.
Definition KEY_F18 : Z := 188.
Definition KEY_F19 : Z := 189.
Definition KEY_F20 : Z := 190.
Definition KEY_F21 : Z := 191.
Definition KEY_F22 : Z := 192.
Definition KEY_F23 : Z := 193.
Definition KEY_F24 : Z := 194.
Definition KEY_PRINT : Z := 210.
Definition KEY_ALTERASE : Z := 222.
Definition KEY_CANCEL : Z := 223.
Definition KEY_SELECT : Z := 353.
Definition KEY_CLEAR : Z := 355.

(** ** The scancode table (sdl2-keymap.c) *)

(** The designated initializers of [keymap], in source order:
    [[index] = value]. *)
Definition keymap_init : list (Z * Z) :=
  [ (SDL_SCANCODE_UNKNOWN, KEY_RESERVED);
    (SDL_SCANCODE_A, KEY_A); (SDL_SCANCODE_B, KEY_B);
    (SDL_SCANCODE_C, KEY_C); (SDL_SCANCODE_D, KEY_D);
    (SDL_SCANCODE_E, KEY_E); (SDL_SCANCODE_F, KEY_F);
    (SDL_SCANCODE_G, KEY_G); (SDL_SCANCODE_H, KEY_H);
    (SDL_SCANCODE_I, KEY_I); (SDL_SCANCODE_J, KEY_J);
    (SDL_SCANCODE_K, KEY_K); (SDL_SCANCODE_L, KEY_L);
    (SDL_SCANCODE_M, KEY_M); (SDL_SCANCODE_N, KEY_N);
    (SDL_SCANCODE_O, KEY_O); (SDL_SCANCODE_P, KEY_P);
    (SDL_SCANCODE_Q, KEY_Q); (SDL_SCANCODE_R, KEY_R);
    (SDL_SCANCODE_S, KEY_S); (SDL_SCANCODE_T, KEY_T);
    (SDL_SCANCODE_U, KEY_U); (SDL_SCANCODE_V, KEY_V);
    (SDL_SCANCODE_W, KEY_W); (SDL_SCANCODE_X, KEY_X);
    (SDL_SCANCODE_Y, KEY_Y); (SDL_SCANCODE_Z, KEY_Z);
    (SDL_SCANCODE_1, KEY_1); (SDL_SCANCODE_2, KEY_2);
    (SDL_SCANCODE_3, KEY_3); (SDL_SCANCODE_4, KEY_4);
    (SDL_SCANCODE_5, KEY_5); (SDL_SCANCODE_6, KEY_6);
    (SDL_SCANCODE_7, KEY_7); (SDL_SCANCODE_8, KEY_8);
    (SDL_SCANCODE_9, KEY_9); (SDL_SCANCODE_0, KEY_0);
    (SDL_SCANCODE_RETURN, KEY_ENTER);
    (SDL_SCANCODE_ESCAPE, KEY_ESC);
    (SDL_SCANCODE_BACKSPACE, KEY_BACKSPACE);
    (SDL_SCANCODE_TAB, KEY_TAB);
    (SDL_SCANCODE_SPACE, KEY_SPACE);
    (SDL_SCANCODE_MINUS, KEY_MINUS);
    (SDL_SCANCODE_EQUALS, KEY_EQUAL);
    (SDL_SCANCODE_LEFTBRACKET, KEY_LEFTBRACE);
    (SDL_SCANCODE_RIGHTBRACKET, KEY_RIGHTBRACE);
    (SDL_SCANCODE_BACKSLASH, KEY_BACKSLASH);
    (SDL_SCANCODE_NONUSHASH, KEY_BACKSLASH);
    (SDL_SCANCODE_SEMICOLON, KEY_SEMICOLON);
    (SDL_SCANCODE_APOSTROPHE, KEY_APOSTROPHE);
    (SDL_SCANCODE_GRAVE, KEY_GRAVE);
    (SDL_SCANCODE_COMMA, KEY_COMMA);
    (SDL_SCANCODE_PERIOD, KEY_DOT);
    (SDL_SCANCODE_SLASH, KEY_SLASH);
    (SDL_SCANCODE_CAPSLOCK, KEY_CAPSLOCK);
    (SDL_SCANCODE_F1, KEY_F1); (SDL_SCANCODE_F2, KEY_F2);
    (SDL_SCANCODE_F3, KEY_F3); (SDL_SCANCODE_F4, KEY_F4);
    (SDL_SCANCODE_F5, KEY_F5); (SDL_SCANCODE_F6, KEY_F6);
    (SDL_SCANCODE_F7, KEY_F7); (SDL_SCANCODE_F8, KEY_F8);
    (SDL_SCANCODE_F9, KEY_F9); (SDL_SCANCODE_F10, KEY_F10);
    (SDL_SCANCODE_F11, KEY_F11); (SDL_SCANCODE_F12, KEY_F12);
    (SDL_SCANCODE_PRINTSCREEN, KEY_PRINT);
    (SDL_SCANCODE_SCROLLLOCK, KEY_SCROLLLOCK);
    (SDL_SCANCODE_PAUSE, KEY_PAUSE);
    (SDL_SCANCODE_INSERT, KEY_INSERT);
    (SDL_SCANCODE_HOME, KEY_HOME);
    (SDL_SCANCODE_PAGEUP, KEY_PAGEUP);
    (SDL_SCANCODE_DELETE, KEY_DELETE);
    (SDL_SCANCODE_END, KEY_END);
    (SDL_SCANCODE_PAGEDOWN, KEY_PAGEDOWN);
    (SDL_SCANCODE_RIGHT, KEY_RIGHT);
    (SDL_SCANCODE_LEFT, KEY_LEFT);
    (SDL_SCANCODE_DOWN, KEY_DOWN);
    (SDL_SCANCODE_UP, KEY_UP);
    (SDL_SCANCODE_NUMLOCKCLEAR, KEY_NUMLOCK);
    (SDL_SCANCODE_KP_DIVIDE, KEY_KPSLASH);
    (SDL_SCANCODE_KP_MULTIPLY, KEY_KPASTERISK);
    (SDL_SCANCODE_KP_MINUS, KEY_KPMINUS);
    (SDL_SCANCODE_KP_PLUS, KEY_KPPLUS);
    (SDL_SCANCODE_KP_ENTER, KEY_KPENTER);
    (SDL_SCANCODE_KP_1, KEY_KP1); (SDL_SCANCODE_KP_2, KEY_KP2);
    (SDL_SCANCODE_KP_3, KEY_KP3); (SDL_SCANCODE_KP_4, KEY_KP4);
    (SDL_SCANCODE_KP_5, KEY_KP5); (SDL_SCANCODE_KP_6, KEY_KP6);
    (SDL_SCANCODE_KP_7, KEY_KP7); (SDL_SCANCODE_KP_8, KEY_KP8);
    (SDL_SCANCODE_KP_9, KEY_KP9); (SDL_SCANCODE_KP_0, KEY_KP0);
    (SDL_SCANCODE_KP_PERIOD, KEY_KPDOT);
    (SDL_SCANCODE_NONUSBACKSLASH, KEY_BACKSLASH);
    (SDL_SCANCODE_POWER, KEY_POWER);
    (SDL_SCANCODE_KP_EQUALS, KEY_KPEQUAL);
    (SDL_SCANCODE_F13, KEY_F13); (SDL_SCANCODE_F14, KEY_F14);
    (SDL_SCANCODE_F15, KEY_F15); (SDL_SCANCODE_F16, KEY_F16);
    (SDL_SCANCODE_F17, KEY_F17); (SDL_SCANCODE_F18, KEY_F18);
    (SDL_SCANCODE_F19, KEY_F19); (SDL_SCANCODE_F20, KEY_F20);
    (SDL_SCANCODE_F21, KEY_F21); (SDL_SCANCODE_F22, KEY_F22);
    (SDL_SCANCODE_F23, KEY_F23); (SDL_SCANCODE_F24, KEY_F24);
    (SDL_SCANCODE_HELP, KEY_HELP);
    (SDL_SCANCODE_MENU, KEY_MENU);
    (SDL_SCANCODE_SELECT, KEY_SELECT);
    (SDL_SCANCODE_STOP, KEY_STOP);
    (SDL_SCANCODE_AGAIN, KEY_AGAIN);
    (SDL_SCANCODE_UNDO, KEY_UNDO);
    (SDL_SCANCODE_CUT, KEY_CUT);
    (SDL_SCANCODE_COPY, KEY_COPY);
    (SDL_SCANCODE_PASTE, KEY_PASTE);
    (SDL_SCANCODE_FIND, KEY_FIND);
    (SDL_SCANCODE_MUTE, KEY_MUTE);
    (SDL_SCANCODE_VOLUMEUP, KEY_VOLUMEUP);
    (SDL_SCANCODE_VOLUMEDOWN, KEY_VOLUMEDOWN);
    (SDL_SCANCODE_KP_COMMA, KEY_KPCOMMA);
    (SDL_SCANCODE_KP_EQUALSAS400, KEY_KPEQUAL);
    (SDL_SCANCODE_ALTERASE, KEY_ALTERASE);
    (SDL_SCANCODE_SYSREQ, KEY_SYSRQ);
    (SDL_SCANCODE_CANCEL, KEY_CANCEL);
    (SDL_SCANCODE_CLEAR, KEY_CLEAR);
    (SDL_SCANCODE_RETURN2, KEY_ENTER);
    (SDL_SCANCODE_LCTRL, KEY_LEFTCTRL);
    (SDL_SCANCODE_LSHIFT, KEY_LEFTSHIFT);
    (SDL_SCANCODE_LALT, KEY_LEFTALT);
    (SDL_SCANCODE_LGUI, KEY_LEFTMETA);
    (SDL_SCANCODE_RCTRL, KEY_RIGHTCTRL);
    (SDL_SCANCODE_RSHIFT, KEY_RIGHTSHIFT);
    (SDL_SCANCODE_RALT, KEY_RIGHTALT) ].

(** An array of [n] elements with designated initializers: elements start at
    zero and the initializers are applied in source order (a later one for
    the same index wins). *)
Definition array_init (n : nat) (inits : list (Z * Z)) : list Z :=
  foldl (fun a iv => <[Z.to_nat iv.1 := iv.2]> a) (replicate n 0) inits.

(** [a[i]] for a C array: no result outside the array. *)
Definition array_get {A : Type} (a : list A) (i : Z) : option A :=
  if i <? 0 then None else a !! Z.to_nat i.

(** [a[i] = x] for a C array: no result outside the array. *)
Definition array_set {A : Type} (a : list A) (i : Z) (x : A) : option (list A) :=
  if (0 <=? i) && (i <? Z.of_nat (length a)) then Some (<[Z.to_nat i := x]> a)
  else None.

(** The entry a list of designated initializers gives to index [i]: the last
    initializer for [i], zero when there is none. *)
Fixpoint designated (inits : list (Z * Z)) (i : nat) (dflt : Z) : Z :=
  match inits with
  | [] => dflt
  | (j, v) :: rest =>
      designated rest i (if Nat.eqb (Z.to_nat j) i then v else dflt)
  end.

(** ** Data of the driver and of its two neighbours, SDL and the guest *)

Record SDL_Rect := { rect_x : Z; rect_y : Z; rect_w : Z; rect_h : Z }.

(** An [SDL_Surface] made by [SDL_CreateRGBSurfaceFrom]: the object's
    identity, and the pixel pointer and pitch it was given. *)
Record SDL_Surface := { surface_id : Z; pixels : Z; pitch : Z }.

(** [FBDevice]: geometry and pixel memory of the guest framebuffer.  Its
    [refresh] method belongs to the device model; what it does with the
    callback it is handed is recorded as [dirty]: the rectangles it reports
    in one refresh, in the order it reports them. *)
Record FBDevice := {
  width : Z; height : Z; stride : Z; fb_data : Z;
  dirty : list SDL_Rect
}.

(** [VirtMachine]: the framebuffer device, when one is configured, and the
    answer of [vm_mouse_is_absolute]. *)
Record VirtMachine := { fb_dev : option FBDevice; mouse_is_absolute : bool }.

(** Host events, by [ev->type]. *)
Inductive SDL_Event : Type :=
| SDL_KEYDOWN (scancode : Z)
| SDL_KEYUP (scancode : Z)
| SDL_MOUSEMOTION (state x y xrel yrel : Z)
| SDL_MOUSEBUTTONDOWN (button : Z)
| SDL_MOUSEBUTTONUP (button : Z)
| SDL_MOUSEWHEEL (wx wy : Z)
| SDL_QUIT
| SDL_OTHEREVENT (type : Z).

(** [SDL_KeyboardEvent]: the two fields the driver reads. *)
Record SDL_KeyboardEvent := { key_down : bool; key_scancode : Z }.

(** The calls the driver makes on the guest, on SDL and on stderr (a
    diagnostic is recorded without its final newline). *)
Inductive action : Type :=
| vm_send_key_event (is_down : bool) (keycode : Z)
| vm_send_mouse_event (x y dz buttons : Z)
| SDL_FreeSurface (surface : Z)
| SDL_CreateRGBSurfaceFrom
    (data w h depth pitch Rmask Gmask Bmask Amask : Z)
| SDL_CreateRenderer
| SDL_CreateTextureFromSurface (renderer surface : Z)
| SDL_UpdateTexture (texture : option Z) (r : SDL_Rect) (start pitch : Z)
| SDL_RenderCopy (renderer texture : option Z)
| SDL_RenderPresent (renderer : option Z)
| fprintf_stderr (msg : string).

Record world := {
  (* the globals of sdl.c *)
  fb_surface : option SDL_Surface;
  screen_width : Z;
  screen_height : Z;
  fb_width : Z;
  fb_height : Z;
  fb_stride : Z;
  key_pressed : list bool;
  texture : option Z;
  renderer : option Z;
  (* SDL: the event queue, the objects it holds alive, and what its next
     object creations return (NULL once the list is used up) *)
  pending : list SDL_Event;
  live : list Z;
  fresh : list (option Z);
  (* the calls made so far, oldest first *)
  trace : list action
}.

Definition set_fb_surface (s : option SDL_Surface) (w : world) : world :=
  {| fb_surface := s; screen_width := screen_width w;
     screen_height := screen_height w; fb_width := fb_width w;
     fb_height := fb_height w; fb_stride := fb_stride w;
     key_pressed := key_pressed w; texture := texture w;
     renderer := renderer w; pending := pending w; live := live w;
     fresh := fresh w; trace := trace w |}.

Definition set_fb_geometry (fw fh fs : Z) (w : world) : world :=
  {| fb_surface := fb_surface w; screen_width := screen_width w;
     screen_height := screen_height w; fb_width := fw;
     fb_height := fh; fb_stride := fs;
     key_pressed := key_pressed w; texture := texture w;
     renderer := renderer w; pending := pending w; live := live w;
     fresh := fresh w; trace := trace w |}.

Definition set_key_pressed (kp : list bool) (w : world) : world :=
  {| fb_surface := fb_surface w; screen_width := screen_width w;
     screen_height := screen_height w; fb_width := fb_width w;
     fb_height := fb_height w; fb_stride := fb_stride w;
     key_pressed := kp; texture := texture w;
     renderer := renderer w; pending := pending w; live := live w;
     fresh := fresh w; trace := trace w |}.

Definition set_texture (t : option Z) (w : world) : world :=
  {| fb_surface := fb_surface w; screen_width := screen_width w;
     screen_height := screen_height w; fb_width := fb_width w;
     fb_height := fb_height w; fb_stride := fb_stride w;
     key_pressed := key_pressed w; texture := t;
     renderer := renderer w; pending := pending w; live := live w;
     fresh := fresh w; trace := trace w |}.

Definition set_renderer (r : option Z) (w : world) : world :=
  {| fb_surface := fb_surface w; screen_width := screen_width w;
     screen_height := screen_height w; fb_width := fb_width w;
     fb_height := fb_height w; fb_stride := fb_stride w;
     key_pressed := key_pressed w; texture := texture w;
     renderer := r; pending := pending w; live := live w;
     fresh := fresh w; trace := trace w |}.

Definition set_pending (q : list SDL_Event) (w : world) : world :=
  {| fb_surface := fb_surface w; screen_width := screen_width w;
     screen_height := screen_height w; fb_width := fb_width w;
     fb_height := fb_height w; fb_stride := fb_stride w;
     key_pressed := key_pressed w; texture := texture w;
     renderer := renderer w; pending := q; live := live w;
     fresh := fresh w; trace := trace w |}.

Definition set_live (l : list Z) (w : world) : world :=
  {| fb_surface := fb_surface w; screen_width := screen_width w;
     screen_height := screen_height w; fb_width := fb_width w;
     fb_height := fb_height w; fb_stride := fb_stride w;
     key_pressed := key_pressed w; texture := texture w;
     renderer := renderer w; pending := pending w; live := l;
     fresh := fresh w; trace := trace w |}.

Definition set_fresh (f : list (option Z)) (w : world) : world :=
  {| fb_surface := fb_surface w; screen_width := screen_width w;
     screen_height := screen_height w; fb_width := fb_width w;
     fb_height := fb_height w; fb_stride := fb_stride w;
     key_pressed := key_pressed w; texture := texture w;
     renderer := renderer w; pending := pending w; live := live w;
     fresh := f; trace := trace w |}.

Definition set_trace (t : list action) (w : world) : world :=
  {| fb_surface := fb_surface w; screen_width := screen_width w;
     screen_height := screen_height w; fb_width := fb_width w;
     fb_height := fb_height w; fb_stride := fb_stride w;
     key_pressed := key_pressed w; texture := texture w;
     renderer := renderer w; pending := pending w; live := live w;
     fresh := fresh w; trace := t |}.

(** ** The monad: state, [exit] and undefined behaviour *)

Inductive outcome (A : Type) : Type :=
| Ret (a : A)
| Exit (status : Z)
| Undef.
Arguments Ret {A} a.
Arguments Exit {A} status.
Arguments Undef {A}.

Definition M (A : Type) : Type := world -> outcome A * world.

Definition ret {A : Type} (a : A) : M A := fun w => (Ret a, w).

Definition bind {A B : Type} (c : M A) (k : A -> M B) : M B :=
  fun w =>
    match c w with
    | (Ret a, w') => k a w'
    | (Exit n, w') => (Exit n, w')
    | (Undef, w') => (Undef, w')
    end.

Notation "'let*' x := c 'in' k" := (bind c (fun x => k))
  (at level 10, x name, c at level 100, k at level 200).
Notation "c ;; k" := (bind c (fun _ => k))
  (at level 100, k at level 200, right associativity).

Definition get {A : Type} (f : world -> A) : M A := fun w => (Ret (f w), w).
Definition modify (f : world -> world) : M unit := fun w => (Ret tt, f w).
Definition exit {A : Type} (status : Z) : M A := fun w => (Exit status, w).
Definition undefined {A : Type} : M A := fun w => (Undef, w).

(** A value that exists only when the access that yields it is defined. *)
Definition defined {A : Type} (o : option A) : M A :=
  match o with Some a => ret a | None => undefined end.

(** A call that returns nothing the driver uses. *)
Definition call (a : action) : M unit :=
  modify (fun w => set_trace (trace w ++ [a]) w).

(** A call that creates an SDL object: SDL answers with the next entry of
    [fresh], and a created object is alive from then on. *)
Definition create (a : action) : M (option Z) :=
  fun w =>
    let w1 := set_trace (trace w ++ [a]) w in
    match fresh w1 with
    | Some h :: rest => (Ret (Some h), set_live (h :: live w1) (set_fresh rest w1))
    | None :: rest => (Ret None, set_fresh rest w1)
    | [] => (Ret None, w1)
    end.

(** A call that destroys the SDL object [h]. *)
Definition destroy (a : action) (h : Z) : M unit :=
  modify (fun w =>
    set_live (filter (fun h' => h' ≠ h) (live w)) (set_trace (trace w ++ [a]) w)).

(** [for each x of l, in order: f x]. *)
Fixpoint for_each {A : Type} (f : A -> M unit) (l : list A) : M unit :=
  match l with
  | [] => ret tt
  | x :: rest => f x ;; for_each f rest
  end.

(** ** The tone generator (sdl.c: [beep], [audio_callback]) *)

Definition AMPLITUDE : Z := 8000.
Definition SAMPLERATE : Z := 44100.

(** [M_PI] (math.h): the binary64 number nearest to pi. *)
Definition M_PI : float := 0x1.921fb54442d18p+1%float.

(** Conversion of an [int] to [double] (exact: an [int] has 31 bits). *)
Definition double_of_int (z : Z) : float :=
  if z <? 0 then (- PrimFloat.of_uint63 (Uint63.of_Z (- z)))%float
  else PrimFloat.of_uint63 (Uint63.of_Z z).

(** A [double] of sign [sx] that is not a zero and not a NaN. *)
Definition signed_nonzero (sx : bool) (x : spec_float) : Prop :=
  match x with
  | S754_finite s _ _ | S754_infinity s => s = sx
  | _ => False
  end.

(** [beepfreq], the function-static phase accumulator [v] of
    [audio_callback], and [have.freq], the sample rate SDL granted. *)
Record tone := { beepfreq : Z; v : float; have_freq : Z }.

(** [beep]: the store to [beepfreq] (between [SDL_LockAudio] and
    [SDL_UnlockAudio]). *)
Definition beep (freq : Z) (t : tone) : tone :=
  {| beepfreq := freq; v := v t; have_freq := have_freq t |}.

(** Conversion of a [double] to [Sint16]: the fraction is discarded.  The
    conversion is undefined, and there is no value, for a NaN, an infinity
    and an integral part outside -32768 .. 32767. *)
Definition Sint16_of_double (x : float) : option Z :=
  match Prim2SF x with
  | S754_zero _ => Some 0
  | S754_finite s m e =>
      let magnitude :=
        if 0 <=? e then Z.pos m * 2 ^ e else Z.pos m / 2 ^ (- e) in
      let z := if s then - magnitude else magnitude in
      if (-32768 <=? z) && (z <=? 32767) then Some z else None
  | S754_infinity _ | S754_nan => None
  end.

(** A libm known at the listed arguments only: there [sin] answers as
    listed; anywhere else the answer is a NaN, whose conversion to a sample
    has no value, so an argument that was not listed shows. *)
Fixpoint sin_sheet (answers : list (float * float)) (x : float) : float :=
  match answers with
  | [] => nan
  | (a, y) :: rest => if PrimFloat.eqb x a then y else sin_sheet rest x
  end.

Section Tone.

(** [sin] (libm). *)
Variable sin : float -> float.

(** [AMPLITUDE * sin(v * 2 * M_PI / have.freq)], stored to a [Sint16]. *)
Definition sample_of (t : tone) : option Z :=
  Sint16_of_double
    (double_of_int AMPLITUDE
     * sin (v t * double_of_int 2 * M_PI / double_of_int (have_freq t)))%float.

(** One iteration of the loop: the sample stored, then [v += beepfreq]. *)
Definition audio_step (t : tone) : option Z * tone :=
  (sample_of t,
   {| beepfreq := beepfreq t;
      v := (v t + double_of_int (beepfreq t))%float;
      have_freq := have_freq t |}).

(** [n] iterations of the loop: the samples stored to [stream[0 .. n-1]]. *)
Fixpoint audio_fill (n : nat) (t : tone) : list (option Z) * tone :=
  match n with
  | O => ([], t)
  | S n' =>
      let (s, t1) := audio_step t in
      let (rest, t2) := audio_fill n' t1 in
      (s :: rest, t2)
  end.

(** [int length = _length / sizeof *stream]: the division is done in
    [size_t] (64 bits), the quotient stored to an [int]. *)
Definition audio_length (_length : Z) : Z :=
  wrap_int ((_length mod 2 ^ 64) / 2).

Definition audio_callback (_length : Z) (t : tone)
  : list (option Z) * tone :=
  audio_fill (Z.to_nat (audio_length _length)) t.

End Tone.

(** ** The driver (sdl.c) *)

Section Driver.

(** [NR_KEYS] (sdl2-keymap.h): the size of [keymap] and of [key_pressed]. *)
Variable NR_KEYS : Z.

(** [unsigned short keymap[NR_KEYS] = { ... }]. *)
Definition keymap : list Z := array_init (Z.to_nat NR_KEYS) keymap_init.

(** The globals as the program starts (static storage is zeroed) and
    [sdl_init] has stored the window size. *)
Definition initial_world (w h : Z) : world :=
  {| fb_surface := None; screen_width := w; screen_height := h;
     fb_width := 0; fb_height := 0; fb_stride := 0;
     key_pressed := replicate (Z.to_nat NR_KEYS) false;
     texture := None; renderer := None;
     pending := []; live := []; fresh := []; trace := [] |}.

Definition geometry_differs (fb : FBDevice) (w : world) : bool :=
  negb (fb_width w =? width fb) || negb (fb_height w =? height fb)
  || negb (fb_stride w =? stride fb).

Definition sdl_update_fb_surface (fb : FBDevice) : M unit :=
  let* old := get fb_surface in
  let* differs := get (geometry_differs fb) in
  if match old with None => true | Some _ => differs end then
    match old with
    | Some s => destroy (SDL_FreeSurface (surface_id s)) (surface_id s)
    | None => ret tt
    end ;;
    modify (set_fb_geometry (width fb) (height fb) (stride fb)) ;;
    let* s := create (SDL_CreateRGBSurfaceFrom (fb_data fb)
                        (width fb) (height fb) 32 (stride fb)
                        0x00ff0000 0x0000ff00 0x000000ff 0x00000000) in
    modify (set_fb_surface
              (option_map (fun h => {| surface_id := h; pixels := fb_data fb;
                                       pitch := stride fb |}) s)) ;;
    match s with
    | None =>
        call (fprintf_stderr "Could not create SDL framebuffer surface") ;;
        exit 1
    | Some hs =>
        let* r := create SDL_CreateRenderer in
        modify (set_renderer r) ;;
        match r with
        | None =>
            call (fprintf_stderr "Could not create renderer - exiting") ;;
            exit 1
        | Some hr =>
            let* t := create (SDL_CreateTextureFromSurface hr hs) in
            modify (set_texture t) ;;
            match t with
            | None =>
                call (fprintf_stderr "Could not create texture - exiting") ;;
                exit 1
            | Some _ => ret tt
            end
        end
    end
  else ret tt.

Definition sdl_update (fb : FBDevice) (r : SDL_Rect) : M unit :=
  let* surf := get fb_surface in
  let* s := defined surf in
  let start := pixels s + pitch s * rect_y r + rect_x r in
  let* t := get texture in
  let* rn := get renderer in
  call (SDL_UpdateTexture t r start (pitch s)) ;;
  call (SDL_RenderCopy rn t) ;;
  call (SDL_RenderPresent rn).

(** [fb_dev->refresh(fb_dev, sdl_update, NULL)]: the device calls back once
    for each rectangle it reports. *)
Definition refresh (fb : FBDevice) (cb : FBDevice -> SDL_Rect -> M unit)
  : M unit :=
  for_each (cb fb) (dirty fb).

(** The variant compiled when [_WIN32] is not defined. *)
Definition sdl_get_keycode (ev : SDL_KeyboardEvent) : option Z :=
  let scancode := key_scancode ev in
  if scancode <? NR_KEYS then array_get keymap scancode
  else Some 0.

(** The body of the loop of [sdl_reset_keys] run [n] times from index [i]. *)
Fixpoint reset_keys_from (n : nat) (i : Z) : M unit :=
  match n with
  | O => ret tt
  | S n' =>
      let* kp := get key_pressed in
      let* p := defined (array_get kp i) in
      (if p then
         call (vm_send_key_event false i) ;;
         let* kp' := defined (array_set kp i false) in
         modify (set_key_pressed kp')
       else ret tt) ;;
      reset_keys_from n' (i + 1)
  end.

(** [for (i = 1; i < NR_KEYS; i++)]. *)
Definition sdl_reset_keys : M unit :=
  reset_keys_from (Z.to_nat (NR_KEYS - 1)) 1.

Definition sdl_handle_key_event (ev : SDL_KeyboardEvent) : M unit :=
  let* keycode := defined (sdl_get_keycode ev) in
  if negb (keycode =? 0) then
    if (keycode =? 0x3a) || (keycode =? 0x45) then
      call (vm_send_key_event true keycode) ;;
      call (vm_send_key_event false keycode)
    else
      let keypress := key_down ev in
      (if keycode <? NR_KEYS then
         let* kp := get key_pressed in
         let* kp' := defined (array_set kp keycode keypress) in
         modify (set_key_pressed kp')
       else ret tt) ;;
      call (vm_send_key_event keypress keycode)
  else if negb (key_down ev) then sdl_reset_keys
  else ret tt.

Definition button_mask (state : Z) : Z :=
  let buttons := 0 in
  let buttons :=
    if negb (Z.land state (SDL_BUTTON SDL_BUTTON_LEFT) =? 0)
    then Z.lor buttons (Z.shiftl 1 0) else buttons in
  let buttons :=
    if negb (Z.land state (SDL_BUTTON SDL_BUTTON_RIGHT) =? 0)
    then Z.lor buttons (Z.shiftl 1 1) else buttons in
  let buttons :=
    if negb (Z.land state (SDL_BUTTON SDL_BUTTON_MIDDLE) =? 0)
    then Z.lor buttons (Z.shiftl 1 2) else buttons in
  buttons.

Definition sdl_send_mouse_event (x1 y1 dz state : Z) (is_absolute : bool)
  : M unit :=
  let buttons := button_mask state in
  if is_absolute then
    let* sw := get screen_width in
    let* x := defined (int_div (int_mul x1 32768) sw) in
    let* sh := get screen_height in
    let* y := defined (int_div (int_mul y1 32768) sh) in
    call (vm_send_mouse_event x y dz buttons)
  else
    call (vm_send_mouse_event x1 y1 dz buttons).

(** The argument is the [SDL_MOUSEMOTION] event's payload. *)
Definition sdl_handle_mouse_motion_event
  (state mx my xrel yrel : Z) (m : VirtMachine) : M unit :=
  let is_absolute := mouse_is_absolute m in
  let x := if is_absolute then mx else xrel in
  let y := if is_absolute then my else yrel in
  sdl_send_mouse_event x y 0 state is_absolute.

(** The [switch] of [sdl_refresh] on one polled event. *)
Definition dispatch (m : VirtMachine) (ev : SDL_Event) : M unit :=
  match ev with
  | SDL_KEYDOWN sc =>
      sdl_handle_key_event {| key_down := true; key_scancode := sc |}
  | SDL_KEYUP sc =>
      sdl_handle_key_event {| key_down := false; key_scancode := sc |}
  | SDL_MOUSEMOTION state x y xrel yrel =>
      sdl_handle_mouse_motion_event state x y xrel yrel m
  | SDL_MOUSEBUTTONDOWN _ | SDL_MOUSEBUTTONUP _ => ret tt
  | SDL_QUIT => exit 0
  | SDL_MOUSEWHEEL _ _ | SDL_OTHEREVENT _ => ret tt
  end.

(** [while (SDL_PollEvent(ev)) switch ...] on the queue [q]: each poll takes
    the oldest event off the queue; the loop ends when the queue is empty. *)
Fixpoint poll_events (m : VirtMachine) (q : list SDL_Event) : M unit :=
  match q with
  | [] => ret tt
  | ev :: rest =>
      modify (set_pending rest) ;;
      dispatch m ev ;;
      poll_events m rest
  end.

Definition sdl_refresh (m : VirtMachine) : M unit :=
  match fb_dev m with
  | None => ret tt
  | Some fb =>
      sdl_update_fb_surface fb ;;
      refresh fb sdl_update ;;
      let* q := get pending in
      poll_events m q
  end.

(** The machine's main loop calls [sdl_refresh] once per tick; [ms] is the
    machine as each successive tick finds it. *)
Definition ticks (ms : list VirtMachine) : M unit := for_each sdl_refresh ms.

(** Between two ticks the host queues events: [arrive evs] puts them after
    those [SDL_PollEvent] has yet to deliver. *)
Definition arrive (evs : list SDL_Event) : M unit :=
  modify (fun w => set_pending (pending w ++ evs) w).

(** A session of the main loop: for each tick in turn, the machine as the
    tick finds it, and the events the host queued since the tick before. *)
Definition session (s : list (VirtMachine * list SDL_Event)) : M unit :=
  for_each (fun tick => arrive tick.2 ;; sdl_refresh tick.1) s.

(** The pure content of the loop of [sdl_reset_keys]: the keycodes it
    releases from index [i] on, and what it leaves in [key_pressed]. *)
Fixpoint released (kp : list bool) (i : Z) (n : nat) : list Z :=
  match n with
  | O => []
  | S n' =>
      (if decide (array_get kp i = Some true) then [i] else [])
      ++ released kp (i + 1) n'
  end.

Fixpoint cleared (kp : list bool) (i : nat) (n : nat) : list bool :=
  match n with
  | O => kp
  | S n' => cleared (<[i := false]> kp) (S i) n'
  end.

(** What holds of [key_pressed] in every state the dispatcher reaches: it
    has its declared size and entry 0 is never set. *)
Definition key_pressed_ok (w : world) : Prop :=
  length (key_pressed w) = Z.to_nat NR_KEYS
  /\ key_pressed w !! 0%nat <> Some true.

(** A computation is blind to the event queue when it neither reads nor
    writes [pending]: run with another queue installed, it does the same and
    leaves that queue in place. *)
Definition pending_blind {A : Type} (c : M A) : Prop :=
  forall (q : list SDL_Event) (w : world),
    c (set_pending q w) = (let (o, w') := c w in (o, set_pending q w')).

(** A computation emits only [P]-calls when every call it adds to the trace
    satisfies [P], however it ends. *)
Definition emits {A : Type} (P : action -> Prop) (c : M A) : Prop :=
  forall (w : world) (o : outcome A) (w' : world),
    c w = (o, w') ->
    exists added, trace w' = trace w ++ added /\ Forall P added.

(** Calls by kind. *)
Definition wheel_free (a : action) : Prop :=
  match a with
  | vm_send_mouse_event _ _ dz _ => dz = 0
  | _ => True
  end.

Definition is_guest_input (a : action) : Prop :=
  match a with
  | vm_send_key_event _ _ | vm_send_mouse_event _ _ _ _ => True
  | _ => False
  end.

(** What the keyboard and pointer handlers may call: the guest's input
    interface, and pointer events only with wheel delta 0. *)
Definition input_only (a : action) : Prop := is_guest_input a /\ wheel_free a.

Definition is_resource_call (a : action) : Prop :=
  match a with
  | SDL_FreeSurface _ | SDL_CreateRGBSurfaceFrom _ _ _ _ _ _ _ _ _
  | SDL_CreateRenderer | SDL_CreateTextureFromSurface _ _
  | fprintf_stderr _ => True
  | _ => False
  end.

(** The three calls of [sdl_update] for rectangle [r], with the globals as
    [w] has them and the surface [s]. *)
Definition present_calls (w : world) (s : SDL_Surface) (r : SDL_Rect)
  : list action :=
  [ SDL_UpdateTexture (texture w) r
      (pixels s + pitch s * rect_y r + rect_x r) (pitch s);
    SDL_RenderCopy (renderer w) (texture w);
    SDL_RenderPresent (renderer w) ].

(** A guest that changes resolution between two ticks: the framebuffer
    device as the first tick finds it (640x480), as the second finds it
    (800x600), and a world in which SDL grants every creation, handing out
    the objects 1, 2, 3, ... *)
Definition fb_640x480 : FBDevice :=
  {| width := 640; height := 480; stride := 2560; fb_data := 4096;
     dirty := [] |}.

Definition fb_800x600 : FBDevice :=
  {| width := 800; height := 600; stride := 3200; fb_data := 4096;
     dirty := [] |}.

Definition resize_world : world :=
  set_fresh [Some 1; Some 2; Some 3; Some 4; Some 5; Some 6]
    (initial_world 640 480).

(** ** What the guest has been told about a key *)

(** The guest's view of keycode [k] after the calls [tr]: down when the
    last key event sent for [k] was a press, up when it was a release or
    when none was ever sent. *)
Definition key_state_after (tr : list action) (k : Z) : bool :=
  foldl (fun st a =>
           match a with
           | vm_send_key_event is_down keycode =>
               if keycode =? k then is_down else st
           | _ => st
           end) false tr.

(** [key_pressed] agrees with the guest's view on every keycode it has an
    entry for, and the guest sees keycode 0 and the two lock keycodes up. *)
Definition tracks (w : world) : Prop :=
  length (key_pressed w) = Z.to_nat NR_KEYS
  /\ (forall k : Z, 0 <= k < NR_KEYS ->
        array_get (key_pressed w) k = Some (key_state_after (trace w) k))
  /\ key_state_after (trace w) 0 = false
  /\ key_state_after (trace w) 0x3a = false
  /\ key_state_after (trace w) 0x45 = false.

(** A computation keeps the part [f] of the world when, however it ends,
    that part is as it was. *)
Definition keeps {A B : Type} (f : world -> B) (c : M A) : Prop :=
  forall (w : world) (o : outcome A) (w' : world),
    c w = (o, w') -> f w' = f w.

(** Events a tick handles without leaving defined behaviour: key events
    carry a host scancode (not negative). *)
Definition host_event (ev : SDL_Event) : Prop :=
  match ev with
  | SDL_KEYDOWN sc | SDL_KEYUP sc => 0 <= sc
  | _ => True
  end.

(** ** Start-up (sdl.c: [sdl_init], [sdl_hide_cursor], [sdl_sound_init]) *)

Definition SDL_INIT_AUDIO : Z := 0x10.
Definition SDL_INIT_VIDEO : Z := 0x20.
Definition SDL_INIT_NOPARACHUTE : Z := 0x100000.
Definition SDL_WINDOWPOS_CENTERED : Z := 0x2FFF0000.
Definition AUDIO_S16 : Z := 0x8010.
Definition SDL_AUDIO_ALLOW_FREQUENCY_CHANGE : Z := 1.

(** What SDL answers during start-up: the status of [SDL_Init] (0 on
    success), the window and the cursor it creates (or NULL), the audio
    device it opens (0 on failure) and the sample rate it grants. *)
Record sdl_host := {
  init_status : Z;
  new_window : option Z;
  new_cursor : option Z;
  new_device : Z;
  obtained_freq : Z
}.

(** The calls made during start-up. *)
Inductive init_call : Type :=
| SDL_Init (flags : Z)
| SDL_CreateWindow (title : string) (x y w h flags : Z)
| SDL_CreateCursor (w h hot_x hot_y : Z)
| SDL_ShowCursor (toggle : Z)
| SDL_SetCursor (cursor : option Z)
| SDL_OpenAudioDevice (freq format channels samples allowed_changes : Z)
| SDL_PauseAudioDevice (device pause_on : Z)
| init_stderr (msg : string).

(** The whole process: the globals the ticks use, the tone generator's
    variables, the three globals only start-up writes, and the start-up
    calls made so far. *)
Record process := {
  globals : world;
  tone_state : tone;
  window : option Z;
  sdl_cursor_hidden : option Z;
  dev : Z;
  init_calls : list init_call
}.

(** The process as it starts: static storage is zeroed. *)
Definition process_start : process :=
  {| globals := initial_world 0 0;
     tone_state := {| beepfreq := 0; v := 0%float; have_freq := 0 |};
     window := None; sdl_cursor_hidden := None; dev := 0;
     init_calls := [] |}.

Definition set_screen_size (sw sh : Z) (w : world) : world :=
  {| fb_surface := fb_surface w; screen_width := sw;
     screen_height := sh; fb_width := fb_width w;
     fb_height := fb_height w; fb_stride := fb_stride w;
     key_pressed := key_pressed w; texture := texture w;
     renderer := renderer w; pending := pending w; live := live w;
     fresh := fresh w; trace := trace w |}.

Definition init_call_made (c : init_call) (p : process) : process :=
  {| globals := globals p; tone_state := tone_state p; window := window p;
     sdl_cursor_hidden := sdl_cursor_hidden p; dev := dev p;
     init_calls := init_calls p ++ [c] |}.

Definition sdl_hide_cursor (host : sdl_host) (p : process) : process :=
  let p := init_call_made (SDL_CreateCursor 8 1 0 0) p in
  let p := {| globals := globals p; tone_state := tone_state p;
              window := window p; sdl_cursor_hidden := new_cursor host;
              dev := dev p; init_calls := init_calls p |} in
  let p := init_call_made (SDL_ShowCursor 1) p in
  init_call_made (SDL_SetCursor (sdl_cursor_hidden p)) p.

Definition sdl_sound_init (sample_rate : Z) (host : sdl_host) (p : process)
  : outcome Z * process :=
  let p := init_call_made
             (SDL_OpenAudioDevice sample_rate AUDIO_S16 1 4096
                SDL_AUDIO_ALLOW_FREQUENCY_CHANGE) p in
  let p := {| globals := globals p;
              tone_state :=
                if new_device host =? 0 then tone_state p
                else {| beepfreq := beepfreq (tone_state p);
                        v := v (tone_state p);
                        have_freq := obtained_freq host |};
              window := window p; sdl_cursor_hidden := sdl_cursor_hidden p;
              dev := new_device host; init_calls := init_calls p |} in
  if dev p =? 0 then
    (Exit 1, init_call_made (init_stderr "initialize open audio device") p)
  else
    (Ret 0, init_call_made (SDL_PauseAudioDevice (dev p) 0) p).

Definition sdl_init (width height : Z) (host : sdl_host) (p : process)
  : outcome unit * process :=
  let p := {| globals := set_screen_size width height (globals p);
              tone_state := tone_state p; window := window p;
              sdl_cursor_hidden := sdl_cursor_hidden p; dev := dev p;
              init_calls := init_calls p |} in
  let p := init_call_made
             (SDL_Init (Z.lor (Z.lor SDL_INIT_VIDEO SDL_INIT_AUDIO)
                          SDL_INIT_NOPARACHUTE)) p in
  if negb (init_status host =? 0) then
    (Exit 1,
     init_call_made (init_stderr "Could not initialize SDL - exiting") p)
  else
    let p := init_call_made
               (SDL_CreateWindow "TinyEMU" SDL_WINDOWPOS_CENTERED
                  SDL_WINDOWPOS_CENTERED width height 0) p in
    let p := {| globals := globals p; tone_state := tone_state p;
                window := new_window host;
                sdl_cursor_hidden := sdl_cursor_hidden p; dev := dev p;
                init_calls := init_calls p |} in
    match window p with
    | None =>
        (Exit 1, init_call_made (init_stderr "Could not open SDL display") p)
    | Some _ =>
        let p := sdl_hide_cursor host p in
        match sdl_sound_init SAMPLERATE host p with
        | (Ret _, p) => (Ret tt, p)
        | (Exit n, p) => (Exit n, p)
        | (Undef, p) => (Undef, p)
        end
    end.

(** Both [i] and [j] are among the scancodes [g]. *)
Definition in_group (g : list Z) (i j : Z) : bool :=
  existsb (Z.eqb i) g && existsb (Z.eqb j) g.

(** [f a b] holds of all [a] and [b] of [l]. *)
Definition all_pairs {A : Type} (f : A -> A -> bool) (l : list A) : bool :=
  forallb (fun a => forallb (f a) l) l.

(** The table's entries for the scancodes 0 .. 230, each with its
    scancode. *)
Definition keymap_rows : list (Z * Z) :=
  map (fun sc => (sc, designated keymap_init (Z.to_nat sc) 0)) (seqZ 0 231).

(** Calls that tell the guest nothing about a key. *)
Definition no_key_event (a : action) : Prop :=
  match a with
  | vm_send_key_event _ _ => False
  | _ => True
  end.

(** The stored window size, which the pointer scaling divides by. *)
Definition screen_size (w : world) : Z * Z := (screen_width w, screen_height w).

(** A world in which a tick stays within defined behaviour for machine
    [m]: [key_pressed] is well formed and, if the pointer is absolute, the
    stored window size is positive. *)
Definition tick_safe (m : VirtMachine) (w : world) : Prop :=
  key_pressed_ok w
  /\ (mouse_is_absolute m = true -> 0 < screen_width w /\ 0 < screen_height w).

(** The surface in place, if any, was made with the cached stride. *)
Definition surface_fits (w : world) : Prop :=
  forall s, fb_surface w = Some s -> pitch s = fb_stride w.

(** A texture update, if that is what [a] is, copies rows [st] bytes apart. *)
Definition updates_at_stride (st : Z) (a : action) : Prop :=
  match a with
  | SDL_UpdateTexture _ _ _ p => p = st
  | _ => True
  end.

(** * Properties *)

(** ** Arrays and the scancode table *)

Lemma array_get_Some {A : Type} (a : list A) (i : Z) (x : A) :
  array_get a i = Some x <-> 0 <= i /\ a !! Z.to_nat i = Some x.
Proof.
  unfold array_get. destruct (Z.ltb_spec i 0); split.
  - discriminate.
  - intros [? _]; lia.
  - auto.
  - tauto.
Qed.

Lemma array_get_in_range {A : Type} (a : list A) (i : Z) :
  0 <= i < Z.of_nat (length a) -> exists x, array_get a i = Some x.
Proof.
  intros Hi. destruct (lookup_lt_is_Some_2 a (Z.to_nat i)) as [x Hx]; [lia|].
  exists x. apply array_get_Some. split; [lia | exact Hx].
Qed.

Lemma array_set_in_range {A : Type} (a : list A) (i : Z) (x : A) :
  0 <= i < Z.of_nat (length a) ->
  array_set a i x = Some (<[Z.to_nat i := x]> a).
Proof.
  intros Hi. unfold array_set.
  destruct (Z.leb_spec 0 i); [|lia].
  destruct (Z.ltb_spec i (Z.of_nat (length a))); [reflexivity | lia].
Qed.

Lemma array_init_length (n : nat) (inits : list (Z * Z)) :
  length (array_init n inits) = n.
Proof.
  unfold array_init. rewrite <- (length_replicate n 0) at 2.
  generalize (replicate n 0). induction inits as [|[j x] rest IH]; intros a.
  - reflexivity.
  - simpl. rewrite IH. apply length_insert.
Qed.

(** Reading an initialised array gives the designated value. *)
Lemma foldl_insert_lookup (inits : list (Z * Z)) :
  forall (a : list Z) (i : nat) (d : Z),
    a !! i = Some d ->
    foldl (fun a iv => <[Z.to_nat iv.1 := iv.2]> a) a inits !! i
    = Some (designated inits i d).
Proof.
  induction inits as [|[j x] rest IH]; intros a i d Ha; simpl.
  - exact Ha.
  - apply IH. destruct (Nat.eqb_spec (Z.to_nat j) i) as [->|Hne].
    + apply list_lookup_insert_eq. eapply lookup_lt_Some; eauto.
    + rewrite list_lookup_insert_ne; auto.
Qed.

Lemma array_init_lookup (n : nat) (inits : list (Z * Z)) (i : nat) :
  (i < n)%nat -> array_init n inits !! i = Some (designated inits i 0).
Proof.
  intros Hi. apply foldl_insert_lookup. apply lookup_replicate_2, Hi.
Qed.

Lemma designated_nonneg (inits : list (Z * Z)) :
  Forall (fun iv => 0 <= iv.2) inits ->
  forall (i : nat) (d : Z), 0 <= d -> 0 <= designated inits i d.
Proof.
  induction 1 as [|[j x] rest Hx _ IH]; intros i d Hd; simpl.
  - exact Hd.
  - apply IH. destruct (Nat.eqb (Z.to_nat j) i); [exact Hx | exact Hd].
Qed.

Lemma keymap_init_nonneg : Forall (fun iv => 0 <= iv.2) keymap_init.
Proof.
  unfold keymap_init. repeat (constructor; [cbv; discriminate|]). constructor.
Qed.

Lemma keymap_length : length keymap = Z.to_nat NR_KEYS.
Proof. apply array_init_length. Qed.

Lemma keymap_lookup (i : Z) :
  0 <= i < NR_KEYS ->
  array_get keymap i = Some (designated keymap_init (Z.to_nat i) 0).
Proof.
  intros Hi. apply array_get_Some. split; [lia|].
  apply array_init_lookup. lia.
Qed.

Lemma sdl_get_keycode_value (ev : SDL_KeyboardEvent) :
  0 <= key_scancode ev ->
  sdl_get_keycode ev
  = Some (if key_scancode ev <? NR_KEYS
          then designated keymap_init (Z.to_nat (key_scancode ev)) 0
          else 0).
Proof.
  intros H0. unfold sdl_get_keycode.
  destruct (Z.ltb_spec (key_scancode ev) NR_KEYS); [|reflexivity].
  apply keymap_lookup. lia.
Qed.

Lemma sdl_get_keycode_nonneg (ev : SDL_KeyboardEvent) (keycode : Z) :
  sdl_get_keycode ev = Some keycode -> 0 <= keycode.
Proof.
  unfold sdl_get_keycode.
  destruct (Z.ltb_spec (key_scancode ev) NR_KEYS) as [Hlt|Hge].
  - intros Hget.
    assert (H0 : 0 <= key_scancode ev)
      by (apply array_get_Some in Hget; tauto).
    rewrite keymap_lookup in Hget by lia.
    pose proof (designated_nonneg keymap_init keymap_init_nonneg
                  (Z.to_nat (key_scancode ev)) 0 (Z.le_refl 0)) as Hd.
    congruence.
  - intros [= <-]. lia.
Qed.

(** C3. Translation of a host scancode (an [SDL_Scancode] enumerator, so
    not negative) always yields a keycode and never reads outside [keymap]:
    at or beyond [NR_KEYS] the result is 0 and the table is not read; below
    [NR_KEYS] the read is inside the table and the result is the table's
    entry, which is the value the initializer designates for that index;
    and equal scancodes translate to equal keycodes. *)
Theorem sdl_get_keycode_total_safe (ev : SDL_KeyboardEvent) :
  0 <= key_scancode ev ->
  (NR_KEYS <= key_scancode ev -> sdl_get_keycode ev = Some 0)
  /\ (key_scancode ev < NR_KEYS ->
      (Z.to_nat (key_scancode ev) < length keymap)%nat
      /\ sdl_get_keycode ev = array_get keymap (key_scancode ev)
      /\ sdl_get_keycode ev
         = Some (designated keymap_init (Z.to_nat (key_scancode ev)) 0))
  /\ (exists keycode, sdl_get_keycode ev = Some keycode)
  /\ (forall ev', key_scancode ev' = key_scancode ev ->
                  sdl_get_keycode ev' = sdl_get_keycode ev).
Proof.
  intros H0. pose proof (sdl_get_keycode_value ev H0) as Hv.
  split; [|split; [|split]].
  - intros Hge. rewrite Hv.
    destruct (Z.ltb_spec (key_scancode ev) NR_KEYS); [lia | reflexivity].
  - intros Hlt. split; [rewrite keymap_length; lia|]. split.
    + rewrite keymap_lookup by lia. rewrite Hv.
      destruct (Z.ltb_spec (key_scancode ev) NR_KEYS); [reflexivity | lia].
    + rewrite Hv.
      destruct (Z.ltb_spec (key_scancode ev) NR_KEYS); [reflexivity | lia].
  - eexists. exact Hv.
  - intros ev' Heq. unfold sdl_get_keycode. rewrite Heq. reflexivity.
Qed.

(** C4. With the table large enough to hold its initializers, the three
    backslash scancodes (BACKSLASH, NONUSHASH, NONUSBACKSLASH) all hold
    KEY_BACKSLASH, the two keypad-equals scancodes (KP_EQUALS,
    KP_EQUALSAS400) both hold KEY_KPEQUAL, and the two enter scancodes
    (RETURN, RETURN2) both hold KEY_ENTER. *)
Theorem keymap_collapses :
  SDL_SCANCODE_RALT < NR_KEYS ->
  array_get keymap SDL_SCANCODE_BACKSLASH = Some KEY_BACKSLASH
  /\ array_get keymap SDL_SCANCODE_NONUSHASH = Some KEY_BACKSLASH
  /\ array_get keymap SDL_SCANCODE_NONUSBACKSLASH = Some KEY_BACKSLASH
  /\ array_get keymap SDL_SCANCODE_KP_EQUALS = Some KEY_KPEQUAL
  /\ array_get keymap SDL_SCANCODE_KP_EQUALSAS400 = Some KEY_KPEQUAL
  /\ array_get keymap SDL_SCANCODE_RETURN = Some KEY_ENTER
  /\ array_get keymap SDL_SCANCODE_RETURN2 = Some KEY_ENTER.
Proof.
  intros Hsize.
  unfold SDL_SCANCODE_RALT, SDL_SCANCODE_BACKSLASH, SDL_SCANCODE_NONUSHASH,
    SDL_SCANCODE_NONUSBACKSLASH, SDL_SCANCODE_KP_EQUALS,
    SDL_SCANCODE_KP_EQUALSAS400, SDL_SCANCODE_RETURN, SDL_SCANCODE_RETURN2
    in *.
  repeat split; rewrite keymap_lookup by lia; reflexivity.
Qed.

(** ** The world under the monad *)

Lemma set_trace_trace (w : world) : set_trace (trace w) w = w.
Proof. destruct w; reflexivity. Qed.

Lemma set_trace_twice (t t' : list action) (w : world) :
  set_trace t (set_trace t' w) = set_trace t w.
Proof. reflexivity. Qed.

Lemma call_call (a b : action) (w : world) :
  (call a ;; call b) w = (Ret tt, set_trace (trace w ++ [a; b]) w).
Proof.
  unfold bind, call, modify. simpl. rewrite <- app_assoc. reflexivity.
Qed.

Lemma bind_Ret {A B : Type} (c : M A) (k : A -> M B) (w w' : world) (a : A) :
  c w = (Ret a, w') -> (let* x := c in k x) w = k a w'.
Proof. intros H. unfold bind. rewrite H. reflexivity. Qed.

Lemma bind_Exit {A B : Type} (c : M A) (k : A -> M B) (w w' : world) (n : Z) :
  c w = (Exit n, w') -> (let* x := c in k x) w = (Exit n, w').
Proof. intros H. unfold bind. rewrite H. reflexivity. Qed.

(** ** Keyboard *)

Lemma released_insert_before (kp : list bool) (j : nat) (b : bool) (n : nat) :
  forall i : Z, Z.of_nat j < i ->
    released (<[j := b]> kp) i n = released kp i n.
Proof.
  induction n as [|n IH]; intros i Hi; simpl; [reflexivity|].
  rewrite IH by lia. f_equal.
  unfold array_get. destruct (Z.ltb_spec i 0); [reflexivity|].
  rewrite list_lookup_insert_ne by lia. reflexivity.
Qed.

Lemma released_In (kp : list bool) (n : nat) :
  forall (i k : Z),
    In k (released kp i n)
    <-> i <= k < i + Z.of_nat n /\ array_get kp k = Some true.
Proof.
  induction n as [|n IH]; intros i k; simpl.
  - split; [tauto | lia].
  - rewrite in_app_iff, IH. destruct (decide (array_get kp i = Some true)) as [Hp|Hp].
    + simpl. split.
      * intros [[<-|[]]|[? ?]]; split; auto; lia.
      * intros [Hk Hg]. destruct (decide (k = i)) as [->|]; [left; auto|].
        right. split; [lia | auto].
    + simpl. split.
      * intros [[]|[? ?]]; split; auto; lia.
      * intros [Hk Hg]. destruct (decide (k = i)) as [->|]; [contradiction|].
        right. split; [lia | auto].
Qed.

Lemma released_sorted (kp : list bool) (n : nat) :
  forall i : Z, StronglySorted Z.lt (released kp i n).
Proof.
  induction n as [|n IH]; intros i; simpl; [constructor|].
  destruct (decide (array_get kp i = Some true)); simpl; [|apply IH].
  constructor; [apply IH|].
  apply Forall_forall. intros k Hk.
  apply list_elem_of_In, released_In in Hk. lia.
Qed.

Lemma cleared_length (n : nat) :
  forall (kp : list bool) (i : nat), length (cleared kp i n) = length kp.
Proof.
  induction n as [|n IH]; intros kp i; simpl; [reflexivity|].
  rewrite IH. apply length_insert.
Qed.

Lemma cleared_lookup (n : nat) :
  forall (kp : list bool) (i k : nat),
    cleared kp i n !! k
    = if decide (i <= k < i + n)%nat then (fun _ => false) <$> kp !! k
      else kp !! k.
Proof.
  induction n as [|n IH]; intros kp i k; simpl.
  - destruct (decide (i <= k < i + 0)%nat); [lia | reflexivity].
  - rewrite IH. destruct (decide (k = i)) as [->|Hne].
    + destruct (decide (S i <= i < S i + n)%nat); [lia|].
      destruct (decide (i <= i < i + S n)%nat); [|lia].
      destruct (kp !! i) as [b|] eqn:Hb.
      * rewrite list_lookup_insert_eq by (eapply lookup_lt_Some; eauto).
        reflexivity.
      * rewrite list_insert_ge by (apply lookup_ge_None; auto).
        rewrite Hb. reflexivity.
    + rewrite list_lookup_insert_ne by auto.
      destruct (decide (S i <= k < S i + n)%nat);
        destruct (decide (i <= k < i + S n)%nat); try lia; reflexivity.
Qed.

Lemma cleared_all (kp : list bool) :
  kp !! 0%nat <> Some true ->
  cleared kp 1 (length kp - 1) = replicate (length kp) false.
Proof.
  intros H0. apply list_eq. intros k. rewrite cleared_lookup.
  destruct (decide (k < length kp)%nat) as [Hk|Hk].
  - rewrite (lookup_replicate_2 (length kp) false k Hk).
    destruct (lookup_lt_is_Some_2 kp k Hk) as [b Hb]. rewrite Hb.
    destruct (decide (1 <= k < 1 + (length kp - 1))%nat); [reflexivity|].
    assert (k = 0%nat) as -> by lia.
    destruct b; [congruence | reflexivity].
  - rewrite (proj2 (lookup_ge_None kp k)) by lia.
    rewrite (proj2 (lookup_ge_None _ k))
      by (rewrite length_replicate; lia).
    destruct (decide (1 <= k < 1 + (length kp - 1))%nat); reflexivity.
Qed.

(** The loop of [sdl_reset_keys], inside the array: it returns, sends the
    releases [released] lists and leaves [cleared] in [key_pressed]. *)
Lemma reset_keys_from_spec (n : nat) :
  forall (i : Z) (w : world),
    0 <= i ->
    n = 0%nat \/ i + Z.of_nat n <= Z.of_nat (length (key_pressed w)) ->
    reset_keys_from n i w
    = (Ret tt,
       set_key_pressed (cleared (key_pressed w) (Z.to_nat i) n)
         (set_trace
            (trace w ++ map (vm_send_key_event false)
                          (released (key_pressed w) i n)) w)).
Proof.
  induction n as [|n IH]; intros i w Hi Hn; simpl.
  - rewrite app_nil_r. destruct w; reflexivity.
  - destruct Hn as [|Hn]; [discriminate|].
    destruct (array_get_in_range (key_pressed w) i) as [p Hp]; [lia|].
    unfold bind at 1. unfold get at 1. unfold bind at 1. rewrite Hp.
    unfold defined at 1, ret at 1.
    assert (Hp' := Hp). apply array_get_Some in Hp' as [_ Hl].
    replace (Z.to_nat (i + 1)) with (S (Z.to_nat i)) in IH by lia.
    destruct p.
    + rewrite array_set_in_range by lia.
      unfold bind, call, modify, defined, ret. simpl.
      unfold bind in IH. rewrite IH; [|lia|right; simpl; rewrite length_insert; lia].
      destruct (decide (array_get (key_pressed w) i = Some true)); [|congruence].
      destruct w; simpl in *.
      rewrite released_insert_before by lia.
      rewrite <- app_assoc. replace (Z.to_nat (i + 1)) with (S (Z.to_nat i)) by lia.
      reflexivity.
    + unfold bind, ret. unfold bind in IH. rewrite IH; [|lia|right; lia].
      destruct (decide (array_get (key_pressed w) i = Some true)); [congruence|].
      rewrite (list_insert_id _ _ _ Hl).
      replace (Z.to_nat (i + 1)) with (S (Z.to_nat i)) by lia. reflexivity.
Qed.

Lemma sdl_reset_keys_spec (w : world) :
  key_pressed_ok w ->
  sdl_reset_keys w
  = (Ret tt,
     set_key_pressed (replicate (Z.to_nat NR_KEYS) false)
       (set_trace
          (trace w ++ map (vm_send_key_event false)
                        (released (key_pressed w) 1 (Z.to_nat (NR_KEYS - 1))))
          w)).
Proof.
  intros [Hlen H0]. unfold sdl_reset_keys.
  rewrite reset_keys_from_spec by lia.
  replace (Z.to_nat (NR_KEYS - 1)) with (length (key_pressed w) - 1)%nat by lia.
  change (Z.to_nat 1) with 1%nat. rewrite cleared_all by exact H0.
  rewrite Hlen. reflexivity.
Qed.

Lemma sdl_handle_key_event_unmapped (ev : SDL_KeyboardEvent) (w : world) :
  sdl_get_keycode ev = Some 0 ->
  sdl_handle_key_event ev w
  = if key_down ev then (Ret tt, w) else sdl_reset_keys w.
Proof.
  intros Hk. unfold sdl_handle_key_event, bind at 1. rewrite Hk. simpl.
  destruct (key_down ev); reflexivity.
Qed.

Lemma sdl_handle_key_event_lock (ev : SDL_KeyboardEvent) (keycode : Z) (w : world) :
  sdl_get_keycode ev = Some keycode ->
  keycode = 0x3a \/ keycode = 0x45 ->
  sdl_handle_key_event ev w
  = (Ret tt,
     set_trace (trace w ++ [vm_send_key_event true keycode;
                            vm_send_key_event false keycode]) w).
Proof.
  intros Hk Hlock. unfold sdl_handle_key_event, bind at 1. rewrite Hk.
  unfold defined, ret.
  destruct Hlock as [-> | ->]; simpl; apply call_call.
Qed.

Lemma sdl_handle_key_event_plain (ev : SDL_KeyboardEvent) (keycode : Z) (w : world) :
  sdl_get_keycode ev = Some keycode ->
  keycode <> 0 -> keycode <> 0x3a -> keycode <> 0x45 ->
  length (key_pressed w) = Z.to_nat NR_KEYS ->
  sdl_handle_key_event ev w
  = (Ret tt,
     set_trace (trace w ++ [vm_send_key_event (key_down ev) keycode])
       (if keycode <? NR_KEYS
        then set_key_pressed
               (<[Z.to_nat keycode := key_down ev]> (key_pressed w)) w
        else w)).
Proof.
  intros Hk H0 Hcaps Hnum Hlen.
  pose proof (sdl_get_keycode_nonneg ev keycode Hk) as Hnn.
  unfold sdl_handle_key_event, bind at 1. rewrite Hk. unfold defined, ret.
  destruct (Z.eqb_spec keycode 0); [contradiction|].
  destruct (Z.eqb_spec keycode 0x3a); [contradiction|].
  destruct (Z.eqb_spec keycode 0x45); [contradiction|]. simpl.
  destruct (Z.ltb_spec keycode NR_KEYS).
  - unfold bind, get. rewrite array_set_in_range by lia. reflexivity.
  - reflexivity.
Qed.

(** The dispatcher keeps [key_pressed] well formed. *)
Lemma sdl_handle_key_event_ok (ev : SDL_KeyboardEvent) (w w' : world) :
  key_pressed_ok w ->
  sdl_handle_key_event ev w = (Ret tt, w') ->
  key_pressed_ok w'.
Proof.
  intros Hok. unfold sdl_handle_key_event at 1, bind at 1.
  destruct (sdl_get_keycode ev) as [keycode|] eqn:Hk;
    [|unfold defined, undefined; discriminate].
  change (defined (Some keycode) w) with (Ret keycode, w). cbv beta iota.
  intros Hrun.
  assert (Hrun' : sdl_handle_key_event ev w = (Ret tt, w')).
  { unfold sdl_handle_key_event, bind at 1. rewrite Hk. exact Hrun. }
  clear Hrun. destruct Hok as [Hlen H0].
  destruct (decide (keycode = 0)) as [->|Hne0].
  - rewrite sdl_handle_key_event_unmapped in Hrun' by exact Hk.
    destruct (key_down ev).
    + injection Hrun' as <-. split; assumption.
    + rewrite sdl_reset_keys_spec in Hrun' by (split; assumption).
      injection Hrun' as <-. split; simpl.
      * apply length_replicate.
      * destruct (Z.to_nat NR_KEYS); simpl; discriminate.
  - destruct (decide (keycode = 0x3a \/ keycode = 0x45)) as [Hlock|Hnl].
    + rewrite (sdl_handle_key_event_lock ev keycode w Hk Hlock) in Hrun'.
      injection Hrun' as <-. split; assumption.
    + rewrite (sdl_handle_key_event_plain ev keycode w Hk) in Hrun'
        by (auto; tauto).
      pose proof (sdl_get_keycode_nonneg ev keycode Hk) as Hnn.
      injection Hrun' as <-.
      destruct (keycode <? NR_KEYS); [|split; assumption].
      split; simpl; [rewrite length_insert; exact Hlen|].
      rewrite list_lookup_insert_ne by lia. exact H0.
Qed.

Lemma for_each_key_events_ok (evs : list SDL_KeyboardEvent) :
  forall w w' : world,
    key_pressed_ok w ->
    for_each sdl_handle_key_event evs w = (Ret tt, w') ->
    key_pressed_ok w'.
Proof.
  induction evs as [|ev evs IH]; intros w w' Hok; simpl.
  - intros [= <-]. exact Hok.
  - unfold bind.
    destruct (sdl_handle_key_event ev w) as [[[]| |] w1] eqn:Hev;
      try discriminate.
    apply IH. eapply sdl_handle_key_event_ok; eauto.
Qed.

(** On host scancodes the dispatcher always returns. *)
Lemma sdl_handle_key_event_returns (ev : SDL_KeyboardEvent) (w : world) :
  0 <= key_scancode ev -> key_pressed_ok w ->
  exists w', sdl_handle_key_event ev w = (Ret tt, w').
Proof.
  intros Hsc Hok. pose proof (sdl_get_keycode_value ev Hsc) as Hk.
  set (keycode := if key_scancode ev <? NR_KEYS
                  then designated keymap_init (Z.to_nat (key_scancode ev)) 0
                  else 0) in Hk.
  destruct (decide (keycode = 0)) as [H0|H0].
  - rewrite H0 in Hk. rewrite (sdl_handle_key_event_unmapped ev w Hk).
    destruct (key_down ev); [eauto|].
    rewrite (sdl_reset_keys_spec w Hok). eauto.
  - destruct (decide (keycode = 0x3a \/ keycode = 0x45)) as [Hlock|Hnl].
    + rewrite (sdl_handle_key_event_lock ev keycode w Hk Hlock). eauto.
    + rewrite (sdl_handle_key_event_plain ev keycode w Hk)
        by (auto; tauto || apply Hok). eauto.
Qed.

Lemma for_each_key_events_return (evs : list SDL_KeyboardEvent) :
  forall w : world,
    Forall (fun ev => 0 <= key_scancode ev) evs -> key_pressed_ok w ->
    exists w', for_each sdl_handle_key_event evs w = (Ret tt, w').
Proof.
  induction evs as [|ev evs IH]; intros w Hsc Hok; simpl.
  - eauto.
  - apply Forall_cons in Hsc as [Hev Hsc].
    destruct (sdl_handle_key_event_returns ev w Hev Hok) as [w1 H1].
    rewrite (bind_Ret _ _ _ _ _ H1). apply IH; [exact Hsc|].
    eapply sdl_handle_key_event_ok; eauto.
Qed.

Lemma initial_key_pressed_ok (w : world) :
  key_pressed w = replicate (Z.to_nat NR_KEYS) false -> key_pressed_ok w.
Proof.
  intros Hkp. split; rewrite Hkp.
  - apply length_replicate.
  - destruct (Z.to_nat NR_KEYS); simpl; discriminate.
Qed.

(** C1. Start with no key marked pressed and let the dispatcher handle any
    keyboard events (key-downs in particular), reaching [w].  A key release
    whose scancode is unmapped then returns after sending one release per
    keycode marked pressed in [w], in strictly ascending keycode order and
    nothing else, and leaves every entry of [key_pressed] false; a key press
    whose scancode is unmapped returns with the world as it was. *)
Theorem unmapped_key_resets (w0 w : world) (evs : list SDL_KeyboardEvent)
    (ev : SDL_KeyboardEvent) :
  key_pressed w0 = replicate (Z.to_nat NR_KEYS) false ->
  for_each sdl_handle_key_event evs w0 = (Ret tt, w) ->
  sdl_get_keycode ev = Some 0 ->
  (key_down ev = false ->
   exists ks : list Z,
     sdl_handle_key_event ev w
     = (Ret tt,
        set_key_pressed (replicate (Z.to_nat NR_KEYS) false)
          (set_trace (trace w ++ map (vm_send_key_event false) ks) w))
     /\ StronglySorted Z.lt ks
     /\ (forall k : Z, In k ks <-> array_get (key_pressed w) k = Some true))
  /\ (key_down ev = true -> sdl_handle_key_event ev w = (Ret tt, w)).
Proof.
  intros Hinit Hrun Hk.
  assert (Hok : key_pressed_ok w).
  { eapply for_each_key_events_ok; [|exact Hrun].
    apply initial_key_pressed_ok, Hinit. }
  rewrite sdl_handle_key_event_unmapped by exact Hk. split; intros ->.
  - exists (released (key_pressed w) 1 (Z.to_nat (NR_KEYS - 1))).
    split; [apply sdl_reset_keys_spec, Hok|].
    split; [apply released_sorted|].
    intros k. rewrite released_In. destruct Hok as [Hlen H0]. split; [tauto|].
    intros Hg. split; [|exact Hg].
    apply array_get_Some in Hg as [Hk0 Hl].
    pose proof (lookup_lt_Some _ _ _ Hl) as Hlt.
    destruct (decide (k = 0)) as [->|]; [contradiction|]. lia.
  - reflexivity.
Qed.

(** C2. A keyboard event whose scancode translates to the guest Caps Lock
    or Num Lock keycode makes the dispatcher send a key-down and then a
    key-up for that keycode and nothing else, whether the host event is a
    press or a release; [key_pressed] is left as it was. *)
Theorem lock_keys_press_release (ev : SDL_KeyboardEvent) (keycode : Z)
    (w : world) :
  sdl_get_keycode ev = Some keycode ->
  keycode = KEY_CAPSLOCK \/ keycode = KEY_NUMLOCK ->
  sdl_handle_key_event ev w
  = (Ret tt,
     set_trace (trace w ++ [vm_send_key_event true keycode;
                            vm_send_key_event false keycode]) w)
  /\ key_pressed
       (set_trace (trace w ++ [vm_send_key_event true keycode;
                               vm_send_key_event false keycode]) w)
     = key_pressed w.
Proof.
  intros Hk Hlock. split; [|reflexivity].
  apply sdl_handle_key_event_lock; assumption.
Qed.

(** ** Pointer *)

Lemma wrap_int_small (z : Z) : INT_MIN <= z <= INT_MAX -> wrap_int z = z.
Proof.
  unfold INT_MIN, INT_MAX, wrap_int. intros Hz.
  rewrite Z.mod_small by lia. lia.
Qed.

Lemma int_div_pos (a b : Z) : 0 < b -> int_div a b = Some (a ÷ b).
Proof.
  intros Hb. unfold int_div.
  destruct (Z.eqb_spec b 0); [lia|].
  destruct (Z.eqb_spec b (-1)); [lia|].
  rewrite andb_false_r. reflexivity.
Qed.

Lemma scale_coordinate (x1 W : Z) :
  0 < W -> - 65536 <= x1 < 65536 ->
  int_div (int_mul x1 32768) W = Some (x1 * 32768 ÷ W).
Proof.
  intros HW Hx. unfold int_mul.
  rewrite wrap_int_small by (unfold INT_MIN, INT_MAX; lia).
  apply int_div_pos, HW.
Qed.

Lemma scale_inside (x1 W : Z) :
  0 <= x1 < W -> 0 <= x1 * 32768 ÷ W <= 32767.
Proof.
  intros Hx. rewrite Z.quot_div_nonneg by lia. split.
  - apply Z.div_pos; lia.
  - assert (x1 * 32768 / W < 32768); [|lia].
    apply Z.div_lt_upper_bound; lia.
Qed.

(** C5. In absolute mode, with a window of positive size and a coordinate
    whose product with 32768 fits an [int], a motion event at window pixel
    (x1, y1) is delivered to the guest as (x1*32768/W, y1*32768/H), the
    division truncating; so pixel (0,0) is delivered as (0,0), pixel (W,H)
    as (32768,32768), and a coordinate inside the window lands in 0..32767.
    In relative mode the event's raw deltas are delivered as they are. *)
Theorem mouse_motion_scaling (m : VirtMachine) (w : world)
    (state x1 y1 xrel yrel : Z) :
  (mouse_is_absolute m = true ->
   0 < screen_width w -> 0 < screen_height w ->
   - 65536 <= x1 < 65536 -> - 65536 <= y1 < 65536 ->
   sdl_handle_mouse_motion_event state x1 y1 xrel yrel m w
   = (Ret tt,
      set_trace
        (trace w ++ [vm_send_mouse_event (x1 * 32768 ÷ screen_width w)
                       (y1 * 32768 ÷ screen_height w) 0 (button_mask state)])
        w)
   /\ (x1 = 0 -> x1 * 32768 ÷ screen_width w = 0)
   /\ (y1 = 0 -> y1 * 32768 ÷ screen_height w = 0)
   /\ (x1 = screen_width w -> x1 * 32768 ÷ screen_width w = 32768)
   /\ (y1 = screen_height w -> y1 * 32768 ÷ screen_height w = 32768)
   /\ (0 <= x1 < screen_width w ->
       0 <= x1 * 32768 ÷ screen_width w <= 32767)
   /\ (0 <= y1 < screen_height w ->
       0 <= y1 * 32768 ÷ screen_height w <= 32767))
  /\ (mouse_is_absolute m = false ->
      sdl_handle_mouse_motion_event state x1 y1 xrel yrel m w
      = (Ret tt,
         set_trace
           (trace w ++ [vm_send_mouse_event xrel yrel 0 (button_mask state)])
           w)).
Proof.
  split.
  - intros Habs HW HH Hx Hy.
    unfold sdl_handle_mouse_motion_event, sdl_send_mouse_event.
    rewrite Habs. unfold bind, get.
    rewrite (scale_coordinate x1 _ HW Hx). cbv [defined ret].
    rewrite (scale_coordinate y1 _ HH Hy).
    split; [reflexivity|].
    split; [intros ->; apply Z.quot_0_l; lia|].
    split; [intros ->; apply Z.quot_0_l; lia|].
    split; [intros ->; rewrite Z.mul_comm; apply Z.quot_mul; lia|].
    split; [intros ->; rewrite Z.mul_comm; apply Z.quot_mul; lia|].
    split; apply scale_inside.
  - intros Hrel.
    unfold sdl_handle_mouse_motion_event, sdl_send_mouse_event.
    rewrite Hrel. reflexivity.
Qed.

(** ** What a computation adds to the trace *)

Section Emits.

Variable P : action -> Prop.

Lemma emits_ret {A : Type} (a : A) : emits P (ret a).
Proof.
  intros w o w' [= <- <-]. exists []. rewrite app_nil_r. auto.
Qed.

Lemma emits_exit {A : Type} (n : Z) : emits P (@exit A n).
Proof.
  intros w o w' [= <- <-]. exists []. rewrite app_nil_r. auto.
Qed.

Lemma emits_undefined {A : Type} : emits P (@undefined A).
Proof.
  intros w o w' [= <- <-]. exists []. rewrite app_nil_r. auto.
Qed.

Lemma emits_defined {A : Type} (x : option A) : emits P (defined x).
Proof. destruct x; [apply emits_ret | apply emits_undefined]. Qed.

Lemma emits_get {A : Type} (f : world -> A) : emits P (get f).
Proof.
  intros w o w' [= <- <-]. exists []. rewrite app_nil_r. auto.
Qed.

Lemma emits_modify (f : world -> world) :
  (forall w, trace (f w) = trace w) -> emits P (modify f).
Proof.
  intros Hf w o w' [= <- <-]. exists []. rewrite app_nil_r, Hf. auto.
Qed.

Lemma emits_call (a : action) : P a -> emits P (call a).
Proof.
  intros Ha w o w' [= <- <-]. exists [a]. simpl. auto.
Qed.

Lemma emits_create (a : action) : P a -> emits P (create a).
Proof.
  intros Ha w o w'. unfold create.
  destruct (fresh (set_trace (trace w ++ [a]) w)) as [|[h|] rest];
    intros [= <- <-]; exists [a]; simpl; auto.
Qed.

Lemma emits_destroy (a : action) (h : Z) : P a -> emits P (destroy a h).
Proof.
  intros Ha w o w' [= <- <-]. exists [a]. simpl. auto.
Qed.

Lemma emits_bind {A B : Type} (c : M A) (k : A -> M B) :
  emits P c -> (forall a, emits P (k a)) -> emits P (bind c k).
Proof.
  intros Hc Hk w o w'. unfold bind.
  destruct (c w) as [[a|n|] w1] eqn:Hcw;
    destruct (Hc _ _ _ Hcw) as (t1 & Ht1 & HP1).
  - intros Hkw. destruct (Hk a _ _ _ Hkw) as (t2 & Ht2 & HP2).
    exists (t1 ++ t2). rewrite Ht2, Ht1, app_assoc.
    split; [reflexivity | apply Forall_app; auto].
  - intros [= <- <-]. eauto.
  - intros [= <- <-]. eauto.
Qed.

Lemma emits_for_each {A : Type} (f : A -> M unit) (l : list A) :
  (forall x, emits P (f x)) -> emits P (for_each f l).
Proof.
  intros Hf. induction l as [|x l IH]; simpl.
  - apply emits_ret.
  - apply emits_bind; auto.
Qed.

End Emits.

Lemma emits_impl {A : Type} (P Q : action -> Prop) (c : M A) :
  (forall a, P a -> Q a) -> emits P c -> emits Q c.
Proof.
  intros HPQ Hc w o w' Hrun. destruct (Hc _ _ _ Hrun) as (t & Ht & HP).
  exists t. split; [exact Ht|]. eapply Forall_impl; eauto.
Qed.

Ltac emits_step :=
  cbv beta zeta;
  first
    [ apply emits_ret | apply emits_exit | apply emits_undefined
    | apply emits_get | apply emits_defined
    | apply emits_call; solve [cbv; auto]
    | apply emits_create; solve [cbv; auto]
    | apply emits_destroy; solve [cbv; auto]
    | apply emits_modify; solve [intros; reflexivity]
    | apply emits_bind; [|intros ?]
    | match goal with
      | |- emits _ (if ?b then _ else _) => destruct b
      | |- emits _ (match ?x with _ => _ end) => destruct x
      end ].

Lemma reset_keys_from_emits (n : nat) :
  forall i : Z, emits input_only (reset_keys_from n i).
Proof.
  induction n as [|n IH]; intros i; simpl.
  - apply emits_ret.
  - apply emits_bind; [apply emits_get | intros kp].
    apply emits_bind; [apply emits_defined | intros p].
    apply emits_bind; [|intros _; apply IH].
    repeat emits_step.
Qed.

Lemma sdl_handle_key_event_emits (ev : SDL_KeyboardEvent) :
  emits input_only (sdl_handle_key_event ev).
Proof.
  unfold sdl_handle_key_event, sdl_reset_keys.
  repeat first [apply reset_keys_from_emits | emits_step].
Qed.

Lemma sdl_handle_mouse_motion_event_emits (state x y xrel yrel : Z)
    (m : VirtMachine) :
  emits input_only (sdl_handle_mouse_motion_event state x y xrel yrel m).
Proof.
  unfold sdl_handle_mouse_motion_event, sdl_send_mouse_event.
  repeat emits_step.
Qed.

Lemma dispatch_emits (m : VirtMachine) (ev : SDL_Event) :
  emits input_only (dispatch m ev).
Proof.
  destruct ev; simpl;
    first [ apply sdl_handle_key_event_emits
          | apply sdl_handle_mouse_motion_event_emits
          | apply emits_ret | apply emits_exit ].
Qed.

Lemma poll_events_emits (m : VirtMachine) (q : list SDL_Event) :
  emits input_only (poll_events m q).
Proof.
  induction q as [|ev q IH]; simpl.
  - apply emits_ret.
  - apply emits_bind; [apply emits_modify; reflexivity|intros _].
    apply emits_bind; [apply dispatch_emits|intros _]. exact IH.
Qed.

Lemma sdl_update_fb_surface_emits (fb : FBDevice) :
  emits is_resource_call (sdl_update_fb_surface fb).
Proof. unfold sdl_update_fb_surface. repeat emits_step. Qed.

Lemma sdl_update_emits (fb : FBDevice) (r : SDL_Rect) :
  emits wheel_free (sdl_update fb r).
Proof. unfold sdl_update. repeat emits_step. Qed.

(** C10. Whatever events are queued and however the tick ends, every
    pointer event [sdl_refresh] sends to the guest has wheel delta 0; a
    host wheel event and a host button event are taken off the queue and
    answered by no call at all. *)
Theorem wheel_delta_always_zero (m : VirtMachine) (w : world) :
  (forall (o : outcome unit) (w' : world),
      sdl_refresh m w = (o, w') ->
      exists added,
        trace w' = trace w ++ added
        /\ forall x y dz buttons,
             In (vm_send_mouse_event x y dz buttons) added -> dz = 0)
  /\ (forall ev,
        (exists wx wy, ev = SDL_MOUSEWHEEL wx wy)
        \/ (exists b, ev = SDL_MOUSEBUTTONDOWN b)
        \/ (exists b, ev = SDL_MOUSEBUTTONUP b) ->
        dispatch m ev w = (Ret tt, w)).
Proof.
  split.
  - assert (He : emits wheel_free (sdl_refresh m)).
    { unfold sdl_refresh, refresh. destruct (fb_dev m) as [fb|].
      - apply emits_bind; [|intros _].
        { eapply emits_impl; [|apply sdl_update_fb_surface_emits].
          intros []; simpl; tauto. }
        apply emits_bind; [|intros _].
        { apply emits_for_each. intros r. apply sdl_update_emits. }
        apply emits_bind; [apply emits_get|intros q].
        eapply emits_impl; [|apply poll_events_emits]. intros a [_ Ha]; exact Ha.
      - apply emits_ret. }
    intros o w' Hrun. destruct (He _ _ _ Hrun) as (added & Ht & HP).
    exists added. split; [exact Ht|].
    intros x y dz buttons Hin.
    rewrite Forall_forall in HP. apply list_elem_of_In in Hin.
    exact (HP _ Hin).
  - intros ev [(wx & wy & ->)|[(b & ->)|(b & ->)]]; reflexivity.
Qed.

(** ** Computations that leave the event queue alone *)

Lemma blind_ret {A : Type} (a : A) : pending_blind (ret a).
Proof. intros q w. reflexivity. Qed.

Lemma blind_exit {A : Type} (n : Z) : pending_blind (@exit A n).
Proof. intros q w. reflexivity. Qed.

Lemma blind_undefined {A : Type} : pending_blind (@undefined A).
Proof. intros q w. reflexivity. Qed.

Lemma blind_defined {A : Type} (x : option A) : pending_blind (defined x).
Proof. destruct x; [apply blind_ret | apply blind_undefined]. Qed.

Lemma blind_get {A : Type} (f : world -> A) :
  (forall q w, f (set_pending q w) = f w) -> pending_blind (get f).
Proof. intros Hf q w. unfold get. rewrite Hf. reflexivity. Qed.

Lemma blind_modify (f : world -> world) :
  (forall q w, f (set_pending q w) = set_pending q (f w)) ->
  pending_blind (modify f).
Proof. intros Hf q w. unfold modify. rewrite Hf. reflexivity. Qed.

Lemma blind_call (a : action) : pending_blind (call a).
Proof. intros q w. reflexivity. Qed.

Lemma blind_create (a : action) : pending_blind (create a).
Proof.
  intros q w. unfold create. simpl.
  destruct (fresh w) as [|[h|] rest]; reflexivity.
Qed.

Lemma blind_destroy (a : action) (h : Z) : pending_blind (destroy a h).
Proof. intros q w. reflexivity. Qed.

Lemma blind_bind {A B : Type} (c : M A) (k : A -> M B) :
  pending_blind c -> (forall a, pending_blind (k a)) ->
  pending_blind (bind c k).
Proof.
  intros Hc Hk q w. unfold bind. rewrite Hc.
  destruct (c w) as [[a|n|] w1]; [apply Hk | reflexivity | reflexivity].
Qed.

Lemma blind_for_each {A : Type} (f : A -> M unit) (l : list A) :
  (forall x, pending_blind (f x)) -> pending_blind (for_each f l).
Proof.
  intros Hf. induction l as [|x l IH]; simpl.
  - apply blind_ret.
  - apply blind_bind; auto.
Qed.

Lemma set_pending_pending (w : world) : set_pending (pending w) w = w.
Proof. destruct w; reflexivity. Qed.

Lemma blind_keeps_pending {A : Type} (c : M A) (w w' : world) (o : outcome A) :
  pending_blind c -> c w = (o, w') -> pending w' = pending w.
Proof.
  intros Hc Hrun. specialize (Hc (pending w) w).
  rewrite set_pending_pending, Hrun in Hc.
  injection Hc as Hw. rewrite Hw. reflexivity.
Qed.

Ltac blind_step :=
  cbv beta zeta;
  first
    [ apply blind_ret | apply blind_exit | apply blind_undefined
    | apply blind_defined | apply blind_call | apply blind_create
    | apply blind_destroy
    | apply blind_get; solve [intros; reflexivity]
    | apply blind_modify; solve [intros; reflexivity]
    | apply blind_bind; [|intros ?]
    | match goal with
      | |- pending_blind (if ?b then _ else _) => destruct b
      | |- pending_blind (match ?x with _ => _ end) => destruct x
      end ].

Lemma reset_keys_from_blind (n : nat) :
  forall i : Z, pending_blind (reset_keys_from n i).
Proof.
  induction n as [|n IH]; intros i; simpl.
  - apply blind_ret.
  - apply blind_bind; [apply blind_get; reflexivity | intros kp].
    apply blind_bind; [apply blind_defined | intros p].
    apply blind_bind; [|intros _; apply IH].
    repeat blind_step.
Qed.

Lemma dispatch_blind (m : VirtMachine) (ev : SDL_Event) :
  pending_blind (dispatch m ev).
Proof.
  destruct ev; simpl;
    unfold sdl_handle_key_event, sdl_reset_keys,
      sdl_handle_mouse_motion_event, sdl_send_mouse_event;
    repeat first [apply reset_keys_from_blind | blind_step].
Qed.

Lemma sdl_update_fb_surface_blind (fb : FBDevice) :
  pending_blind (sdl_update_fb_surface fb).
Proof. unfold sdl_update_fb_surface. repeat blind_step. Qed.

Lemma sdl_update_blind (fb : FBDevice) (r : SDL_Rect) :
  pending_blind (sdl_update fb r).
Proof. unfold sdl_update. repeat blind_step. Qed.

(** ** The event loop *)

Lemma poll_events_overwrites (m : VirtMachine) (q q0 : list SDL_Event)
    (w : world) :
  q <> [] -> poll_events m q (set_pending q0 w) = poll_events m q w.
Proof. destruct q as [|ev q]; [congruence | reflexivity]. Qed.

Lemma poll_events_cons (m : VirtMachine) (ev : SDL_Event)
    (q : list SDL_Event) (w : world) :
  poll_events m (ev :: q) w
  = match dispatch m ev (set_pending q w) with
    | (Ret _, w1) => poll_events m q w1
    | (Exit n, w1) => (Exit n, w1)
    | (Undef, w1) => (Undef, w1)
    end.
Proof. reflexivity. Qed.

(** A normal return of the loop leaves the queue empty. *)
Lemma poll_events_drains (m : VirtMachine) (q : list SDL_Event) :
  forall w w' : world,
    pending w = q -> poll_events m q w = (Ret tt, w') -> pending w' = [].
Proof.
  induction q as [|ev q IH]; intros w w' Hq.
  - intros [= <-]. exact Hq.
  - rewrite poll_events_cons.
    destruct (dispatch m ev (set_pending q w)) as [[[]|n|] w1] eqn:Hd;
      try discriminate.
    apply IH.
    apply (blind_keeps_pending _ _ _ _ (dispatch_blind m ev)) in Hd.
    exact Hd.
Qed.

(** A quit event behind events that are handled normally: the loop exits
    with status 0 in the world those events produced, and what was queued
    behind the quit event is still queued. *)
Lemma poll_events_quit (m : VirtMachine) (post : list SDL_Event)
    (pre : list SDL_Event) :
  forall w w2 : world,
    poll_events m pre w = (Ret tt, w2) ->
    poll_events m (pre ++ SDL_QUIT :: post) w = (Exit 0, set_pending post w2).
Proof.
  induction pre as [|ev pre IH]; intros w w2.
  - intros [= <-]. reflexivity.
  - rewrite <- app_comm_cons, !poll_events_cons.
    destruct (dispatch m ev (set_pending pre w)) as [o w1] eqn:Hd.
    pose proof (dispatch_blind m ev (pre ++ SDL_QUIT :: post)
                  (set_pending pre w)) as Hb.
    rewrite Hd in Hb. change (set_pending (pre ++ SDL_QUIT :: post)
                                (set_pending pre w))
      with (set_pending (pre ++ SDL_QUIT :: post) w) in Hb.
    rewrite Hb. destruct o as [[]|n|]; try discriminate.
    intros Hrest. rewrite poll_events_overwrites by (destruct pre; discriminate).
    apply IH, Hrest.
Qed.

Lemma bind_assoc {A B C : Type} (c : M A) (k : A -> M B) (k' : B -> M C)
    (w : world) :
  bind (bind c k) k' w = bind c (fun a => bind (k a) k') w.
Proof.
  unfold bind. destruct (c w) as [[a|n|] w1]; reflexivity.
Qed.

(** ** Framebuffer surface and refresh *)

Lemma geometry_same (fb : FBDevice) (w : world) :
  geometry_differs fb w = false ->
  fb_width w = width fb /\ fb_height w = height fb /\ fb_stride w = stride fb.
Proof.
  unfold geometry_differs. intros H.
  apply orb_false_elim in H as [H Hs]. apply orb_false_elim in H as [Hw Hh].
  apply negb_false_iff, Z.eqb_eq in Hw, Hh, Hs. auto.
Qed.

(** [sdl_update_fb_surface] either exits with status 1 or returns with the
    cached geometry equal to the device's and a surface in place. *)
Lemma sdl_update_fb_surface_post (fb : FBDevice) (w w1 : world)
    (o : outcome unit) :
  sdl_update_fb_surface fb w = (o, w1) ->
  o = Exit 1
  \/ (o = Ret tt
      /\ fb_width w1 = width fb /\ fb_height w1 = height fb
      /\ fb_stride w1 = stride fb
      /\ exists s, fb_surface w1 = Some s).
Proof.
  unfold sdl_update_fb_surface, bind, get, modify, create, destroy, call,
    exit, ret.
  destruct (fb_surface w) as [s0|] eqn:Hs;
    [destruct (geometry_differs fb w) eqn:Hg|]; simpl.
  - destruct (fresh w) as [|[h1|] [|[h2|] [|[h3|] rest]]]; simpl;
      intros [= <- <-]; simpl; eauto 10.
  - intros [= <- <-]. right. destruct (geometry_same fb w Hg) as (? & ? & ?).
    eauto 10.
  - destruct (fresh w) as [|[h1|] [|[h2|] [|[h3|] rest]]]; simpl;
      intros [= <- <-]; simpl; eauto 10.
Qed.

(** The presenter runs once per reported rectangle, in order. *)
Lemma refresh_sdl_update (fb : FBDevice) (s : SDL_Surface) :
  forall (rects : list SDL_Rect) (w : world),
    fb_surface w = Some s ->
    for_each (sdl_update fb) rects w
    = (Ret tt,
       set_trace (trace w ++ flat_map (present_calls w s) rects) w).
Proof.
  induction rects as [|r rects IH]; intros w Hs; simpl.
  - rewrite app_nil_r, set_trace_trace. reflexivity.
  - unfold bind at 1. unfold sdl_update at 1, bind, get, call, modify.
    rewrite Hs. simpl. unfold bind in IH. rewrite IH by exact Hs.
    simpl. rewrite <- !app_assoc. reflexivity.
Qed.

(** C8. Without a framebuffer device [sdl_refresh] returns and leaves the
    world as it was: nothing created, nothing polled, nothing sent.  With a
    device it first runs [sdl_update_fb_surface], which makes resource calls
    only and does not touch the queue; that either exits the process with
    status 1 or returns with the cached geometry equal to the device's and
    a surface in place.  It then runs the presenter once for each dirty
    rectangle, in the order reported, and only then polls the queue: from
    there on only guest input events are sent, and a normal return leaves
    the queue empty. *)
Theorem sdl_refresh_phases (m : VirtMachine) (w : world) :
  (fb_dev m = None -> sdl_refresh m w = (Ret tt, w))
  /\ (forall fb, fb_dev m = Some fb ->
      exists (o1 : outcome unit) (w1 : world) (T1 : list action),
        sdl_update_fb_surface fb w = (o1, w1)
        /\ trace w1 = trace w ++ T1 /\ Forall is_resource_call T1
        /\ pending w1 = pending w
        /\ ((o1 = Exit 1 /\ sdl_refresh m w = (Exit 1, w1))
            \/ (o1 = Ret tt
                /\ fb_width w1 = width fb /\ fb_height w1 = height fb
                /\ fb_stride w1 = stride fb
                /\ exists s w2,
                    fb_surface w1 = Some s
                    /\ w2 = set_trace
                              (trace w1
                               ++ flat_map (present_calls w1 s) (dirty fb)) w1
                    /\ refresh fb sdl_update w1 = (Ret tt, w2)
                    /\ sdl_refresh m w = poll_events m (pending w) w2
                    /\ forall o w3,
                        poll_events m (pending w) w2 = (o, w3) ->
                        (exists T3, trace w3 = trace w2 ++ T3
                                    /\ Forall is_guest_input T3)
                        /\ (o = Ret tt -> pending w3 = [])))).
Proof.
  split.
  - intros Hfb. unfold sdl_refresh. rewrite Hfb. reflexivity.
  - intros fb Hfb.
    destruct (sdl_update_fb_surface fb w) as [o1 w1] eqn:H1.
    destruct (sdl_update_fb_surface_emits fb _ _ _ H1) as (T1 & HT1 & HP1).
    pose proof (blind_keeps_pending _ _ _ _
                  (sdl_update_fb_surface_blind fb) H1) as Hq1.
    exists o1, w1, T1. do 4 (split; [assumption || reflexivity|]).
    destruct (sdl_update_fb_surface_post fb _ _ _ H1)
      as [->|(-> & Hw & Hh & Hst & s & Hs)].
    + left. split; [reflexivity|].
      unfold sdl_refresh. rewrite Hfb. apply bind_Exit, H1.
    + right. do 4 (split; [assumption || reflexivity|]).
      exists s, (set_trace
                   (trace w1 ++ flat_map (present_calls w1 s) (dirty fb)) w1).
      split; [exact Hs|]. split; [reflexivity|].
      pose proof (refresh_sdl_update fb s (dirty fb) w1 Hs) as H2.
      split; [exact H2|]. split.
      * unfold sdl_refresh. rewrite Hfb.
        rewrite (bind_Ret _ _ _ _ _ H1).
        unfold refresh. rewrite (bind_Ret _ _ _ _ _ H2).
        unfold bind, get. simpl. rewrite Hq1. reflexivity.
      * intros o w3 H3. split.
        -- destruct (poll_events_emits m _ _ _ _ H3) as (T3 & HT3 & HP3).
           exists T3. split; [exact HT3|].
           eapply Forall_impl; [exact HP3|]. intros a [Ha _]; exact Ha.
        -- intros ->. eapply poll_events_drains; [|exact H3].
           simpl. exact Hq1.
Qed.

(** C9. Let the queue hold a quit event behind events the dispatcher
    handles normally.  Once the surface is ensured and the presenter has
    run, [sdl_refresh] handles those earlier events, then exits the process
    with status 0 at the quit event: the world is the one the earlier
    events produced, the events queued behind the quit event are still
    queued, and whatever ticks were to follow do not run. *)
Theorem quit_exits_immediately (m : VirtMachine) (fb : FBDevice)
    (w w1 w2 : world) (pre post : list SDL_Event) (ms : list VirtMachine) :
  fb_dev m = Some fb ->
  pending w = pre ++ SDL_QUIT :: post ->
  (sdl_update_fb_surface fb ;; refresh fb sdl_update) w = (Ret tt, w1) ->
  poll_events m pre w1 = (Ret tt, w2) ->
  sdl_refresh m w = (Exit 0, set_pending post w2)
  /\ ticks (m :: ms) w = (Exit 0, set_pending post w2)
  /\ trace (set_pending post w2) = trace w2
  /\ pending (set_pending post w2) = post.
Proof.
  intros Hfb Hq H12 Hpre.
  assert (Hrefresh : sdl_refresh m w = (Exit 0, set_pending post w2)).
  { unfold sdl_refresh. rewrite Hfb. rewrite <- bind_assoc.
    rewrite (bind_Ret _ _ _ _ _ H12). unfold bind, get.
    assert (Hq1 : pending w1 = pending w).
    { eapply blind_keeps_pending; [|exact H12].
      apply blind_bind; [apply sdl_update_fb_surface_blind|intros _].
      apply blind_for_each. intros r. apply sdl_update_blind. }
    rewrite Hq1, Hq. apply poll_events_quit, Hpre. }
  split; [exact Hrefresh|]. split; [|split; reflexivity].
  unfold ticks. simpl. apply bind_Exit, Hrefresh.
Qed.

(** C7 (the code at a change of geometry). The guest goes from 640x480 to
    800x600 and SDL grants every creation.  The second call frees the
    surface of the first (object 1) and nothing else: the renderer and the
    texture of the first call (objects 2 and 3) are still alive afterwards,
    though the driver now points to the new renderer and texture (objects 5
    and 6) and no longer to them. *)
Theorem resize_frees_surface_only :
  let r := (sdl_update_fb_surface fb_640x480 ;;
            sdl_update_fb_surface fb_800x600) resize_world in
  r.1 = Ret tt
  /\ trace r.2
     = [ SDL_CreateRGBSurfaceFrom 4096 640 480 32 2560
           0x00ff0000 0x0000ff00 0x000000ff 0x00000000;
         SDL_CreateRenderer;
         SDL_CreateTextureFromSurface 2 1;
         SDL_FreeSurface 1;
         SDL_CreateRGBSurfaceFrom 4096 800 600 32 3200
           0x00ff0000 0x0000ff00 0x000000ff 0x00000000;
         SDL_CreateRenderer;
         SDL_CreateTextureFromSurface 5 4 ]
  /\ live r.2 = [6; 5; 4; 3; 2]
  /\ fb_surface r.2
     = Some {| surface_id := 4; pixels := 4096; pitch := 3200 |}
  /\ renderer r.2 = Some 5
  /\ texture r.2 = Some 6.
Proof.
  intros r. subst r.
  split; [vm_compute; reflexivity|].
  split; [vm_compute; reflexivity|].
  split; [vm_compute; reflexivity|].
  split; [vm_compute; reflexivity|].
  split; vm_compute; reflexivity.
Qed.

(** * Further properties *)

(** ** The scancode table, entry by entry *)

Lemma designated_beyond (n : nat) (inits : list (Z * Z)) :
  Forall (fun iv => (Z.to_nat iv.1 < n)%nat) inits ->
  forall (i : nat) (d : Z), (n <= i)%nat -> designated inits i d = d.
Proof.
  induction 1 as [|[j x] rest Hj _ IH]; intros i d Hi; simpl.
  - reflexivity.
  - rewrite IH by exact Hi. simpl in Hj.
    destruct (Nat.eqb_spec (Z.to_nat j) i); [lia | reflexivity].
Qed.

Lemma keymap_init_indices :
  Forall (fun iv => (Z.to_nat iv.1 < 231)%nat) keymap_init.
Proof.
  unfold keymap_init. repeat (constructor; [cbv; lia|]). constructor.
Qed.

Lemma keymap_beyond_RALT (i : nat) :
  (231 <= i)%nat -> designated keymap_init i 0 = 0.
Proof. apply designated_beyond, keymap_init_indices. Qed.

(** Every entry of [keymap] is the designated value of a scancode that is
    either one of 0 .. 230 or beyond them, where the table holds 0. *)
Lemma keymap_entry_cases (sc keycode : Z) :
  array_get keymap sc = Some keycode ->
  0 <= sc < NR_KEYS
  /\ keycode = designated keymap_init (Z.to_nat sc) 0
  /\ (In sc (seqZ 0 231) \/ (230 < sc /\ keycode = 0)).
Proof.
  intros Hget.
  assert (Hr : 0 <= sc < NR_KEYS).
  { apply array_get_Some in Hget as [H0 Hl].
    apply lookup_lt_Some in Hl. rewrite keymap_length in Hl. lia. }
  pose proof (keymap_lookup sc Hr) as Hl. rewrite Hget in Hl.
  assert (Hk : keycode = designated keymap_init (Z.to_nat sc) 0)
    by congruence.
  clear Hl. split; [exact Hr|]. split; [exact Hk|].
  destruct (Z.le_gt_cases sc 230) as [Hle|Hgt].
  - left. apply list_elem_of_In, elem_of_seqZ. lia.
  - right. split; [lia|]. rewrite Hk. apply keymap_beyond_RALT. lia.
Qed.

Lemma in_group_In (g : list Z) (i j : Z) :
  in_group g i j = true -> In i g /\ In j g.
Proof.
  unfold in_group. intros H. apply andb_prop in H as [Hi Hj].
  apply existsb_exists in Hi as (x & Hx & ->%Z.eqb_eq).
  apply existsb_exists in Hj as (y & Hy & ->%Z.eqb_eq). auto.
Qed.

(** X1. Apart from unmapped entries, the table sends two different
    scancodes to the same keycode only inside the three groups it collapses
    on purpose: the three backslash scancodes, the two keypad-equals
    scancodes and the two enter scancodes. *)
Theorem keymap_collisions (i j keycode : Z) :
  array_get keymap i = Some keycode ->
  array_get keymap j = Some keycode ->
  keycode <> 0 -> i <> j ->
  (keycode = KEY_BACKSLASH
   /\ In i [SDL_SCANCODE_BACKSLASH; SDL_SCANCODE_NONUSHASH;
            SDL_SCANCODE_NONUSBACKSLASH]
   /\ In j [SDL_SCANCODE_BACKSLASH; SDL_SCANCODE_NONUSHASH;
            SDL_SCANCODE_NONUSBACKSLASH])
  \/ (keycode = KEY_KPEQUAL
      /\ In i [SDL_SCANCODE_KP_EQUALS; SDL_SCANCODE_KP_EQUALSAS400]
      /\ In j [SDL_SCANCODE_KP_EQUALS; SDL_SCANCODE_KP_EQUALSAS400])
  \/ (keycode = KEY_ENTER
      /\ In i [SDL_SCANCODE_RETURN; SDL_SCANCODE_RETURN2]
      /\ In j [SDL_SCANCODE_RETURN; SDL_SCANCODE_RETURN2]).
Proof.
  intros Hi Hj Hk Hij.
  destruct (keymap_entry_cases i keycode Hi) as (_ & Hki & [Hini|[_ H0]]);
    [|contradiction].
  destruct (keymap_entry_cases j keycode Hj) as (_ & Hkj & [Hinj|[_ H0]]);
    [|contradiction].
  set (ok := fun p q : Z * Z =>
     (p.1 =? q.1) || negb (p.2 =? q.2) || (p.2 =? 0)
     || ((p.2 =? KEY_BACKSLASH)
         && in_group [SDL_SCANCODE_BACKSLASH; SDL_SCANCODE_NONUSHASH;
                      SDL_SCANCODE_NONUSBACKSLASH] p.1 q.1)
     || ((p.2 =? KEY_KPEQUAL)
         && in_group [SDL_SCANCODE_KP_EQUALS; SDL_SCANCODE_KP_EQUALSAS400]
              p.1 q.1)
     || ((p.2 =? KEY_ENTER)
         && in_group [SDL_SCANCODE_RETURN; SDL_SCANCODE_RETURN2] p.1 q.1)).
  assert (Hall : all_pairs ok keymap_rows = true)
    by (vm_compute; reflexivity).
  assert (Hrow : forall s k, In s (seqZ 0 231) ->
                   k = designated keymap_init (Z.to_nat s) 0 ->
                   In (s, k) keymap_rows).
  { intros s k Hs ->. unfold keymap_rows.
    apply (in_map (fun sc => (sc, designated keymap_init (Z.to_nat sc) 0))).
    exact Hs. }
  unfold all_pairs in Hall. rewrite forallb_forall in Hall.
  specialize (Hall _ (Hrow i keycode Hini Hki)).
  rewrite forallb_forall in Hall.
  specialize (Hall _ (Hrow j keycode Hinj Hkj)).
  unfold ok in Hall. cbn [fst snd] in Hall.
  destruct (Z.eqb_spec i j); [contradiction|].
  rewrite Z.eqb_refl in Hall.
  destruct (Z.eqb_spec keycode 0); [contradiction|]. simpl in Hall.
  repeat (apply orb_prop in Hall as [Hall|Hall]); try discriminate;
    apply andb_prop in Hall as [->%Z.eqb_eq Hg];
    apply in_group_In in Hg; tauto.
Qed.

(** X2. Every entry of the table is a keycode between 0 and 355, so none is
    cut short by the table's [unsigned short]; beyond the last initialised
    scancode (RALT) every entry is 0; and an entry is one of the two lock
    keycodes the dispatcher singles out exactly for the Caps Lock and the
    Num Lock scancode. *)
Theorem keymap_entries (sc keycode : Z) :
  array_get keymap sc = Some keycode ->
  0 <= keycode <= 355
  /\ (SDL_SCANCODE_RALT < sc -> keycode = 0)
  /\ (keycode = 0x3a <-> sc = SDL_SCANCODE_CAPSLOCK)
  /\ (keycode = 0x45 <-> sc = SDL_SCANCODE_NUMLOCKCLEAR).
Proof.
  intros Hget.
  destruct (keymap_entry_cases sc keycode Hget) as (_ & Hk & Hcases).
  set (entry := fun s : Z => designated keymap_init (Z.to_nat s) 0) in *.
  set (ok := fun a : Z =>
     (0 <=? entry a) && (entry a <=? 355)
     && ((a <=? SDL_SCANCODE_RALT) || (entry a =? 0))
     && Bool.eqb (entry a =? 0x3a) (a =? SDL_SCANCODE_CAPSLOCK)
     && Bool.eqb (entry a =? 0x45) (a =? SDL_SCANCODE_NUMLOCKCLEAR)).
  assert (Hok : ok sc = true).
  { destruct Hcases as [Hin|[Hgt H0]].
    - assert (Hall : forallb ok (seqZ 0 231) = true)
        by (vm_compute; reflexivity).
      rewrite forallb_forall in Hall. exact (Hall sc Hin).
    - unfold ok. fold (entry sc) in Hk. rewrite <- Hk, H0.
      unfold SDL_SCANCODE_RALT, SDL_SCANCODE_CAPSLOCK,
        SDL_SCANCODE_NUMLOCKCLEAR.
      destruct (Z.eqb_spec sc 57); [lia|].
      destruct (Z.eqb_spec sc 83); [lia|]. simpl.
      rewrite orb_true_r. reflexivity. }
  unfold ok in Hok. fold (entry sc) in Hk. rewrite <- Hk in Hok.
  repeat (apply andb_prop in Hok as [Hok ?]).
  repeat match goal with
         | H : Bool.eqb _ _ = true |- _ => apply Bool.eqb_prop in H
         end.
  split; [lia|]. split.
  - intros Hgt. destruct (Z.leb_spec sc SDL_SCANCODE_RALT); [lia|].
    simpl in *. lia.
  - split; rewrite <- !Z.eqb_eq; split; congruence.
Qed.

(** ** Parts of the world a computation keeps *)

Section Keeps.

Context {B : Type} (f : world -> B).
Hypothesis f_trace : forall t w, f (set_trace t w) = f w.
Hypothesis f_live : forall l w, f (set_live l w) = f w.
Hypothesis f_fresh : forall l w, f (set_fresh l w) = f w.

Lemma keeps_ret {A : Type} (a : A) : keeps f (ret a).
Proof. intros w o w' [= <- <-]. reflexivity. Qed.

Lemma keeps_exit {A : Type} (n : Z) : keeps f (@exit A n).
Proof. intros w o w' [= <- <-]. reflexivity. Qed.

Lemma keeps_undefined {A : Type} : keeps f (@undefined A).
Proof. intros w o w' [= <- <-]. reflexivity. Qed.

Lemma keeps_defined {A : Type} (x : option A) : keeps f (defined x).
Proof. destruct x; [apply keeps_ret | apply keeps_undefined]. Qed.

Lemma keeps_get {A : Type} (g : world -> A) : keeps f (get g).
Proof. intros w o w' [= <- <-]. reflexivity. Qed.

Lemma keeps_modify (g : world -> world) :
  (forall w, f (g w) = f w) -> keeps f (modify g).
Proof. intros Hg w o w' [= <- <-]. apply Hg. Qed.

Lemma keeps_call (a : action) : keeps f (call a).
Proof. intros w o w' [= <- <-]. apply f_trace. Qed.

Lemma keeps_create (a : action) : keeps f (create a).
Proof.
  intros w o w'. unfold create.
  destruct (fresh (set_trace (trace w ++ [a]) w)) as [|[h|] rest];
    intros [= <- <-]; rewrite ?f_live, ?f_fresh; apply f_trace.
Qed.

Lemma keeps_destroy (a : action) (h : Z) : keeps f (destroy a h).
Proof. intros w o w' [= <- <-]. rewrite f_live. apply f_trace. Qed.

Lemma keeps_bind {A C : Type} (c : M A) (k : A -> M C) :
  keeps f c -> (forall a, keeps f (k a)) -> keeps f (bind c k).
Proof.
  intros Hc Hk w o w'. unfold bind.
  destruct (c w) as [[a|n|] w1] eqn:Hcw; pose proof (Hc _ _ _ Hcw) as H1.
  - intros Hkw. rewrite (Hk a _ _ _ Hkw). exact H1.
  - intros [= <- <-]. exact H1.
  - intros [= <- <-]. exact H1.
Qed.

Lemma keeps_for_each {A : Type} (g : A -> M unit) (l : list A) :
  (forall x, keeps f (g x)) -> keeps f (for_each g l).
Proof.
  intros Hg. induction l as [|x l IH]; simpl.
  - apply keeps_ret.
  - apply keeps_bind; auto.
Qed.

End Keeps.

Ltac keeps_step :=
  cbv beta zeta;
  first
    [ apply keeps_ret | apply keeps_exit | apply keeps_undefined
    | apply keeps_get | apply keeps_defined
    | apply keeps_call; solve [intros; reflexivity]
    | apply keeps_create; solve [intros; reflexivity]
    | apply keeps_destroy; solve [intros; reflexivity]
    | apply keeps_modify; solve [intros; reflexivity]
    | apply keeps_bind; [|intros ?]
    | match goal with
      | |- keeps _ (if ?b then _ else _) => destruct b
      | |- keeps _ (match ?x with _ => _ end) => destruct x
      end ].

Lemma sdl_update_fb_surface_keeps_keys (fb : FBDevice) :
  keeps key_pressed (sdl_update_fb_surface fb).
Proof. unfold sdl_update_fb_surface. repeat keeps_step. Qed.

Lemma sdl_update_keeps_keys (fb : FBDevice) (r : SDL_Rect) :
  keeps key_pressed (sdl_update fb r).
Proof. unfold sdl_update. repeat keeps_step. Qed.

Lemma sdl_handle_mouse_motion_event_keeps_keys (state x y xrel yrel : Z)
    (m : VirtMachine) :
  keeps key_pressed (sdl_handle_mouse_motion_event state x y xrel yrel m).
Proof.
  unfold sdl_handle_mouse_motion_event, sdl_send_mouse_event.
  repeat keeps_step.
Qed.

(** ** [key_pressed] and the guest's view of the keyboard *)

Lemma key_state_after_snoc (tr : list action) (is_down : bool)
    (keycode k : Z) :
  key_state_after (tr ++ [vm_send_key_event is_down keycode]) k
  = if keycode =? k then is_down else key_state_after tr k.
Proof. unfold key_state_after. rewrite foldl_snoc. reflexivity. Qed.

Lemma key_state_after_no_key (tr added : list action) (k : Z) :
  Forall no_key_event added ->
  key_state_after (tr ++ added) k = key_state_after tr k.
Proof.
  intros Hnk. unfold key_state_after. rewrite foldl_app. generalize (foldl
    (fun st a => match a with
                 | vm_send_key_event is_down keycode =>
                     if keycode =? k then is_down else st
                 | _ => st
                 end) false tr).
  induction Hnk as [|a added Ha _ IH]; intros st; simpl; [reflexivity|].
  rewrite IH. destruct a; simpl in Ha; try reflexivity. contradiction.
Qed.

Lemma key_state_after_releases (ks : list Z) (k : Z) :
  forall tr : list action,
    (In k ks ->
     key_state_after (tr ++ map (vm_send_key_event false) ks) k = false)
    /\ (~ In k ks ->
        key_state_after (tr ++ map (vm_send_key_event false) ks) k
        = key_state_after tr k).
Proof.
  induction ks as [|k0 ks IH]; intros tr; simpl.
  - rewrite app_nil_r. tauto.
  - rewrite (app_assoc tr [_] _ : tr ++ _ :: _ = (tr ++ [_]) ++ _).
    destruct (IH (tr ++ [vm_send_key_event false k0])) as [IHin IHout].
    rewrite key_state_after_snoc in IHout. split.
    + intros Hin. destruct (in_dec Z.eq_dec k ks) as [Hks|Hks]; [auto|].
      destruct Hin as [->|Hin]; [|contradiction].
      rewrite IHout by exact Hks. rewrite Z.eqb_refl. reflexivity.
    + intros Hout. rewrite IHout by tauto.
      destruct (Z.eqb_spec k0 k); [tauto | reflexivity].
Qed.

Lemma key_state_after_reset (tr : list action) (ks : list Z) (k : Z) :
  (~ In k ks -> key_state_after tr k = false) ->
  key_state_after (tr ++ map (vm_send_key_event false) ks) k = false.
Proof.
  intros Hout. destruct (key_state_after_releases ks k tr) as [H1 H2].
  destruct (in_dec Z.eq_dec k ks) as [Hin|Hnin]; [auto|].
  rewrite H2 by exact Hnin. auto.
Qed.

Lemma tracks_ok (w : world) : tracks w -> key_pressed_ok w.
Proof.
  intros (Hlen & Hkp & H0 & _). split; [exact Hlen|].
  intros Htrue. destruct (Z.lt_ge_cases 0 NR_KEYS) as [Hpos|Hneg].
  - specialize (Hkp 0 ltac:(lia)). apply array_get_Some in Hkp as [_ Hkp].
    change (Z.to_nat 0) with 0%nat in Hkp. congruence.
  - apply lookup_lt_Some in Htrue. lia.
Qed.

(** Calls that are no key events, made without touching [key_pressed],
    keep the agreement. *)
Lemma tracks_frame (w w' : world) (added : list action) :
  tracks w ->
  key_pressed w' = key_pressed w ->
  trace w' = trace w ++ added -> Forall no_key_event added ->
  tracks w'.
Proof.
  intros (Hlen & Hkp & H0 & Hc & Hn) Hsame Htr Hnk. unfold tracks.
  rewrite Hsame, Htr, !key_state_after_no_key by exact Hnk.
  split; [exact Hlen|]. split; [|auto].
  intros k Hr. rewrite key_state_after_no_key by exact Hnk. auto.
Qed.

Lemma sdl_handle_key_event_tracks (ev : SDL_KeyboardEvent) (w w' : world)
    (o : outcome unit) :
  tracks w -> sdl_handle_key_event ev w = (o, w') -> tracks w'.
Proof.
  intros Ht. pose proof (tracks_ok w Ht) as Hok.
  destruct (sdl_get_keycode ev) as [keycode|] eqn:Hk.
  2:{ unfold sdl_handle_key_event, bind. rewrite Hk. simpl.
      intros [= <- <-]. exact Ht. }
  destruct Ht as (Hlen & Hkp & H0 & Hc & Hn).
  destruct (decide (keycode = 0)) as [->|Hne0].
  - rewrite sdl_handle_key_event_unmapped by exact Hk.
    destruct (key_down ev).
    + intros [= <- <-]. repeat split; assumption.
    + rewrite sdl_reset_keys_spec by exact Hok. intros [= <- <-].
      set (ks := released (key_pressed w) 1 (Z.to_nat (NR_KEYS - 1))).
      assert (Hup : forall k, (0 <= k < NR_KEYS -> True) ->
                key_state_after (trace w) k = false \/ 0 <= k < NR_KEYS ->
                key_state_after
                  (trace w ++ map (vm_send_key_event false) ks) k = false).
      { intros k _ Hcase. apply key_state_after_reset. intros Hnin.
        destruct Hcase as [Hf|Hr]; [exact Hf|].
        destruct (decide (k = 0)) as [->|Hk0]; [exact H0|].
        specialize (Hkp k Hr).
        destruct (key_state_after (trace w) k); [|reflexivity].
        exfalso. apply Hnin. apply released_In. split; [lia | exact Hkp]. }
      unfold tracks. simpl. split; [apply length_replicate|].
      split; [|repeat split; apply Hup; auto].
      intros k Hr. rewrite Hup by auto.
      apply array_get_Some. split; [lia|]. apply lookup_replicate_2. lia.
  - destruct (decide (keycode = 0x3a \/ keycode = 0x45)) as [Hlock|Hnl].
    + rewrite (sdl_handle_key_event_lock ev keycode w Hk Hlock).
      intros [= <- <-]. unfold tracks. simpl.
      rewrite (app_assoc (trace w) [_] [_]
                 : trace w ++ [_; _] = (trace w ++ [_]) ++ [_]).
      assert (Hst : forall k,
                key_state_after
                  ((trace w ++ [vm_send_key_event true keycode])
                   ++ [vm_send_key_event false keycode]) k
                = if keycode =? k then false else key_state_after (trace w) k).
      { intros k. rewrite !key_state_after_snoc.
        destruct (keycode =? k); reflexivity. }
      split; [exact Hlen|]. rewrite !Hst. split.
      * intros k Hr. rewrite Hst, (Hkp k Hr).
        destruct (Z.eqb_spec keycode k) as [<-|]; [|reflexivity].
        destruct Hlock as [-> | ->]; congruence.
      * rewrite H0, Hc, Hn.
        repeat split; match goal with
                      | |- (if ?b then _ else _) = _ => destruct b
                      end; reflexivity.
    + pose proof (sdl_get_keycode_nonneg ev keycode Hk) as Hnn.
      rewrite (sdl_handle_key_event_plain ev keycode w Hk)
        by (auto; tauto).
      assert (Hst : forall k,
                key_state_after
                  (trace w ++ [vm_send_key_event (key_down ev) keycode]) k
                = if keycode =? k then key_down ev
                  else key_state_after (trace w) k)
        by (intros k; apply key_state_after_snoc).
      assert (Hfix : forall k, k <> keycode ->
                key_state_after (trace w) k = false ->
                key_state_after
                  (trace w ++ [vm_send_key_event (key_down ev) keycode]) k
                = false).
      { intros k Hkk Hf. rewrite Hst.
        destruct (Z.eqb_spec keycode k); [congruence | exact Hf]. }
      destruct (Z.ltb_spec keycode NR_KEYS) as [Hlt|Hge];
        intros [= <- <-]; unfold tracks;
        cbn [trace key_pressed set_trace set_key_pressed].
      * split; [rewrite length_insert; exact Hlen|].
        split; [|repeat split; apply Hfix; auto; lia].
        intros k Hr. rewrite Hst.
        destruct (Z.eqb_spec keycode k) as [<-|Hkk].
        -- apply array_get_Some. split; [lia|].
           apply list_lookup_insert_eq. lia.
        -- rewrite <- (Hkp k Hr). unfold array_get.
           destruct (k <? 0); [reflexivity|].
           apply list_lookup_insert_ne. lia.
      * split; [exact Hlen|].
        split; [|repeat split; apply Hfix; auto; lia].
        intros k Hr. rewrite Hst.
        destruct (Z.eqb_spec keycode k) as [<-|Hkk]; [lia|].
        apply Hkp, Hr.
Qed.

Lemma tracks_set_pending (q : list SDL_Event) (w : world) :
  tracks w -> tracks (set_pending q w).
Proof. intros H. exact H. Qed.

Lemma dispatch_tracks (m : VirtMachine) (ev : SDL_Event) (w w' : world)
    (o : outcome unit) :
  tracks w -> dispatch m ev w = (o, w') -> tracks w'.
Proof.
  intros Ht. destruct ev; simpl;
    try (intros [= <- <-]; exact Ht);
    try (apply sdl_handle_key_event_tracks; exact Ht).
  intros Hrun.
  assert (He : emits no_key_event
                 (sdl_handle_mouse_motion_event state x y xrel yrel m)).
  { unfold sdl_handle_mouse_motion_event, sdl_send_mouse_event.
    repeat emits_step. }
  destruct (He _ _ _ Hrun) as (added & Htr & Hadded).
  eapply tracks_frame; [exact Ht| |exact Htr|exact Hadded].
  exact (sdl_handle_mouse_motion_event_keeps_keys _ _ _ _ _ _ _ _ _ Hrun).
Qed.

Lemma poll_events_tracks (m : VirtMachine) (q : list SDL_Event) :
  forall (w w' : world) (o : outcome unit),
    tracks w -> poll_events m q w = (o, w') -> tracks w'.
Proof.
  induction q as [|ev q IH]; intros w w' o Ht.
  - intros [= <- <-]. exact Ht.
  - rewrite poll_events_cons.
    destruct (dispatch m ev (set_pending q w)) as [[[]|n|] w1] eqn:Hd;
      pose proof (dispatch_tracks m ev _ _ _ (tracks_set_pending q w Ht) Hd);
      [apply IH; assumption | intros [= <- <-]; assumption
      | intros [= <- <-]; assumption].
Qed.

Lemma sdl_refresh_tracks (m : VirtMachine) (w w' : world) (o : outcome unit) :
  tracks w -> sdl_refresh m w = (o, w') -> tracks w'.
Proof.
  intros Ht. unfold sdl_refresh, refresh.
  destruct (fb_dev m) as [fb|]; [|intros [= <- <-]; exact Ht].
  unfold bind at 1.
  destruct (sdl_update_fb_surface fb w) as [o1 w1] eqn:H1.
  assert (Ht1 : tracks w1).
  { destruct (sdl_update_fb_surface_emits fb _ _ _ H1) as (T1 & HT1 & HP1).
    eapply tracks_frame; [exact Ht| |exact HT1|].
    - exact (sdl_update_fb_surface_keeps_keys fb _ _ _ H1).
    - eapply Forall_impl; [exact HP1|]. intros []; simpl; tauto. }
  destruct o1 as [[]|n|]; try (intros [= <- <-]; exact Ht1).
  unfold bind at 1.
  destruct (for_each (sdl_update fb) (dirty fb) w1) as [o2 w2] eqn:H2.
  assert (Ht2 : tracks w2).
  { assert (He : emits no_key_event (for_each (sdl_update fb) (dirty fb))).
    { apply emits_for_each. intros r. unfold sdl_update.
      repeat emits_step. }
    destruct (He _ _ _ H2) as (T2 & HT2 & HP2).
    eapply tracks_frame; [exact Ht1| |exact HT2|exact HP2].
    refine (keeps_for_each key_pressed _ _ _ _ _ _ H2).
    intros r. apply sdl_update_keeps_keys. }
  destruct o2 as [[]|n|]; try (intros [= <- <-]; exact Ht2).
  unfold bind, get. apply poll_events_tracks, Ht2.
Qed.

Lemma tracks_start (w : world) :
  key_pressed w = replicate (Z.to_nat NR_KEYS) false -> trace w = [] ->
  tracks w.
Proof.
  intros Hkp Htr. unfold tracks. rewrite Hkp, Htr.
  split; [apply length_replicate|].
  split; [|auto]. intros k Hr. apply array_get_Some. split; [lia|].
  apply lookup_replicate_2. lia.
Qed.

Lemma session_tracks (s : list (VirtMachine * list SDL_Event)) :
  forall (w w' : world) (o : outcome unit),
    tracks w -> session s w = (o, w') -> tracks w'.
Proof.
  induction s as [|[m evs] s IH]; intros w w' o Ht; unfold session; simpl.
  - intros [= <- <-]. exact Ht.
  - unfold bind at 1 2, arrive, modify. cbn [fst snd].
    pose proof (tracks_set_pending (pending w ++ evs) w Ht) as Ht1.
    destruct (sdl_refresh m (set_pending (pending w ++ evs) w))
      as [[[]|n|] w1] eqn:H1;
      pose proof (sdl_refresh_tracks m _ _ _ Ht1 H1);
      [apply IH; assumption | intros [= <- <-]; assumption
      | intros [= <- <-]; assumption].
Qed.

(** Ticks between which nothing arrives are a session. *)
Lemma session_no_arrivals (ms : list VirtMachine) (w : world) :
  session (map (fun m => (m, [])) ms) w = ticks ms w.
Proof.
  revert w. induction ms as [|m ms IH]; intros w; [reflexivity|].
  unfold session, ticks in *. simpl. unfold bind at 1 2 4, arrive, modify.
  cbn [fst snd]. rewrite app_nil_r.
  replace (set_pending (pending w) w) with w by (destruct w; reflexivity).
  destruct (sdl_refresh m w) as [[[]|n|] w1]; [apply IH|reflexivity..].
Qed.

(** X3. From a start with no key marked pressed and nothing yet sent, and
    through any number of ticks, whatever events the host queues before
    each of them and however the last one ends (return, exit or a fault),
    [key_pressed] agrees with what the guest has been told: for every
    keycode below [NR_KEYS] the entry is set exactly when the last key
    event sent for that keycode was a press.  The guest is never left with
    keycode 0, Caps Lock or Num Lock down. *)
Theorem key_pressed_tracks_guest (s : list (VirtMachine * list SDL_Event))
    (w0 w' : world) (o : outcome unit) :
  key_pressed w0 = replicate (Z.to_nat NR_KEYS) false ->
  trace w0 = [] ->
  session s w0 = (o, w') ->
  (forall k : Z, 0 <= k < NR_KEYS ->
     array_get (key_pressed w') k = Some (key_state_after (trace w') k))
  /\ key_state_after (trace w') 0 = false
  /\ key_state_after (trace w') KEY_CAPSLOCK = false
  /\ key_state_after (trace w') KEY_NUMLOCK = false.
Proof.
  intros Hkp Htr Hrun.
  destruct (session_tracks s w0 w' o (tracks_start w0 Hkp Htr) Hrun)
    as (_ & Hall & H0 & Hc & Hn).
  auto.
Qed.

(** X4. In a state where [key_pressed] agrees with the guest's view, an
    unmapped key release returns and leaves the guest with every keycode
    below [NR_KEYS] up; a keycode at or beyond [NR_KEYS], which has no entry
    in [key_pressed], is left as the guest last saw it. *)
Theorem reset_releases_all_tracked (ev : SDL_KeyboardEvent) (w : world) :
  (forall k : Z, 0 <= k < NR_KEYS ->
     array_get (key_pressed w) k = Some (key_state_after (trace w) k)) ->
  length (key_pressed w) = Z.to_nat NR_KEYS ->
  key_state_after (trace w) 0 = false ->
  sdl_get_keycode ev = Some 0 -> key_down ev = false ->
  exists w',
    sdl_handle_key_event ev w = (Ret tt, w')
    /\ (forall k : Z, 0 <= k < NR_KEYS ->
          key_state_after (trace w') k = false)
    /\ (forall k : Z, NR_KEYS <= k ->
          key_state_after (trace w') k = key_state_after (trace w) k).
Proof.
  intros Hkp Hlen H0 Hk Hup.
  assert (Hok : key_pressed_ok w).
  { split; [exact Hlen|]. intros Htrue.
    pose proof (lookup_lt_Some _ _ _ Htrue) as Hlt.
    specialize (Hkp 0 ltac:(lia)). apply array_get_Some in Hkp as [_ Hkp].
    change (Z.to_nat 0) with 0%nat in Hkp. congruence. }
  rewrite sdl_handle_key_event_unmapped, Hup, sdl_reset_keys_spec
    by assumption.
  eexists. split; [reflexivity|]. simpl. split; intros k Hr.
  - apply key_state_after_reset. intros Hnin.
    destruct (decide (k = 0)) as [->|Hk0]; [exact H0|].
    specialize (Hkp k Hr).
    destruct (key_state_after (trace w) k); [|reflexivity].
    exfalso. apply Hnin. apply released_In. split; [lia | exact Hkp].
  - apply key_state_after_releases. intros Hin.
    apply released_In in Hin as [Hin _]. lia.
Qed.

(** X5. A second unmapped key release right after a first one finds
    nothing to release: it returns with the world as the first left it. *)
Theorem reset_twice (ev ev' : SDL_KeyboardEvent) (w w1 : world) :
  key_pressed_ok w ->
  sdl_get_keycode ev = Some 0 -> key_down ev = false ->
  sdl_get_keycode ev' = Some 0 -> key_down ev' = false ->
  sdl_handle_key_event ev w = (Ret tt, w1) ->
  sdl_handle_key_event ev' w1 = (Ret tt, w1).
Proof.
  intros Hok Hk Hup Hk' Hup' Hrun.
  rewrite sdl_handle_key_event_unmapped, Hup, sdl_reset_keys_spec in Hrun
    by assumption.
  injection Hrun as <-.
  rewrite sdl_handle_key_event_unmapped, Hup' by assumption.
  rewrite sdl_reset_keys_spec.
  2:{ split; simpl; [apply length_replicate|].
      destruct (Z.to_nat NR_KEYS); simpl; discriminate. }
  simpl.
  assert (Hnone : released (replicate (Z.to_nat NR_KEYS) false) 1
                    (Z.to_nat (NR_KEYS - 1)) = []).
  { destruct (released _ 1 (Z.to_nat (NR_KEYS - 1))) as [|k ks] eqn:Hr;
      [reflexivity|].
    assert (Hin : In k (k :: ks)) by (left; reflexivity).
    rewrite <- Hr in Hin. apply released_In in Hin as [_ Hg].
    apply array_get_Some in Hg as [_ Hg].
    apply lookup_replicate in Hg as [? _]. discriminate. }
  rewrite Hnone, app_nil_r. reflexivity.
Qed.

(** ** A tick stays within defined behaviour *)

Lemma reset_keys_from_keeps_size (n : nat) :
  forall i : Z, keeps screen_size (reset_keys_from n i).
Proof.
  induction n as [|n IH]; intros i; simpl.
  - apply keeps_ret.
  - apply keeps_bind; [apply keeps_get | intros kp].
    apply keeps_bind; [apply keeps_defined | intros p].
    apply keeps_bind; [|intros _; apply IH].
    repeat keeps_step.
Qed.

Lemma dispatch_keeps_size (m : VirtMachine) (ev : SDL_Event) :
  keeps screen_size (dispatch m ev).
Proof.
  destruct ev; simpl;
    unfold sdl_handle_key_event, sdl_reset_keys,
      sdl_handle_mouse_motion_event, sdl_send_mouse_event;
    repeat first [apply reset_keys_from_keeps_size | keeps_step].
Qed.

Lemma sdl_send_mouse_event_returns (x1 y1 dz state : Z) (is_absolute : bool)
    (w : world) :
  (is_absolute = true -> 0 < screen_width w /\ 0 < screen_height w) ->
  exists x y,
    sdl_send_mouse_event x1 y1 dz state is_absolute w
    = (Ret tt,
       set_trace (trace w ++ [vm_send_mouse_event x y dz (button_mask state)])
         w).
Proof.
  intros Hsize. unfold sdl_send_mouse_event. destruct is_absolute.
  - destruct Hsize as [HW HH]; [reflexivity|].
    unfold bind, get. rewrite (int_div_pos _ _ HW). cbv [defined ret].
    rewrite (int_div_pos _ _ HH). eauto.
  - eauto.
Qed.

Lemma tick_safe_size (m : VirtMachine) (w w' : world) :
  tick_safe m w -> key_pressed_ok w' -> screen_size w' = screen_size w ->
  tick_safe m w'.
Proof.
  intros [_ Hs] Hok [= Hw Hh]. split; [exact Hok|]. rewrite Hw, Hh. exact Hs.
Qed.

(** Any event but a quit event is handled with a normal return. *)
Lemma dispatch_returns (m : VirtMachine) (ev : SDL_Event) (w : world) :
  tick_safe m w -> host_event ev -> ev <> SDL_QUIT ->
  exists w', dispatch m ev w = (Ret tt, w') /\ tick_safe m w'.
Proof.
  intros Hsafe Hev Hq.
  assert (Hkeep : forall w', dispatch m ev w = (Ret tt, w') ->
                             key_pressed_ok w' -> tick_safe m w').
  { intros w' Hrun Hok. eapply tick_safe_size; [exact Hsafe|exact Hok|].
    exact (dispatch_keeps_size m ev _ _ _ Hrun). }
  destruct Hsafe as [Hok Hsize].
  destruct ev; simpl in *; try contradiction; eauto.
  - destruct (sdl_handle_key_event_returns
                {| key_down := true; key_scancode := scancode |} w Hev Hok)
      as [w' Hrun].
    exists w'. split; [exact Hrun|]. apply Hkeep; [exact Hrun|].
    eapply sdl_handle_key_event_ok; eauto.
  - destruct (sdl_handle_key_event_returns
                {| key_down := false; key_scancode := scancode |} w Hev Hok)
      as [w' Hrun].
    exists w'. split; [exact Hrun|]. apply Hkeep; [exact Hrun|].
    eapply sdl_handle_key_event_ok; eauto.
  - unfold sdl_handle_mouse_motion_event.
    destruct (sdl_send_mouse_event_returns
                (if mouse_is_absolute m then x else xrel)
                (if mouse_is_absolute m then y else yrel)
                0 state (mouse_is_absolute m) w Hsize) as (gx & gy & Hrun).
    eexists. split; [exact Hrun|]. apply Hkeep; [exact Hrun | exact Hok].
Qed.

Lemma poll_events_returns (m : VirtMachine) (q : list SDL_Event) :
  forall (w w' : world) (o : outcome unit),
    tick_safe m w -> Forall host_event q ->
    poll_events m q w = (o, w') ->
    (o = Ret tt /\ ~ In SDL_QUIT q) \/ (o = Exit 0 /\ In SDL_QUIT q).
Proof.
  induction q as [|ev q IH]; intros w w' o Hsafe Hq.
  - intros [= <- <-]. left. split; [reflexivity | tauto].
  - apply Forall_cons in Hq as [Hev Hq]. rewrite poll_events_cons.
    assert (Hdec : ev = SDL_QUIT \/ ev <> SDL_QUIT)
      by (destruct ev; (left; reflexivity) || (right; discriminate)).
    destruct Hdec as [->|Hnq].
    + simpl. intros [= <- <-]. right. split; [reflexivity | left; reflexivity].
    + destruct (dispatch_returns m ev (set_pending q w)) as (w1 & -> & Hs1);
        [exact Hsafe | exact Hev | exact Hnq |].
      intros Hrest.
      destruct (IH _ _ _ Hs1 Hq Hrest) as [[-> Hn]|[-> Hin]].
      * left. split; [reflexivity|]. intros [Heq|Hin]; [congruence|tauto].
      * right. split; [reflexivity | right; exact Hin].
Qed.

(** X6. A tick never leaves defined behaviour: with [key_pressed] well
    formed, key events carrying host scancodes and, when the pointer is
    absolute, a stored window size that is positive, [sdl_refresh] ends in
    exactly one of three ways: it returns, with the queue empty and no quit
    event having been queued; it exits with status 0, a quit event having
    been queued; or it exits with status 1 from the surface check. *)
Theorem tick_never_faults (m : VirtMachine) (w w' : world) (o : outcome unit) :
  key_pressed_ok w ->
  Forall host_event (pending w) ->
  (mouse_is_absolute m = true -> 0 < screen_width w /\ 0 < screen_height w) ->
  sdl_refresh m w = (o, w') ->
  (o = Ret tt /\ (fb_dev m = None \/ pending w' = [])
   /\ (fb_dev m <> None -> ~ In SDL_QUIT (pending w)))
  \/ (o = Exit 0 /\ In SDL_QUIT (pending w))
  \/ (o = Exit 1
      /\ exists fb w1, fb_dev m = Some fb
                       /\ sdl_update_fb_surface fb w = (Exit 1, w1)).
Proof.
  intros Hok Hq Hsize Hrun. unfold sdl_refresh in Hrun.
  destruct (fb_dev m) as [fb|] eqn:Hfb.
  2:{ injection Hrun as <- <-.
      left. split; [reflexivity|]. split; [left; reflexivity | congruence]. }
  destruct (sdl_update_fb_surface fb w) as [o1 w1] eqn:H1.
  destruct (sdl_update_fb_surface_post fb _ _ _ H1)
    as [->|(-> & _ & _ & _ & s & Hs)].
  - rewrite (bind_Exit _ _ _ _ _ H1) in Hrun. injection Hrun as <- <-.
    right. right. split; [reflexivity|]. eauto.
  - rewrite (bind_Ret _ _ _ _ _ H1) in Hrun. unfold refresh in Hrun.
    rewrite (bind_Ret _ _ _ _ _ (refresh_sdl_update fb s (dirty fb) w1 Hs))
      in Hrun.
    unfold bind, get in Hrun. cbn [pending set_trace] in Hrun.
    pose proof (blind_keeps_pending _ _ _ _
                  (sdl_update_fb_surface_blind fb) H1) as Hq1.
    assert (Hsafe : tick_safe m
              (set_trace
                 (trace w1 ++ flat_map (present_calls w1 s) (dirty fb)) w1)).
    { split.
      - unfold key_pressed_ok. simpl.
        rewrite (sdl_update_fb_surface_keeps_keys fb _ _ _ H1). exact Hok.
      - simpl.
        assert (Hk : keeps screen_size (sdl_update_fb_surface fb))
          by (unfold sdl_update_fb_surface; repeat keeps_step).
        injection (Hk _ _ _ H1) as -> ->. exact Hsize. }
    rewrite <- Hq1 in Hq.
    destruct (poll_events_returns m _ _ _ _ Hsafe Hq Hrun)
      as [[-> Hn]|[-> Hin]]; rewrite Hq1 in *.
    + left. split; [reflexivity|]. split; [|intros _; exact Hn].
      right. eapply poll_events_drains; [|exact Hrun]. exact Hq1.
    + right. left. auto.
Qed.

(** ** The pointer's buttons and coordinates *)

Lemma land_pow2 (a n : Z) :
  0 <= n -> Z.land a (2 ^ n) = if Z.testbit a n then 2 ^ n else 0.
Proof.
  intros Hn. apply Z.bits_inj'. intros i Hi.
  rewrite Z.land_spec, Z.pow2_bits_eqb by exact Hn.
  destruct (Z.eqb_spec n i) as [->|Hne].
  - destruct (Z.testbit a i) eqn:Ha; rewrite ?andb_true_r.
    + rewrite Z.pow2_bits_true by exact Hi. reflexivity.
    + rewrite Z.bits_0. reflexivity.
  - rewrite andb_false_r.
    destruct (Z.testbit a n); [|rewrite Z.bits_0; reflexivity].
    rewrite Z.pow2_bits_false by exact Hne. reflexivity.
Qed.

(** X7. The button mask sent to the guest has bit 0 set exactly when the
    host reports the left button (bit 0 of its state), bit 1 exactly for
    the right button (host bit 2), bit 2 exactly for the middle button
    (host bit 1), and no other bit: further host buttons are dropped and
    the mask is between 0 and 7. *)
Theorem button_mask_bits (state : Z) :
  Z.testbit (button_mask state) 0 = Z.testbit state 0
  /\ Z.testbit (button_mask state) 1 = Z.testbit state 2
  /\ Z.testbit (button_mask state) 2 = Z.testbit state 1
  /\ (forall i, 3 <= i -> Z.testbit (button_mask state) i = false)
  /\ 0 <= button_mask state <= 7.
Proof.
  unfold button_mask, SDL_BUTTON, SDL_BUTTON_LEFT, SDL_BUTTON_RIGHT,
    SDL_BUTTON_MIDDLE.
  change (Z.shiftl 1 (1 - 1)) with (2 ^ 0).
  change (Z.shiftl 1 (3 - 1)) with (2 ^ 2).
  change (Z.shiftl 1 (2 - 1)) with (2 ^ 1).
  rewrite !land_pow2 by lia.
  assert (Hhigh : forall c i, 0 <= c <= 7 -> 3 <= i -> Z.testbit c i = false).
  { intros c i Hc Hi. destruct (Z.eq_dec c 0) as [->|Hc0];
      [apply Z.bits_0|].
    apply Z.bits_above_log2; [lia|].
    assert (Z.log2 c < 3); [|lia]. apply Z.log2_lt_pow2; lia. }
  destruct (Z.testbit state 0), (Z.testbit state 2), (Z.testbit state 1);
    (split; [vm_compute; reflexivity|]);
    (split; [vm_compute; reflexivity|]);
    (split; [vm_compute; reflexivity|]);
    (split; [intros i Hi; apply Hhigh; [|exact Hi]|]);
    vm_compute; split; discriminate.
Qed.

(** X8. With a stored window width or height of 0, a motion event in
    absolute mode divides by zero: nothing is sent to the guest. *)
Theorem absolute_motion_zero_size (m : VirtMachine) (w : world)
    (state x y xrel yrel : Z) :
  mouse_is_absolute m = true ->
  screen_width w = 0 \/ screen_height w = 0 ->
  sdl_handle_mouse_motion_event state x y xrel yrel m w = (Undef, w).
Proof.
  intros Habs Hzero.
  unfold sdl_handle_mouse_motion_event, sdl_send_mouse_event.
  rewrite Habs. unfold bind, get. destruct Hzero as [Hz|Hz].
  - rewrite Hz. reflexivity.
  - destruct (int_div (int_mul x 32768) (screen_width w)); cbv [defined ret];
      [rewrite Hz|]; reflexivity.
Qed.

Lemma absolute_motion_event (m : VirtMachine) (w : world)
    (state x y xrel yrel : Z) :
  mouse_is_absolute m = true ->
  0 < screen_width w -> 0 < screen_height w ->
  - 65536 <= x < 65536 -> - 65536 <= y < 65536 ->
  sdl_handle_mouse_motion_event state x y xrel yrel m w
  = (Ret tt,
     set_trace
       (trace w ++ [vm_send_mouse_event (x * 32768 ÷ screen_width w)
                      (y * 32768 ÷ screen_height w) 0 (button_mask state)])
       w).
Proof.
  intros Habs HW HH Hx Hy.
  unfold sdl_handle_mouse_motion_event, sdl_send_mouse_event.
  rewrite Habs. unfold bind, get.
  rewrite (scale_coordinate x _ HW Hx). cbv [defined ret].
  rewrite (scale_coordinate y _ HH Hy). reflexivity.
Qed.

(** X9. In absolute mode the scaling keeps the order of coordinates: of
    two motion events on the same row, the one further right is delivered
    with an x coordinate at least as large; likewise for y. *)
Theorem mouse_scaling_monotone (m : VirtMachine) (w : world)
    (state x1 x2 y1 y2 xrel yrel : Z) :
  mouse_is_absolute m = true ->
  0 < screen_width w -> 0 < screen_height w ->
  - 65536 <= x1 <= x2 -> x2 < 65536 ->
  - 65536 <= y1 <= y2 -> y2 < 65536 ->
  exists gx1 gy1 gx2 gy2 : Z,
    sdl_handle_mouse_motion_event state x1 y1 xrel yrel m w
    = (Ret tt,
       set_trace
         (trace w ++ [vm_send_mouse_event gx1 gy1 0 (button_mask state)]) w)
    /\ sdl_handle_mouse_motion_event state x2 y2 xrel yrel m w
       = (Ret tt,
          set_trace
            (trace w ++ [vm_send_mouse_event gx2 gy2 0 (button_mask state)])
            w)
    /\ gx1 <= gx2 /\ gy1 <= gy2.
Proof.
  intros Habs HW HH Hx Hx2 Hy Hy2.
  pose proof (absolute_motion_event m w state x1 y1 xrel yrel Habs HW HH
                ltac:(lia) ltac:(lia)) as H1.
  pose proof (absolute_motion_event m w state x2 y2 xrel yrel Habs HW HH
                ltac:(lia) ltac:(lia)) as H2.
  do 4 eexists. split; [exact H1|]. split; [exact H2|].
  split; apply Z.quot_le_mono; lia.
Qed.

(** ** The surface check, case by case *)

Lemma geometry_differs_false (fb : FBDevice) (w : world) :
  fb_width w = width fb -> fb_height w = height fb ->
  fb_stride w = stride fb -> geometry_differs fb w = false.
Proof.
  unfold geometry_differs. intros -> -> ->. rewrite !Z.eqb_refl. reflexivity.
Qed.

(** X10. Once [sdl_update_fb_surface] has returned for a device, running it
    again for a device of the same width, height and stride does nothing at
    all: no call is made and the world is unchanged.  Only those three are
    compared: a device that differs in its pixel memory alone does not get
    a new surface. *)
Theorem sdl_update_fb_surface_settles (fb fb' : FBDevice) (w w1 : world) :
  sdl_update_fb_surface fb w = (Ret tt, w1) ->
  width fb' = width fb -> height fb' = height fb -> stride fb' = stride fb ->
  sdl_update_fb_surface fb' w1 = (Ret tt, w1).
Proof.
  intros H1 Hw' Hh' Hs'.
  destruct (sdl_update_fb_surface_post fb _ _ _ H1)
    as [Hex|(_ & Hw & Hh & Hst & s & Hs)]; [discriminate|].
  unfold sdl_update_fb_surface, bind, get.
  rewrite Hs, (geometry_differs_false fb' w1) by congruence. reflexivity.
Qed.

(** X11. The outcomes of the surface check.  It returns without a call
    when a surface exists and the cached geometry is the device's.
    Otherwise it caches the device's geometry and either returns with a new
    surface that views the device's pixels at the device's stride, a new
    renderer and a new texture, all three alive; or exits with status 1,
    its last call being a diagnostic on stderr, with the surface, the
    renderer or the texture left NULL. *)
Theorem sdl_update_fb_surface_outcomes (fb : FBDevice) (w w1 : world)
    (o : outcome unit) :
  sdl_update_fb_surface fb w = (o, w1) ->
  (o = Ret tt /\ w1 = w /\ fb_surface w <> None
   /\ geometry_differs fb w = false)
  \/ (fb_width w1 = width fb /\ fb_height w1 = height fb
      /\ fb_stride w1 = stride fb
      /\ ((o = Ret tt
           /\ exists hs hr ht,
               fb_surface w1
               = Some {| surface_id := hs; pixels := fb_data fb;
                         pitch := stride fb |}
               /\ renderer w1 = Some hr /\ texture w1 = Some ht
               /\ In hs (live w1) /\ In hr (live w1) /\ In ht (live w1))
          \/ (o = Exit 1
              /\ (exists msg, last (trace w1) = Some (fprintf_stderr msg))
              /\ (fb_surface w1 = None \/ renderer w1 = None
                  \/ texture w1 = None)))).
Proof.
  unfold sdl_update_fb_surface, bind, get, modify, create, destroy, call,
    exit, ret.
  destruct (fb_surface w) as [s0|] eqn:Hs;
    [destruct (geometry_differs fb w) eqn:Hg|]; simpl.
  - destruct (fresh w) as [|[h1|] [|[h2|] [|[h3|] rest]]]; simpl;
      intros [= <- <-]; right; simpl; (do 3 (split; [reflexivity|]));
      first [ left; split; [reflexivity|]; do 3 eexists;
              split; [reflexivity|]; simpl; tauto
            | right; split; [reflexivity|];
              split; [eexists; apply last_snoc | tauto] ].
  - intros [= <- <-]. left.
    split; [reflexivity|]. split; [reflexivity|]. split; congruence.
  - destruct (fresh w) as [|[h1|] [|[h2|] [|[h3|] rest]]]; simpl;
      intros [= <- <-]; right; simpl; (do 3 (split; [reflexivity|]));
      first [ left; split; [reflexivity|]; do 3 eexists;
              split; [reflexivity|]; simpl; tauto
            | right; split; [reflexivity|];
              split; [eexists; apply last_snoc | tauto] ].
Qed.

(** X12. The surface check releases at most the surface it replaces:
    whatever else SDL holds alive before the call, the previous renderer
    and texture included, is still alive after it, however it ends. *)
Theorem sdl_update_fb_surface_releases_surface_only (fb : FBDevice)
    (w w1 : world) (o : outcome unit) (h : Z) :
  sdl_update_fb_surface fb w = (o, w1) ->
  In h (live w) ->
  (forall s, fb_surface w = Some s -> surface_id s <> h) ->
  In h (live w1).
Proof.
  intros Hrun Hlive Hnot.
  assert (Hfilter : forall id, id <> h ->
            In h (filter (fun h' => h' <> id) (live w))).
  { intros id Hid. apply list_elem_of_In, list_elem_of_filter.
    split; [congruence|]. apply list_elem_of_In, Hlive. }
  revert Hrun.
  unfold sdl_update_fb_surface, bind, get, modify, create, destroy, call,
    exit, ret.
  destruct (fb_surface w) as [s0|] eqn:Hs;
    [destruct (geometry_differs fb w) eqn:Hg|]; simpl.
  - specialize (Hfilter (surface_id s0) (Hnot s0 eq_refl)).
    destruct (fresh w) as [|[h1|] [|[h2|] [|[h3|] rest]]]; simpl;
      intros [= <- <-]; simpl; tauto.
  - intros [= <- <-]. exact Hlive.
  - destruct (fresh w) as [|[h1|] [|[h2|] [|[h3|] rest]]]; simpl;
      intros [= <- <-]; simpl; tauto.
Qed.

(** ** The stride the presenter copies with *)

Lemma sdl_update_fb_surface_fits (fb : FBDevice) (w w1 : world)
    (o : outcome unit) :
  surface_fits w -> sdl_update_fb_surface fb w = (o, w1) -> surface_fits w1.
Proof.
  intros Hfit. unfold surface_fits.
  unfold sdl_update_fb_surface, bind, get, modify, create, destroy, call,
    exit, ret.
  destruct (fb_surface w) as [s0|] eqn:Hs;
    [destruct (geometry_differs fb w) eqn:Hg|]; simpl.
  - destruct (fresh w) as [|[h1|] [|[h2|] [|[h3|] rest]]]; simpl;
      intros [= <- <-] s; simpl; intros [= <-]; reflexivity.
  - intros [= <- <-] s Hs'. apply Hfit. exact Hs'.
  - destruct (fresh w) as [|[h1|] [|[h2|] [|[h3|] rest]]]; simpl;
      intros [= <- <-] s; simpl; intros [= <-]; reflexivity.
Qed.

Lemma dispatch_keeps_surface (m : VirtMachine) (ev : SDL_Event) :
  keeps (fun w => (fb_surface w, fb_stride w)) (dispatch m ev).
Proof.
  assert (Hreset : forall n i,
            keeps (fun w => (fb_surface w, fb_stride w))
              (reset_keys_from n i)).
  { induction n as [|n IH]; intros i; simpl.
    - apply keeps_ret.
    - apply keeps_bind; [apply keeps_get | intros kp].
      apply keeps_bind; [apply keeps_defined | intros p].
      apply keeps_bind; [|intros _; apply IH].
      repeat keeps_step. }
  destruct ev; simpl;
    unfold sdl_handle_key_event, sdl_reset_keys,
      sdl_handle_mouse_motion_event, sdl_send_mouse_event;
    repeat first [apply Hreset | keeps_step].
Qed.

Lemma poll_events_keeps_surface (m : VirtMachine) (q : list SDL_Event) :
  keeps (fun w => (fb_surface w, fb_stride w)) (poll_events m q).
Proof.
  induction q as [|ev q IH]; simpl.
  - apply keeps_ret; reflexivity.
  - apply keeps_bind; [apply keeps_modify; reflexivity | intros _].
    apply keeps_bind; [apply dispatch_keeps_surface | intros _]. exact IH.
Qed.

(** X13. Starting from a world whose surface, if any, was made with the
    cached stride (as at start-up, where there is none), every texture
    update a tick makes copies rows at the stride of the device that tick
    was given, and the world it leaves has that property again: after a
    change of geometry the presenter never copies with the old stride. *)
Theorem presenter_uses_current_stride (m : VirtMachine) (fb : FBDevice)
    (w w' : world) (o : outcome unit) :
  surface_fits w -> fb_dev m = Some fb ->
  sdl_refresh m w = (o, w') ->
  surface_fits w'
  /\ exists added,
       trace w' = trace w ++ added
       /\ Forall (updates_at_stride (stride fb)) added.
Proof.
  intros Hfit Hfb. unfold sdl_refresh. rewrite Hfb.
  destruct (sdl_update_fb_surface fb w) as [o1 w1] eqn:H1.
  pose proof (sdl_update_fb_surface_fits fb _ _ _ Hfit H1) as Hfit1.
  destruct (sdl_update_fb_surface_emits fb _ _ _ H1) as (T1 & HT1 & HP1).
  assert (HQ1 : Forall (updates_at_stride (stride fb)) T1)
    by (eapply Forall_impl; [exact HP1|]; intros []; simpl; tauto).
  destruct (sdl_update_fb_surface_post fb _ _ _ H1)
    as [->|(-> & _ & _ & Hst & s & Hs)].
  - rewrite (bind_Exit _ _ _ _ _ H1). intros [= <- <-]. eauto.
  - rewrite (bind_Ret _ _ _ _ _ H1). unfold refresh.
    rewrite (bind_Ret _ _ _ _ _ (refresh_sdl_update fb s (dirty fb) w1 Hs)).
    unfold bind, get. cbn [pending set_trace].
    set (w2 := set_trace
                 (trace w1 ++ flat_map (present_calls w1 s) (dirty fb)) w1).
    intros Hpoll.
    injection (poll_events_keeps_surface m _ _ _ _ Hpoll) as Hsurf Hstr.
    destruct (poll_events_emits m _ _ _ _ Hpoll) as (T3 & HT3 & HP3).
    split.
    + intros s' Hs'. rewrite Hsurf in Hs'. rewrite Hstr. apply Hfit1, Hs'.
    + exists (T1 ++ flat_map (present_calls w1 s) (dirty fb) ++ T3).
      split.
      * rewrite HT3. unfold w2. cbn [trace set_trace].
        rewrite HT1, <- !app_assoc. reflexivity.
      * apply Forall_app. split; [exact HQ1|]. apply Forall_app. split.
        -- apply Forall_forall. intros a Ha.
           apply list_elem_of_In, in_flat_map in Ha as (r & _ & Ha).
           unfold present_calls in Ha. simpl in Ha.
           destruct Ha as [<-|[<-|[<-|[]]]]; simpl; auto.
           rewrite (Hfit1 s Hs). exact Hst.
        -- eapply Forall_impl; [exact HP3|].
           intros [] [Ha _]; simpl in *; tauto.
Qed.

(** ** The event loop and the keyboard, composed *)

(** X14. Events are handled one by one in queue order, and what is still
    queued has no influence on how an event is handled: if polling the
    queue [q1] returns, polling [q1 ++ q2] does the same and then carries on
    with [q2]. *)
Theorem poll_events_app (m : VirtMachine) (q1 q2 : list SDL_Event)
    (w w1 : world) :
  poll_events m q1 w = (Ret tt, w1) ->
  poll_events m (q1 ++ q2) w = poll_events m q2 w1.
Proof.
  destruct q2 as [|ev2 q2].
  { rewrite app_nil_r. intros ->. reflexivity. }
  revert w w1. induction q1 as [|ev q1 IH]; intros w w1.
  - intros [= <-]. reflexivity.
  - rewrite <- app_comm_cons, !poll_events_cons.
    destruct (dispatch m ev (set_pending q1 w)) as [o w'] eqn:Hd.
    pose proof (dispatch_blind m ev (q1 ++ ev2 :: q2) (set_pending q1 w))
      as Hb.
    rewrite Hd in Hb.
    change (set_pending (q1 ++ ev2 :: q2) (set_pending q1 w))
      with (set_pending (q1 ++ ev2 :: q2) w) in Hb.
    rewrite Hb. destruct o as [[]|n|]; try discriminate.
    intros Hrest.
    rewrite poll_events_overwrites by (destruct q1; discriminate).
    rewrite (IH _ _ Hrest). reflexivity.
Qed.

(** X15. Pressing and then releasing an ordinary key (mapped, not a lock
    key, with an entry in [key_pressed]) that was not marked pressed sends
    the guest a key-down and then a key-up for its keycode and leaves
    [key_pressed] exactly as it was. *)
Theorem press_then_release (sc keycode : Z) (w : world) :
  sdl_get_keycode {| key_down := true; key_scancode := sc |} = Some keycode ->
  keycode <> 0 -> keycode <> 0x3a -> keycode <> 0x45 ->
  keycode < NR_KEYS ->
  length (key_pressed w) = Z.to_nat NR_KEYS ->
  array_get (key_pressed w) keycode = Some false ->
  (sdl_handle_key_event {| key_down := true; key_scancode := sc |} ;;
   sdl_handle_key_event {| key_down := false; key_scancode := sc |}) w
  = (Ret tt,
     set_trace (trace w ++ [vm_send_key_event true keycode;
                            vm_send_key_event false keycode]) w).
Proof.
  intros Hk H0 Hc Hn Hlt Hlen Hup.
  assert (Hk' : sdl_get_keycode {| key_down := false; key_scancode := sc |}
                = Some keycode) by exact Hk.
  pose proof (sdl_get_keycode_nonneg _ _ Hk) as Hnn.
  rewrite (bind_Ret _ _ _ _ _
             (sdl_handle_key_event_plain _ keycode w Hk H0 Hc Hn Hlen)).
  destruct (Z.ltb_spec keycode NR_KEYS) as [_|]; [|lia].
  rewrite (sdl_handle_key_event_plain _ keycode _ Hk' H0 Hc Hn)
    by (simpl; rewrite length_insert; exact Hlen).
  destruct (Z.ltb_spec keycode NR_KEYS) as [_|]; [|lia].
  cbn [key_down key_pressed trace set_trace set_key_pressed].
  rewrite list_insert_insert_eq.
  apply array_get_Some in Hup as [_ Hup].
  rewrite (list_insert_id _ _ _ Hup), <- app_assoc.
  destruct w; reflexivity.
Qed.

(** ** Start-up *)

(** X16. Start-up from a fresh process.  [sdl_init] returns exactly when
    [SDL_Init] reports success, a window is created and an audio device is
    opened; otherwise it exits with status 1, its last call being a
    diagnostic, and the steps after the one that failed are not attempted.
    The window size is stored before anything can fail.  A cursor that
    could not be created does not stop start-up.  On return the globals are
    those of [initial_world] for the given size and the tone generator is
    at rest with the sample rate SDL granted. *)
Theorem sdl_init_outcomes (width height : Z) (host : sdl_host) :
  let r := sdl_init width height host process_start in
  (r.1 = Ret tt
   <-> init_status host = 0 /\ new_window host <> None
       /\ new_device host <> 0)
  /\ (r.1 = Ret tt \/ r.1 = Exit 1)
  /\ screen_size (globals r.2) = (width, height)
  /\ (r.1 = Exit 1 ->
      exists msg, last (init_calls r.2) = Some (init_stderr msg))
  /\ (init_status host <> 0 -> length (init_calls r.2) = 2%nat)
  /\ (init_status host = 0 -> new_window host = None ->
      length (init_calls r.2) = 3%nat /\ dev r.2 = 0)
  /\ (r.1 = Ret tt ->
      globals r.2 = initial_world width height
      /\ tone_state r.2
         = {| beepfreq := 0; v := 0%float;
              have_freq := obtained_freq host |}
      /\ window r.2 = new_window host
      /\ sdl_cursor_hidden r.2 = new_cursor host
      /\ dev r.2 = new_device host
      /\ last (init_calls r.2)
         = Some (SDL_PauseAudioDevice (new_device host) 0)).
Proof.
  destruct host as [status win cur device freq]. intros r. subst r.
  cbn [init_status new_window new_cursor new_device obtained_freq].
  destruct status as [|ps|ns], win as [hw|], device as [|pd|nd];
    vm_compute;
    repeat match goal with
           | |- _ /\ _ => split
           | |- _ <-> _ => split
           end;
    try solve [ intros; discriminate
              | intros; reflexivity
              | intros; exfalso; tauto
              | intros; eauto
              | intros (? & ? & ?); congruence
              | intros; repeat split; congruence
              | left; reflexivity | right; reflexivity ].
Qed.

End Driver.

(** ** The tone generator *)

(** Adding the [int] 0 leaves a [double] as it is, a negative zero apart
    (which becomes the positive one). *)
Lemma double_add_zero (x : float) :
  Prim2SF x <> S754_zero true -> (x + double_of_int 0)%float = x.
Proof.
  intros Hx. apply Prim2SF_inj. rewrite FloatAxioms.add_spec.
  change (Prim2SF (double_of_int 0)) with (S754_zero false).
  unfold SF64add. destruct (Prim2SF x) as [[|]| | |]; try reflexivity.
  contradiction.
Qed.

(** Rounding a number that is not zero, at an exponent the format has,
    gives neither a zero nor a NaN (binary64 has subnormals). *)
Lemma iter_pos_nat {A : Type} (f : A -> A) (p : positive) :
  forall x : A, SpecFloat.iter_pos f p x = Nat.iter (Pos.to_nat p) f x.
Proof.
  induction p as [p IH|p IH|]; intros x; simpl SpecFloat.iter_pos.
  - rewrite !IH, Pos2Nat.inj_xI, <- Nat.iter_add, <- Nat.iter_succ_r.
    f_equal. lia.
  - rewrite !IH, Pos2Nat.inj_xO, <- Nat.iter_add. f_equal. lia.
  - reflexivity.
Qed.

Lemma shr_1_half (r : shr_record) (k : Z) :
  0 <= k -> 2 ^ (k + 1) <= shr_m r -> 2 ^ k <= shr_m (shr_1 r).
Proof.
  intros Hk. rewrite Z.pow_add_r by lia. change (2 ^ 1) with 2.
  pose proof (Z.pow_pos_nonneg 2 k ltac:(lia) Hk) as Hp.
  destruct r as [[|[p|p|]|p] b s]; simpl; lia.
Qed.

Lemma shr_iter_half (n : nat) (r : shr_record) :
  forall k : Z,
    0 <= k -> 2 ^ (Z.of_nat n + k) <= shr_m r ->
    2 ^ k <= shr_m (Nat.iter n shr_1 r).
Proof.
  induction n as [|n IH]; intros k Hk Hr; [exact Hr|].
  simpl Nat.iter. apply shr_1_half; [exact Hk|]. apply IH; [lia|].
  replace (Z.of_nat n + (k + 1)) with (Z.of_nat (S n) + k) by lia. exact Hr.
Qed.

Lemma digits2_pos_le (m : positive) :
  2 ^ (Z.pos (digits2_pos m) - 1) <= Z.pos m.
Proof.
  induction m as [m IH|m IH|]; simpl digits2_pos; [| |simpl; lia].
  all: rewrite Pos2Z.inj_succ;
    replace (Z.succ (Z.pos (digits2_pos m)) - 1)
      with (Z.pos (digits2_pos m) - 1 + 1) by lia;
    rewrite Z.pow_add_r by lia; lia.
Qed.

Lemma shr_fexp_positive (m : positive) (e : Z) (l : location) :
  emin <= e ->
  0 < shr_m (shr_fexp prec emax (Z.pos m) e l).1
  /\ emin <= (shr_fexp prec emax (Z.pos m) e l).2.
Proof.
  intros He. unfold shr_fexp, shr. simpl Zdigits2.
  pose proof (digits2_pos_le m) as Hd.
  assert (Hn : fexp prec emax (Z.pos (digits2_pos m) + e) - e
               <= Z.pos (digits2_pos m) - 1).
  { unfold fexp, SpecFloat.emin, prec, emax in *.
    change IntDef.Z.max with Z.max. lia. }
  destruct (fexp prec emax (Z.pos (digits2_pos m) + e) - e) as [|q|q] eqn:Hq;
    cbn [fst snd].
  1,3: split; [destruct l as [|[| |]]; simpl; lia | exact He].
  split; [|lia]. rewrite iter_pos_nat.
  assert (2 ^ 0 <= shr_m (Nat.iter (Pos.to_nat q) shr_1
                            (shr_record_of_loc (Z.pos m) l))); [|simpl in *; lia].
  apply shr_iter_half; [lia|]. rewrite positive_nat_Z, Z.add_0_r.
  replace (shr_m (shr_record_of_loc (Z.pos m) l)) with (Z.pos m)
    by (destruct l as [|[| |]]; reflexivity).
  etransitivity; [|exact Hd]. apply Z.pow_le_mono_r; lia.
Qed.

Lemma binary_round_aux_shape (sx : bool) (m : positive) (e : Z)
    (l : location) :
  emin <= e -> signed_nonzero sx (binary_round_aux prec emax sx (Z.pos m) e l).
Proof.
  intros He. unfold binary_round_aux.
  destruct (shr_fexp_positive m e l He) as [Hm1 He1].
  destruct (shr_fexp prec emax (Z.pos m) e l) as [r1 e1]. cbn [fst snd] in *.
  set (m1 := round_nearest_even (shr_m r1) (loc_of_shr_record r1)).
  assert (Hm1' : 0 < m1).
  { subst m1. unfold round_nearest_even.
    destruct (loc_of_shr_record r1) as [|[| |]];
      try destruct (Z.even (shr_m r1)); fold Z.even; lia. }
  destruct m1 as [|p1|p1]; try lia.
  destruct (shr_fexp_positive p1 e1 loc_Exact He1) as [Hm2 _].
  destruct (shr_fexp prec emax (Z.pos p1) e1 loc_Exact) as [r2 e2].
  cbn [fst snd] in *.
  destruct (shr_m r2); try lia.
  destruct (e2 <=? emax - prec); reflexivity.
Qed.

Lemma binary_round_shape (sx : bool) (m : positive) (e : Z) :
  emin <= e -> signed_nonzero sx (binary_round prec emax sx m e).
Proof.
  intros He. unfold binary_round, shl_align.
  destruct (fexp prec emax (Z.pos (digits2_pos m) + e) - e) as [|d|d] eqn:Hd;
    apply binary_round_aux_shape; [exact He | exact He |].
  unfold fexp, SpecFloat.emin, prec, emax in *.
  change IntDef.Z.max with Z.max. lia.
Qed.

Lemma valid_binary_emin (s : bool) (m : positive) (e : Z) :
  valid_binary (S754_finite s m e) = true -> emin <= e.
Proof.
  unfold SpecFloat.valid_binary, bounded, canonical_mantissa.
  intros H. apply andb_prop in H as [H _]. apply Z.eqb_eq in H.
  unfold fexp, SpecFloat.emin, prec, emax in *.
  change IntDef.Z.max with Z.max in H. lia.
Qed.

(** The sum of two [double]s is the negative zero only when both are. *)
Lemma double_add_negative_zero (x y : float) :
  Prim2SF (x + y)%float = S754_zero true ->
  Prim2SF x = S754_zero true /\ Prim2SF y = S754_zero true.
Proof.
  rewrite FloatAxioms.add_spec. unfold SF64add, SFadd.
  pose proof (Prim2SF_valid x) as Hx. pose proof (Prim2SF_valid y) as Hy.
  destruct (Prim2SF x) as [[|]|[|]| |sx mx ex],
           (Prim2SF y) as [[|]|[|]| |sy my ey];
    try discriminate; try (intros _; split; reflexivity).
  apply valid_binary_emin in Hx, Hy.
  intros H. exfalso. revert H. unfold binary_normalize.
  change IntDef.Z.min with Z.min.
  match goal with
  | |- context [match ?m with Z0 => _ | Zpos _ => _ | Zneg _ => _ end] =>
      destruct m
  end; [discriminate | |];
    match goal with
    | |- binary_round _ _ ?s ?m ?e = _ -> _ =>
        intros H; assert (He : emin <= e) by lia;
          pose proof (binary_round_shape s m e He) as Hs;
          rewrite H in Hs; exact Hs
    end.
Qed.

(** A positive [int] converts to a positive [double]. *)
Lemma double_of_int_positive (z : Z) :
  0 < z <= INT_MAX -> signed_nonzero false (Prim2SF (double_of_int z)).
Proof.
  unfold INT_MAX. intros Hz. unfold double_of_int.
  destruct (Z.ltb_spec z 0) as [|_]; [lia|].
  rewrite of_uint63_spec, Uint63.of_Z_spec.
  rewrite Z.mod_small
    by (change Uint63.wB with 9223372036854775808; lia).
  destruct z as [|p|p]; try lia. apply binary_round_shape.
  unfold SpecFloat.emin, prec, emax. lia.
Qed.

(** Zero divided by a positive [double] is zero. *)
Lemma double_zero_div (x : float) :
  signed_nonzero false (Prim2SF x) -> (0 / x)%float = 0%float.
Proof.
  intros Hpos. apply Prim2SF_inj. rewrite FloatAxioms.div_spec.
  change (Prim2SF 0) with (S754_zero false).
  unfold SF64div. destruct (Prim2SF x) as [[|]|[|]| |[|] m e];
    try contradiction; try discriminate Hpos; reflexivity.
Qed.

Section ToneProperties.

Variable sin : float -> float.

Lemma audio_step_silent (t : tone) :
  beepfreq t = 0 -> Prim2SF (v t) <> S754_zero true ->
  audio_step sin t = (sample_of sin t, t).
Proof.
  intros Hf Hv. unfold audio_step. rewrite Hf, double_add_zero by exact Hv.
  rewrite <- Hf. destruct t; reflexivity.
Qed.

Lemma audio_fill_silent (n : nat) (t : tone) :
  beepfreq t = 0 -> Prim2SF (v t) <> S754_zero true ->
  audio_fill sin n t = (replicate n (sample_of sin t), t).
Proof.
  intros Hf Hv. induction n as [|n IH]; [reflexivity|].
  cbn [audio_fill]. rewrite (audio_step_silent t Hf Hv), IH. reflexivity.
Qed.

(** At phase 0 the argument of [sin] is 0 and the sample is 0, when the
    rate is positive and [sin] is 0 at 0. *)
Lemma sample_of_rest (t : tone) :
  v t = 0%float -> 0 < have_freq t <= INT_MAX -> sin 0%float = 0%float ->
  sample_of sin t = Some 0.
Proof.
  intros Hv Hrate Hsin. unfold sample_of. rewrite Hv.
  change (0 * double_of_int 2 * M_PI)%float with 0%float.
  rewrite (double_zero_div _ (double_of_int_positive _ Hrate)), Hsin.
  reflexivity.
Qed.

(** The phase, once it is not the negative zero, never becomes it. *)
Lemma audio_fill_phase_sign (n : nat) :
  forall t : tone,
    Prim2SF (v t) <> S754_zero true ->
    Prim2SF (v (audio_fill sin n t).2) <> S754_zero true.
Proof.
  induction n as [|n IH]; intros t Hv; [exact Hv|].
  cbn [audio_fill]. unfold audio_step.
  set (t1 := {| beepfreq := beepfreq t;
                v := (v t + double_of_int (beepfreq t))%float;
                have_freq := have_freq t |}).
  assert (H1 : Prim2SF (v t1) <> S754_zero true).
  { simpl. intros H. apply double_add_negative_zero in H as [H _]. auto. }
  specialize (IH t1 H1). destruct (audio_fill sin n t1). exact IH.
Qed.

(** C6 (as the code has it). After [beep(0)] the next callback leaves the
    phase accumulator where it was and stores one and the same sample
    throughout the buffer: the one the code's expression yields for the
    phase at the time of the call.  The buffer is all zeros when that phase
    is 0 (the rate being positive, and [sin] being 0 at 0).  The phase is
    taken not to be the negative zero, which the accumulator, starting
    from 0, never is. *)
Theorem beep_zero_holds_level (t : tone) (_length : Z) :
  Prim2SF (v t) <> S754_zero true ->
  audio_callback sin _length (beep 0 t)
  = (replicate (Z.to_nat (audio_length _length)) (sample_of sin (beep 0 t)),
     beep 0 t)
  /\ (v t = 0%float ->
      0 < have_freq t <= INT_MAX -> sin 0%float = 0%float ->
      audio_callback sin _length (beep 0 t)
      = (replicate (Z.to_nat (audio_length _length)) (Some 0), beep 0 t)).
Proof.
  intros Hsign.
  assert (Hrun : audio_callback sin _length (beep 0 t)
                 = (replicate (Z.to_nat (audio_length _length))
                      (sample_of sin (beep 0 t)), beep 0 t))
    by (apply audio_fill_silent; [reflexivity | exact Hsign]).
  split; [exact Hrun|].
  intros Hv Hrate Hsin.
  rewrite Hrun, (sample_of_rest (beep 0 t)) by assumption.
  reflexivity.
Qed.

(** ** The tone generator, buffer by buffer *)

Lemma audio_fill_facts (n : nat) :
  forall t : tone,
    length (audio_fill sin n t).1 = n
    /\ beepfreq (audio_fill sin n t).2 = beepfreq t
    /\ have_freq (audio_fill sin n t).2 = have_freq t
    /\ v (audio_fill sin n t).2
       = Nat.iter n (fun x => (x + double_of_int (beepfreq t))%float) (v t).
Proof.
  induction n as [|n IH]; intros t.
  - simpl. repeat split; auto.
  - cbn [audio_fill]. unfold audio_step.
    set (t1 := {| beepfreq := beepfreq t;
                  v := (v t + double_of_int (beepfreq t))%float;
                  have_freq := have_freq t |}).
    destruct (IH t1) as (Hlen & Hf & Hr & Hv).
    destruct (audio_fill sin n t1) as [rest t2]. cbn [fst snd] in *.
    split; [simpl; congruence|].
    split; [exact Hf|]. split; [exact Hr|].
    rewrite Hv, Nat.iter_succ_r. reflexivity.
Qed.

Lemma audio_length_half (_length : Z) :
  INT_MIN <= _length <= INT_MAX -> audio_length _length = _length / 2.
Proof.
  unfold INT_MIN, INT_MAX, audio_length, wrap_int. intros Hl.
  destruct (Z.lt_ge_cases _length 0) as [Hneg|Hpos].
  - replace (_length mod 2 ^ 64) with (_length + 2 ^ 64).
    2:{ apply Z.mod_unique with (q := -1); lia. }
    replace ((_length + 2 ^ 64) / 2) with (_length / 2 + 2 ^ 63).
    2:{ replace (2 ^ 64) with (2 ^ 63 * 2) by lia.
        rewrite Z.div_add by lia. reflexivity. }
    assert (- 2 ^ 30 <= _length / 2 < 0).
    { split; [apply Z.div_le_lower_bound; lia
             | apply Z.div_lt_upper_bound; lia]. }
    replace (_length / 2 + 2 ^ 63 + 2 ^ 31)
      with (_length / 2 + 2 ^ 31 + 2 ^ 31 * 2 ^ 32) by lia.
    rewrite Z_mod_plus_full, Z.mod_small by lia. lia.
  - rewrite (Z.mod_small _length) by lia.
    assert (0 <= _length / 2 < 2 ^ 30).
    { split; [apply Z.div_pos; lia | apply Z.div_lt_upper_bound; lia]. }
    rewrite Z.mod_small by lia. lia.
Qed.

(** X18. For a buffer of [_length] bytes, [_length] an [int], the callback
    stores [_length / 2] samples, none when [_length] is 0, 1 or negative
    (an odd last byte is left untouched), advances the phase by the
    frequency once per sample (each addition rounded as a [double]), and
    changes neither the frequency nor the rate. *)
Theorem audio_callback_shape (_length : Z) (t : tone) :
  INT_MIN <= _length <= INT_MAX ->
  let r := audio_callback sin _length t in
  length r.1 = Z.to_nat (_length / 2)
  /\ (_length < 2 -> r = ([], t))
  /\ v r.2
     = Nat.iter (Z.to_nat (_length / 2))
         (fun x => (x + double_of_int (beepfreq t))%float) (v t)
  /\ beepfreq r.2 = beepfreq t
  /\ have_freq r.2 = have_freq t.
Proof.
  intros Hl r. subst r. unfold audio_callback.
  rewrite (audio_length_half _length Hl).
  destruct (audio_fill_facts (Z.to_nat (_length / 2)) t)
    as (Hlen & Hf & Hr & Hv).
  split; [exact Hlen|]. split; [|auto].
  intros Hsmall.
  assert (Hz : Z.to_nat (_length / 2) = 0%nat).
  { assert (_length / 2 <= 0); [|lia].
    assert (_length / 2 < 1); [|lia]. apply Z.div_lt_upper_bound; lia. }
  rewrite Hz. reflexivity.
Qed.

Lemma audio_fill_app (a b : nat) :
  forall t : tone,
    audio_fill sin (a + b) t
    = ((audio_fill sin a t).1 ++ (audio_fill sin b (audio_fill sin a t).2).1,
       (audio_fill sin b (audio_fill sin a t).2).2).
Proof.
  induction a as [|a IH]; intros t.
  - simpl. destruct (audio_fill sin b t); reflexivity.
  - cbn [Nat.add audio_fill]. destruct (audio_step sin t) as [s t1].
    rewrite (IH t1). destruct (audio_fill sin a t1) as [s1 t2]. reflexivity.
Qed.

(** X19. The tone is seamless across buffers: asking for [a] samples and
    then for [b] more stores the same samples, and leaves the same state,
    as asking for [a + b] samples at once. *)
Theorem audio_callback_split (a b : Z) (t : tone) :
  0 <= a -> 0 <= b -> 2 * (a + b) <= INT_MAX ->
  let first := audio_callback sin (2 * a) t in
  let second := audio_callback sin (2 * b) first.2 in
  audio_callback sin (2 * (a + b)) t = (first.1 ++ second.1, second.2).
Proof.
  intros Ha Hb Hmax first second. subst first second.
  unfold audio_callback. unfold INT_MAX in Hmax.
  rewrite !audio_length_half by (unfold INT_MIN, INT_MAX; lia).
  replace (2 * (a + b) / 2) with (a + b)
    by (rewrite Z.mul_comm, Z.div_mul; lia).
  replace (2 * a / 2) with a by (rewrite Z.mul_comm, Z.div_mul; lia).
  replace (2 * b / 2) with b by (rewrite Z.mul_comm, Z.div_mul; lia).
  rewrite Z2Nat.inj_add by lia. apply audio_fill_app.
Qed.

End ToneProperties.

(** C6 (the claim fails). From rest at 44100 Hz, one sample of an 11025 Hz
    tone puts the phase at 11025, a quarter period: the argument of [sin]
    is then the [double] nearest to pi/2, whose sine rounds to 1.  After
    [beep(0)] the next callback, asked for two samples, stores 8000 twice:
    the buffer is not all zeros. *)
Lemma beep_zero_not_silent :
  let sin := sin_sheet [(0, 0); (0x1.921fb54442d18p+0, 1)]%float in
  let t0 := {| beepfreq := 0; v := 0%float; have_freq := 44100 |} in
  let t1 := (audio_callback sin 2 (beep 11025 t0)).2 in
  v t1 = 11025%float
  /\ (audio_callback sin 4 (beep 0 t1)).1 = [Some 8000; Some 8000]
  /\ ~ Forall (fun s => s = Some 0) (audio_callback sin 4 (beep 0 t1)).1.
Proof.
  intros sin t0 t1.
  assert (Hv : v t1 = 11025%float) by (vm_compute; reflexivity).
  assert (Hrun : (audio_callback sin 4 (beep 0 t1)).1
                 = [Some 8000; Some 8000]) by (vm_compute; reflexivity).
  split; [exact Hv|]. split; [exact Hrun|].
  rewrite Hrun. intros H. apply Forall_cons in H as [H _]. discriminate.
Qed.

(** The arithmetic rounds and the conversion truncates.  At phase 3675 and
    44100 Hz the argument of [sin] is the [double] just below pi/6, whose
    sine rounds to the [double] just below 1/2: the sample is 3999. *)
Lemma sample_of_truncates :
  let sin := sin_sheet [(0x1.0c152382d7365p-1, 0x1.fffffffffffffp-2)]%float in
  let t := {| beepfreq := 0; v := 3675%float; have_freq := 44100 |} in
  (v t * double_of_int 2 * M_PI / double_of_int (have_freq t))%float
  = 0x1.0c152382d7365p-1%float
  /\ sample_of sin t = Some 3999.
Proof. split; vm_compute; reflexivity. Qed.

(** Before a device is opened the rate is 0: at phase 0 the argument of
    [sin] is 0/0, a NaN, and a NaN has no conversion to a sample. *)
Lemma sample_of_no_rate :
  let t := {| beepfreq := 0; v := 0%float; have_freq := 0 |} in
  Prim2SF (v t * double_of_int 2 * M_PI / double_of_int (have_freq t))%float
  = S754_nan
  /\ Sint16_of_double nan = None.
Proof. split; vm_compute; reflexivity. Qed.

(** ** Instances *)

Lemma sdl_get_keycode_total_safe_witness :
  sdl_get_keycode 512 {| key_down := true; key_scancode := 600 |} = Some 0
  /\ sdl_get_keycode 512 {| key_down := true; key_scancode := SDL_SCANCODE_A |}
     = Some KEY_A.
Proof.
  split.
  - apply (sdl_get_keycode_total_safe 512
             {| key_down := true; key_scancode := 600 |}); simpl; lia.
  - destruct (sdl_get_keycode_total_safe 512
                {| key_down := true; key_scancode := SDL_SCANCODE_A |})
      as (_ & Hin & _); [simpl; unfold SDL_SCANCODE_A; lia|].
    destruct Hin as (_ & _ & ->); [simpl; unfold SDL_SCANCODE_A; lia|].
    reflexivity.
Defined.

Lemma keymap_collapses_witness :
  SDL_SCANCODE_RALT < 512
  /\ array_get (keymap 512) SDL_SCANCODE_NONUSHASH
     = array_get (keymap 512) SDL_SCANCODE_BACKSLASH
  /\ array_get (keymap 512) SDL_SCANCODE_KP_EQUALSAS400
     = array_get (keymap 512) SDL_SCANCODE_KP_EQUALS
  /\ array_get (keymap 512) SDL_SCANCODE_RETURN2
     = array_get (keymap 512) SDL_SCANCODE_RETURN.
Proof.
  assert (Hsize : SDL_SCANCODE_RALT < 512) by (unfold SDL_SCANCODE_RALT; lia).
  destruct (keymap_collapses 512 Hsize)
    as (Hb & Hh & _ & Hk & Hk' & Hr & Hr').
  split; [exact Hsize|]. rewrite Hb, Hh, Hk, Hk', Hr, Hr'. auto.
Defined.

Lemma unmapped_key_resets_witness :
  let w0 := initial_world 512 640 480 in
  let evs := [ {| key_down := true; key_scancode := SDL_SCANCODE_A |};
               {| key_down := true; key_scancode := SDL_SCANCODE_LSHIFT |} ] in
  let w := (for_each (sdl_handle_key_event 512) evs w0).2 in
  let ev := {| key_down := false; key_scancode := 1 |} in
  exists ks : list Z,
    sdl_handle_key_event 512 ev w
    = (Ret tt,
       set_key_pressed (replicate (Z.to_nat 512) false)
         (set_trace (trace w ++ map (vm_send_key_event false) ks) w))
    /\ StronglySorted Z.lt ks
    /\ (forall k : Z, In k ks <-> array_get (key_pressed w) k = Some true).
Proof.
  intros w0 evs w ev.
  assert (Hinit : key_pressed w0 = replicate (Z.to_nat 512) false)
    by reflexivity.
  assert (Hrun : for_each (sdl_handle_key_event 512) evs w0 = (Ret tt, w))
    by (vm_compute; reflexivity).
  assert (Hk : sdl_get_keycode 512 ev = Some 0) by (vm_compute; reflexivity).
  destruct (unmapped_key_resets 512 w0 w evs ev Hinit Hrun Hk) as [Hup _].
  apply Hup. reflexivity.
Defined.

Lemma lock_keys_press_release_witness :
  let w := initial_world 512 640 480 in
  let ev := {| key_down := false; key_scancode := SDL_SCANCODE_CAPSLOCK |} in
  sdl_get_keycode 512 ev = Some KEY_CAPSLOCK
  /\ sdl_handle_key_event 512 ev w
     = (Ret tt,
        set_trace [vm_send_key_event true KEY_CAPSLOCK;
                   vm_send_key_event false KEY_CAPSLOCK] w).
Proof.
  intros w ev.
  assert (Hk : sdl_get_keycode 512 ev = Some KEY_CAPSLOCK)
    by (vm_compute; reflexivity).
  split; [exact Hk|].
  apply (lock_keys_press_release 512 ev KEY_CAPSLOCK w Hk). left. reflexivity.
Defined.

Lemma mouse_motion_scaling_witness :
  let w := initial_world 512 640 480 in
  let m := {| fb_dev := None; mouse_is_absolute := true |} in
  sdl_handle_mouse_motion_event 1 320 240 3 (-2) m w
  = (Ret tt, set_trace [vm_send_mouse_event 16384 16384 0 1] w).
Proof.
  intros w m.
  destruct (mouse_motion_scaling m w 1 320 240 3 (-2)) as [Habs _].
  apply Habs; [reflexivity | simpl; lia | simpl; lia | lia | lia].
Defined.

Lemma beep_zero_holds_level_witness :
  let sin := sin_sheet [(0, 0); (0x1.921fb54442d18p+0, 1)]%float in
  let held := {| beepfreq := 440; v := 11025%float; have_freq := 44100 |} in
  let rest := {| beepfreq := 440; v := 0%float; have_freq := 44100 |} in
  sample_of sin (beep 0 held) = Some 8000
  /\ audio_callback sin 8 (beep 0 held)
     = ([Some 8000; Some 8000; Some 8000; Some 8000], beep 0 held)
  /\ audio_callback sin 8 (beep 0 rest)
     = ([Some 0; Some 0; Some 0; Some 0], beep 0 rest).
Proof.
  intros sin held rest.
  assert (Hlevel : sample_of sin (beep 0 held) = Some 8000)
    by (vm_compute; reflexivity).
  split; [exact Hlevel|]. split.
  - destruct (beep_zero_holds_level sin held 8) as [Hrun _];
      [vm_compute; discriminate|].
    rewrite Hrun, Hlevel. reflexivity.
  - destruct (beep_zero_holds_level sin rest 8) as [_ Hzero];
      [vm_compute; discriminate|].
    apply Hzero; [reflexivity | unfold INT_MAX; simpl; lia
                 | vm_compute; reflexivity].
Defined.

Lemma sdl_refresh_phases_witness :
  let idle := {| fb_dev := None; mouse_is_absolute := false |} in
  let fb := {| width := 640; height := 480; stride := 2560; fb_data := 4096;
               dirty := [ {| rect_x := 0; rect_y := 0;
                             rect_w := 8; rect_h := 8 |} ] |} in
  let m := {| fb_dev := Some fb; mouse_is_absolute := false |} in
  let w := set_pending [SDL_KEYDOWN SDL_SCANCODE_A; SDL_MOUSEWHEEL 0 1]
             (resize_world 512) in
  sdl_refresh 512 idle w = (Ret tt, w)
  /\ exists w3, sdl_refresh 512 m w = (Ret tt, w3) /\ pending w3 = [].
Proof.
  intros idle fb m w. split.
  - apply (sdl_refresh_phases 512 idle w). reflexivity.
  - destruct (proj2 (sdl_refresh_phases 512 m w) fb eq_refl)
      as (o1 & w1 & T1 & H1 & _ & _ & _ & Hcases).
    destruct Hcases
      as [[-> _] | (-> & _ & _ & _ & s & w2 & _ & _ & _ & Hrun & Hpoll)].
    + vm_compute in H1. discriminate H1.
    + destruct (sdl_refresh 512 m w) as [o w3] eqn:Hr.
      assert (Ho : o = Ret tt) by (vm_compute in Hr; congruence).
      exists w3. subst o. split; [reflexivity|].
      apply (Hpoll (Ret tt) w3); [|reflexivity].
      rewrite <- Hrun. reflexivity.
Defined.

Lemma quit_exits_immediately_witness :
  let fb := fb_640x480 in
  let m := {| fb_dev := Some fb; mouse_is_absolute := false |} in
  let pre := [SDL_KEYDOWN SDL_SCANCODE_A] in
  let post := [SDL_KEYDOWN SDL_SCANCODE_B] in
  let w := set_pending (pre ++ SDL_QUIT :: post) (resize_world 512) in
  let w1 := ((sdl_update_fb_surface fb ;; refresh fb sdl_update) w).2 in
  let w2 := (poll_events 512 m pre w1).2 in
  sdl_refresh 512 m w = (Exit 0, set_pending post w2)
  /\ ticks 512 [m; m; m] w = (Exit 0, set_pending post w2)
  /\ trace w2 = trace w1 ++ [vm_send_key_event true KEY_A].
Proof.
  intros fb m pre post w w1 w2.
  assert (H12 : (sdl_update_fb_surface fb ;; refresh fb sdl_update) w
                = (Ret tt, w1)) by (vm_compute; reflexivity).
  assert (Hpre : poll_events 512 m pre w1 = (Ret tt, w2))
    by (vm_compute; reflexivity).
  destruct (quit_exits_immediately 512 m fb w w1 w2 pre post [m; m]
              eq_refl eq_refl H12 Hpre) as (Hr & Ht & _).
  split; [exact Hr|]. split; [exact Ht|]. vm_compute. reflexivity.
Defined.

Lemma wheel_delta_always_zero_witness :
  let m := {| fb_dev := Some fb_640x480; mouse_is_absolute := true |} in
  let w := set_pending [SDL_MOUSEWHEEL 0 1; SDL_MOUSEMOTION 0 320 240 1 1]
             (resize_world 512) in
  exists added,
    trace (sdl_refresh 512 m w).2 = trace w ++ added
    /\ forall x y dz buttons,
         In (vm_send_mouse_event x y dz buttons) added -> dz = 0.
Proof.
  intros m w.
  destruct (wheel_delta_always_zero 512 m w) as [Hall _].
  apply (Hall (sdl_refresh 512 m w).1). apply surjective_pairing.
Defined.

Lemma keymap_collisions_witness :
  (KEY_ENTER = KEY_BACKSLASH
   /\ In SDL_SCANCODE_RETURN
        [SDL_SCANCODE_BACKSLASH; SDL_SCANCODE_NONUSHASH;
         SDL_SCANCODE_NONUSBACKSLASH]
   /\ In SDL_SCANCODE_RETURN2
        [SDL_SCANCODE_BACKSLASH; SDL_SCANCODE_NONUSHASH;
         SDL_SCANCODE_NONUSBACKSLASH])
  \/ (KEY_ENTER = KEY_KPEQUAL
      /\ In SDL_SCANCODE_RETURN
           [SDL_SCANCODE_KP_EQUALS; SDL_SCANCODE_KP_EQUALSAS400]
      /\ In SDL_SCANCODE_RETURN2
           [SDL_SCANCODE_KP_EQUALS; SDL_SCANCODE_KP_EQUALSAS400])
  \/ (KEY_ENTER = KEY_ENTER
      /\ In SDL_SCANCODE_RETURN [SDL_SCANCODE_RETURN; SDL_SCANCODE_RETURN2]
      /\ In SDL_SCANCODE_RETURN2 [SDL_SCANCODE_RETURN; SDL_SCANCODE_RETURN2]).
Proof.
  apply (keymap_collisions 512 SDL_SCANCODE_RETURN SDL_SCANCODE_RETURN2
           KEY_ENTER);
    [ vm_compute; reflexivity | vm_compute; reflexivity
    | unfold KEY_ENTER; lia
    | unfold SDL_SCANCODE_RETURN, SDL_SCANCODE_RETURN2; lia ].
Defined.

Lemma keymap_entries_witness :
  0 <= KEY_CAPSLOCK <= 355
  /\ (KEY_CAPSLOCK = 0x3a <-> SDL_SCANCODE_CAPSLOCK = SDL_SCANCODE_CAPSLOCK).
Proof.
  destruct (keymap_entries 512 SDL_SCANCODE_CAPSLOCK KEY_CAPSLOCK)
    as (Hr & _ & Hc & _); [vm_compute; reflexivity|].
  split; [exact Hr | exact Hc].
Defined.

Lemma key_pressed_tracks_guest_witness :
  let m := {| fb_dev := Some fb_640x480; mouse_is_absolute := false |} in
  let s := [ (m, [SDL_KEYDOWN SDL_SCANCODE_A; SDL_KEYDOWN SDL_SCANCODE_LSHIFT]);
             (m, [SDL_KEYUP SDL_SCANCODE_A;
                  SDL_KEYDOWN SDL_SCANCODE_CAPSLOCK]);
             (m, []);
             (m, [SDL_KEYDOWN SDL_SCANCODE_B;
                  SDL_KEYDOWN SDL_SCANCODE_SELECT]) ] in
  let w0 := resize_world 512 in
  let w' := (session 512 s w0).2 in
  (session 512 s w0).1 = Ret tt
  /\ map (key_state_after (trace w'))
       [KEY_A; KEY_LEFTSHIFT; KEY_CAPSLOCK; KEY_B; KEY_SELECT]
     = [false; true; false; true; true]
  /\ (forall k : Z, 0 <= k < 512 ->
        array_get (key_pressed w') k = Some (key_state_after (trace w') k))
  /\ key_state_after (trace w') 0 = false
  /\ key_state_after (trace w') KEY_CAPSLOCK = false
  /\ key_state_after (trace w') KEY_NUMLOCK = false.
Proof.
  intros m s w0 w'.
  split; [vm_compute; reflexivity|].
  split; [vm_compute; reflexivity|].
  apply (key_pressed_tracks_guest 512 s w0 w' (session 512 s w0).1);
    [reflexivity | reflexivity | apply surjective_pairing].
Defined.

Lemma reset_releases_all_tracked_witness :
  let w0 := initial_world 256 640 480 in
  let w1 := (sdl_handle_key_event 256
               {| key_down := true; key_scancode := SDL_SCANCODE_A |} w0).2 in
  let w := (sdl_handle_key_event 256
              {| key_down := true; key_scancode := SDL_SCANCODE_SELECT |}
              w1).2 in
  let ev := {| key_down := false; key_scancode := 1 |} in
  array_get (key_pressed w) KEY_A = Some true
  /\ key_state_after (trace w) KEY_A = true
  /\ key_state_after (trace w) KEY_SELECT = true
  /\ exists w',
       sdl_handle_key_event 256 ev w = (Ret tt, w')
       /\ key_state_after (trace w') KEY_A = false
       /\ key_state_after (trace w') KEY_SELECT = true
       /\ (forall k : Z, 0 <= k < 256 ->
             key_state_after (trace w') k = false)
       /\ (forall k : Z, 256 <= k ->
             key_state_after (trace w') k = key_state_after (trace w) k).
Proof.
  intros w0 w1 w ev.
  assert (Ht1 : tracks 256 w1).
  { eapply sdl_handle_key_event_tracks;
      [apply (tracks_start 256 w0); reflexivity | apply surjective_pairing]. }
  assert (Ht : tracks 256 w).
  { eapply sdl_handle_key_event_tracks;
      [exact Ht1 | apply surjective_pairing]. }
  destruct Ht as (Hlen & Hkp & H0 & _).
  split; [vm_compute; reflexivity|].
  split; [vm_compute; reflexivity|].
  split; [vm_compute; reflexivity|].
  destruct (reset_releases_all_tracked 256 ev w Hkp Hlen H0)
    as (w' & Hrun & Hlow & Hhigh);
    [vm_compute; reflexivity | reflexivity |].
  exists w'. split; [exact Hrun|].
  split; [apply Hlow; unfold KEY_A; lia|].
  split; [rewrite Hhigh by (unfold KEY_SELECT; lia); vm_compute; reflexivity|].
  split; assumption.
Defined.

Lemma reset_twice_witness :
  let w := (sdl_handle_key_event 512
              {| key_down := true; key_scancode := SDL_SCANCODE_A |}
              (initial_world 512 640 480)).2 in
  let ev := {| key_down := false; key_scancode := 1 |} in
  let w1 := (sdl_handle_key_event 512 ev w).2 in
  sdl_handle_key_event 512 ev w1 = (Ret tt, w1).
Proof.
  intros w ev w1.
  apply (reset_twice 512 ev ev w w1);
    [ split; [reflexivity | vm_compute; discriminate]
    | vm_compute; reflexivity | reflexivity
    | vm_compute; reflexivity | reflexivity
    | vm_compute; reflexivity ].
Defined.

Lemma tick_never_faults_witness :
  let m := {| fb_dev := Some fb_640x480; mouse_is_absolute := false |} in
  let w := set_pending [SDL_KEYDOWN SDL_SCANCODE_A;
                        SDL_MOUSEMOTION 1 3 4 1 (-1)]
             (resize_world 512) in
  let o := (sdl_refresh 512 m w).1 in
  let w' := (sdl_refresh 512 m w).2 in
  (o = Ret tt /\ (fb_dev m = None \/ pending w' = [])
   /\ (fb_dev m <> None -> ~ In SDL_QUIT (pending w)))
  \/ (o = Exit 0 /\ In SDL_QUIT (pending w))
  \/ (o = Exit 1
      /\ exists fb w1, fb_dev m = Some fb
                       /\ sdl_update_fb_surface fb w = (Exit 1, w1)).
Proof.
  intros m w o w'.
  apply (tick_never_faults 512 m w w' o).
  - split; [reflexivity | vm_compute; discriminate].
  - repeat constructor; simpl; unfold SDL_SCANCODE_A; lia.
  - intros Habs. discriminate Habs.
  - apply surjective_pairing.
Defined.

Lemma button_mask_bits_witness :
  Z.testbit (button_mask 5) 1 = Z.testbit 5 2
  /\ Z.testbit (button_mask 5) 3 = false.
Proof.
  destruct (button_mask_bits 5) as (_ & Hright & _ & Hhigh & _).
  split; [exact Hright | apply Hhigh; lia].
Defined.

Lemma absolute_motion_zero_size_witness :
  let m := {| fb_dev := None; mouse_is_absolute := true |} in
  let w := initial_world 512 0 480 in
  sdl_handle_mouse_motion_event 0 3 4 0 0 m w = (Undef, w).
Proof.
  intros m w.
  apply (absolute_motion_zero_size m w 0 3 4 0 0);
    [reflexivity | left; reflexivity].
Defined.

Lemma mouse_scaling_monotone_witness :
  let m := {| fb_dev := None; mouse_is_absolute := true |} in
  let w := initial_world 512 640 480 in
  exists gx1 gy1 gx2 gy2 : Z,
    sdl_handle_mouse_motion_event 0 10 20 0 0 m w
    = (Ret tt,
       set_trace
         (trace w ++ [vm_send_mouse_event gx1 gy1 0 (button_mask 0)]) w)
    /\ sdl_handle_mouse_motion_event 0 11 20 0 0 m w
       = (Ret tt,
          set_trace
            (trace w ++ [vm_send_mouse_event gx2 gy2 0 (button_mask 0)]) w)
    /\ gx1 <= gx2 /\ gy1 <= gy2.
Proof.
  intros m w.
  apply (mouse_scaling_monotone m w 0 10 11 20 20 0 0);
    [reflexivity | simpl; lia | simpl; lia | lia | lia | lia | lia].
Defined.

Lemma sdl_update_fb_surface_settles_witness :
  let moved := {| width := 640; height := 480; stride := 2560;
                  fb_data := 8192; dirty := [] |} in
  let w1 := (sdl_update_fb_surface fb_640x480 (resize_world 512)).2 in
  sdl_update_fb_surface moved w1 = (Ret tt, w1).
Proof.
  intros moved w1.
  apply (sdl_update_fb_surface_settles fb_640x480 moved (resize_world 512) w1);
    [vm_compute; reflexivity | reflexivity | reflexivity | reflexivity].
Defined.

Lemma sdl_update_fb_surface_outcomes_witness :
  let w := set_fresh [Some 1; None] (initial_world 512 640 480) in
  let r := sdl_update_fb_surface fb_640x480 w in
  r.1 = Exit 1 /\ renderer r.2 = None.
Proof.
  intros w r.
  destruct (sdl_update_fb_surface_outcomes fb_640x480 w r.2 r.1
              (surjective_pairing r)) as [(Hret & _)|(_ & _ & _ & Hcases)].
  - vm_compute in Hret. discriminate Hret.
  - split; vm_compute; reflexivity.
Defined.

Lemma sdl_update_fb_surface_releases_surface_only_witness :
  let w := (sdl_update_fb_surface fb_640x480 (resize_world 512)).2 in
  In 2 (live (sdl_update_fb_surface fb_800x600 w).2).
Proof.
  intros w.
  apply (sdl_update_fb_surface_releases_surface_only fb_800x600 w
           (sdl_update_fb_surface fb_800x600 w).2
           (sdl_update_fb_surface fb_800x600 w).1 2).
  - apply surjective_pairing.
  - vm_compute. tauto.
  - intros s Hs. vm_compute in Hs. injection Hs as <-. discriminate.
Defined.

Lemma presenter_uses_current_stride_witness :
  let fb := {| width := 800; height := 600; stride := 3200; fb_data := 4096;
               dirty := [ {| rect_x := 0; rect_y := 8;
                             rect_w := 16; rect_h := 16 |} ] |} in
  let m := {| fb_dev := Some fb; mouse_is_absolute := false |} in
  let w := (sdl_update_fb_surface fb_640x480 (resize_world 512)).2 in
  let w' := (sdl_refresh 512 m w).2 in
  surface_fits w'
  /\ exists added,
       trace w' = trace w ++ added
       /\ Forall (updates_at_stride 3200) added.
Proof.
  intros fb m w w'.
  apply (presenter_uses_current_stride 512 m fb w w' (sdl_refresh 512 m w).1).
  - intros s Hs. vm_compute in Hs. injection Hs as <-. reflexivity.
  - reflexivity.
  - apply surjective_pairing.
Defined.

Lemma poll_events_app_witness :
  let m := {| fb_dev := None; mouse_is_absolute := false |} in
  let w := initial_world 512 640 480 in
  let q1 := [SDL_KEYDOWN SDL_SCANCODE_A] in
  let q2 := [SDL_KEYUP SDL_SCANCODE_A; SDL_QUIT] in
  poll_events 512 m (q1 ++ q2) w
  = poll_events 512 m q2 (poll_events 512 m q1 w).2.
Proof.
  intros m w q1 q2.
  apply (poll_events_app 512 m q1 q2 w (poll_events 512 m q1 w).2).
  vm_compute. reflexivity.
Defined.

Lemma press_then_release_witness :
  let w := initial_world 512 640 480 in
  (sdl_handle_key_event 512
     {| key_down := true; key_scancode := SDL_SCANCODE_A |} ;;
   sdl_handle_key_event 512
     {| key_down := false; key_scancode := SDL_SCANCODE_A |}) w
  = (Ret tt,
     set_trace [vm_send_key_event true KEY_A; vm_send_key_event false KEY_A]
       w).
Proof.
  intros w.
  apply (press_then_release 512 SDL_SCANCODE_A KEY_A w);
    [ vm_compute; reflexivity | unfold KEY_A; lia | unfold KEY_A; lia
    | unfold KEY_A; lia | unfold KEY_A; lia | reflexivity
    | vm_compute; reflexivity ].
Defined.

Lemma sdl_init_outcomes_witness :
  let host := {| init_status := 0; new_window := Some 1; new_cursor := None;
                 new_device := 2; obtained_freq := 48000 |} in
  let r := sdl_init 640 480 host (process_start 512) in
  r.1 = Ret tt
  /\ globals r.2 = initial_world 512 640 480
  /\ have_freq (tone_state r.2) = 48000.
Proof.
  intros host r.
  destruct (sdl_init_outcomes 512 640 480 host)
    as (Hiff & _ & _ & _ & _ & _ & Hret).
  assert (Hr : r.1 = Ret tt).
  { apply Hiff. simpl. repeat split; discriminate. }
  destruct (Hret Hr) as (Hg & Ht & _).
  split; [exact Hr|]. split; [exact Hg|].
  fold r in Ht. rewrite Ht. reflexivity.
Defined.

Lemma audio_callback_shape_witness :
  let sin := sin_sheet [(0, 0)]%float in
  let t := {| beepfreq := 440; v := 0%float; have_freq := 44100 |} in
  length (audio_callback sin 9 t).1 = 4%nat
  /\ v (audio_callback sin 9 t).2 = 1760%float
  /\ audio_callback sin 1 t = ([], t).
Proof.
  intros sin t.
  destruct (audio_callback_shape sin 9 t) as (Hlen & _ & Hv & _);
    [unfold INT_MIN, INT_MAX; lia|].
  split; [exact Hlen|]. split.
  - rewrite Hv. vm_compute. reflexivity.
  - destruct (audio_callback_shape sin 1 t) as (_ & Hsmall & _);
      [unfold INT_MIN, INT_MAX; lia|].
    apply Hsmall. lia.
Defined.

Lemma audio_callback_split_witness :
  let sin := sin_sheet [(0, 0)]%float in
  let t := {| beepfreq := 440; v := 0%float; have_freq := 44100 |} in
  audio_callback sin (2 * (2 + 3)) t
  = ((audio_callback sin (2 * 2) t).1
     ++ (audio_callback sin (2 * 3) (audio_callback sin (2 * 2) t).2).1,
     (audio_callback sin (2 * 3) (audio_callback sin (2 * 2) t).2).2).
Proof.
  intros sin t.
  apply (audio_callback_split sin 2 3 t); unfold INT_MAX; lia.
Defined.
